(** * Build orchestration and gtest log classification

    A shallow embedding of
      - build/scripts/common/gtest_utils.py  (class GTestLogParser),
      - build/scripts/slave/annotated_run.py (StepPresentation, StepData,
        the step sequencer and run_steps),
      - build/scripts/slave/recipe_modules/properties/api.py (freeze,
        ImmutibleMapping, PropertiesApi),
    together with the properties of them that the specification states.

    Python values are modelled as the code uses them: byte strings as
    [string], dicts keyed by strings as [gmap string _] (or as association
    lists where the insertion order is observable), list objects that are
    shared between several owners as cells of an explicit store. *)

From Stdlib Require Import ZArith Ascii String DecimalString.
From stdpp Require Import base option list strings gmap.

Set Warnings "-register-all".

(** ** Regular expressions of Python's [re] module

    The fragment the parser uses: literals, character classes, greedy
    repetition of a character class, greedy options, the anchors [^] and [$]
    and one capturing group.  [run] is the backtracking matcher: it returns
    every way the expression can match at a position, in the order in which
    Python's matcher tries them, so that the head of the list is the match
    that [re.match] reports. *)
Module Re.

Inductive re : Type :=
| Eps
| Bol                              (* ^ *)
| Eol                              (* $ *)
| Chr (c : ascii)                  (* a literal character *)
| Cls (p : ascii → bool)          (* a character class *)
| Many (p : ascii → bool)         (* p*   (greedy) *)
| Opt (r : re)                     (* r?   (greedy) *)
| Cat (r1 r2 : re)
| Grp (r : re).                    (* the capturing group 1 *)

(** A position of the matcher in the subject: the offset reached, the text
    still to be read and the span of group 1 when it has matched. *)
Record cursor : Type := Cursor {
  pos : nat;
  rest : string;
  grp1 : option (nat * nat)
}.

Definition advance (x : cursor) (s' : string) : cursor :=
  {| pos := S (pos x); rest := s'; grp1 := grp1 x |}.

Fixpoint many (p : ascii → bool) (x : cursor) (s : string) : list cursor :=
  match s with
  | String a s' =>
      if p a then many p (advance x s') s' ++ [x] else [x]
  | EmptyString => [x]
  end.

(* group 1 spans from x to y *)
Definition capture (x y : cursor) : cursor :=
  {| pos := pos y; rest := rest y; grp1 := Some (pos x, pos y) |}.

Fixpoint run (r : re) (x : cursor) : list cursor :=
  match r with
  | Eps => [x]
  | Bol => if Nat.eqb (pos x) 0 then [x] else []
  | Eol => if bool_decide (rest x = "" ∨ rest x = String "010" "") then [x] else []
  | Chr c =>
      match rest x with
      | String a s' => if Ascii.eqb a c then [advance x s'] else []
      | EmptyString => []
      end
  | Cls p =>
      match rest x with
      | String a s' => if p a then [advance x s'] else []
      | EmptyString => []
      end
  | Many p => many p x (rest x)
  | Opt r => run r x ++ [x]
  | Cat r1 r2 => y ← run r1 x; run r2 y
  | Grp r => capture x <$> run r x
  end.

Fixpoint lit (s : string) : re :=
  match s with
  | EmptyString => Eps
  | String c s' => Cat (Chr c) (lit s')
  end.

Definition plus (p : ascii → bool) : re := Cat (Cls p) (Many p).

Fixpoint cat (rs : list re) : re :=
  match rs with
  | [] => Eps
  | [r] => r
  | r :: rs' => Cat r (cat rs')
  end.

(** Character classes of a byte-string pattern compiled without flags. *)
Definition in_range (lo hi : N) (a : ascii) : bool :=
  (N.leb lo (N_of_ascii a) && N.leb (N_of_ascii a) hi)%bool.

(* \d *)
Definition digit (a : ascii) : bool := in_range 48 57 a.
(* \w *)
Definition word (a : ascii) : bool :=
  (in_range 97 122 a || in_range 65 90 a || digit a || Ascii.eqb a "_")%bool.
(* \s : space, \t \n \v \f \r *)
Definition space (a : ascii) : bool :=
  (Ascii.eqb a " " || in_range 9 13 a)%bool.
(* .  : anything but a newline *)
Definition dot (a : ascii) : bool := negb (Ascii.eqb a "010").

Fixpoint drop_str (n : nat) (s : string) : string :=
  match n, s with
  | S n', String _ s' => drop_str n' s'
  | _, _ => s
  end.

(** A match object: where the match starts, and the text of group 1. *)
Record match_obj : Type := MatchObj {
  m_start : nat;
  m_group1 : string
}.

Definition match_at (r : re) (i : nat) (s : string) : option match_obj :=
  x ← head (run r {| pos := i; rest := drop_str i s; grp1 := None |});
  Some {| m_start := i;
          m_group1 := match grp1 x with
                      | Some (b, e) => substring b (e - b) s
                      | None => ""
                      end |}.

(* regexp.match(line) *)
Definition rmatch (r : re) (s : string) : option match_obj := match_at r 0 s.

(* regexp.search(line): the leftmost start at which the expression matches *)
Fixpoint search_from (r : re) (s : string) (i fuel : nat) : option match_obj :=
  match match_at r i s with
  | Some m => Some m
  | None =>
      match fuel with
      | O => None
      | S fuel' => search_from r s (S i) fuel'
      end
  end.

Definition search (r : re) (s : string) : option match_obj :=
  search_from r s 0 (String.length s).

(** The cursor a greedy [Many p] reaches first: past the longest run of
    characters of the class. *)
Fixpoint skip (p : ascii → bool) (x : cursor) (s : string) : cursor :=
  match s with
  | String a s' => if p a then skip p (advance x s') s' else x
  | EmptyString => x
  end.

(** The text does not go on with a character of the class. *)
Definition stops (p : ascii → bool) (s : string) : Prop :=
  match s with
  | String a _ => p a = false
  | EmptyString => True
  end.

(** The cursor after reading the literal [w], when the text starts with it. *)
Fixpoint read_lit (w : string) (x : cursor) : option cursor :=
  match w with
  | EmptyString => Some x
  | String c w' =>
      match rest x with
      | String a s' => if Ascii.eqb a c then read_lit w' (advance x s') else None
      | EmptyString => None
      end
  end.

(** Every character of the text is in the class. *)
Definition all_chars (p : ascii → bool) (s : string) : bool :=
  forallb p (list_ascii_of_string s).

(** The cursor is at offset [pos] of the subject [s]. *)
Definition consistent (s : string) (x : cursor) : Prop :=
  rest x = drop_str (pos x) s.

(** The same cursor, [k] characters further into a longer subject. *)
Definition shift (k : nat) (x : cursor) : cursor :=
  {| pos := pos x + k; rest := rest x;
     grp1 := (λ be, (be.1 + k, be.2 + k)) <$> grp1 x |}.

(** The expression does not use the anchor [^]. *)
Fixpoint no_bol (r : re) : bool :=
  match r with
  | Bol => false
  | Opt r | Grp r => no_bol r
  | Cat r1 r2 => no_bol r1 && no_bol r2
  | _ => true
  end.

End Re.

(** ** The gtest log classifier (build/scripts/common/gtest_utils.py) *)
Module GTest.
Import Re.

(** The list objects that hold failure descriptions live in a store: the
    parser keeps references to them in [_failure_description] and inside the
    tuples of [_test_status], and appends to them in place. *)
Definition loc : Type := nat.

(** The values [_disabled_tests] and [_flaky_tests] take: a Python 2 [int],
    a [long] (what [int()] returns above [sys.maxint]) or a string. *)
Inductive pyval : Type :=
| PyInt (n : Z)
| PyLong (n : Z)
| PyStr (s : string).

Record GTestLogParser : Type := {
  completed : bool;
  _current_test : string;
  _failure_description : loc;
  _current_suppression_hash : string;
  _current_suppression : list string;
  _parsing_failures : bool;
  _line_number : nat;
  _internal_error_lines : list string;
  (* 'test.name': (status, [description]) *)
  _test_status : gmap string (string * loc);
  (* 'hash': [suppression] *)
  _suppressions : gmap string (list string);
  _disabled_tests : pyval;
  _flaky_tests : pyval;
  master_name : string;
  retrying_failed : bool;
  (* the store of list objects *)
  heap : list (list string)
}.

Definition set_completed (v : bool) (self : GTestLogParser) : GTestLogParser :=
  Build_GTestLogParser v (_current_test self) (_failure_description self)
    (_current_suppression_hash self) (_current_suppression self)
    (_parsing_failures self) (_line_number self) (_internal_error_lines self)
    (_test_status self) (_suppressions self) (_disabled_tests self)
    (_flaky_tests self) (master_name self) (retrying_failed self) (heap self).

Definition set_current_test (v : string) (self : GTestLogParser) : GTestLogParser :=
  Build_GTestLogParser (completed self) v (_failure_description self)
    (_current_suppression_hash self) (_current_suppression self)
    (_parsing_failures self) (_line_number self) (_internal_error_lines self)
    (_test_status self) (_suppressions self) (_disabled_tests self)
    (_flaky_tests self) (master_name self) (retrying_failed self) (heap self).

Definition set_failure_description (v : loc) (self : GTestLogParser) : GTestLogParser :=
  Build_GTestLogParser (completed self) (_current_test self) v
    (_current_suppression_hash self) (_current_suppression self)
    (_parsing_failures self) (_line_number self) (_internal_error_lines self)
    (_test_status self) (_suppressions self) (_disabled_tests self)
    (_flaky_tests self) (master_name self) (retrying_failed self) (heap self).

Definition set_current_suppression_hash (v : string) (self : GTestLogParser) : GTestLogParser :=
  Build_GTestLogParser (completed self) (_current_test self)
    (_failure_description self) v (_current_suppression self)
    (_parsing_failures self) (_line_number self) (_internal_error_lines self)
    (_test_status self) (_suppressions self) (_disabled_tests self)
    (_flaky_tests self) (master_name self) (retrying_failed self) (heap self).

Definition set_current_suppression (v : list string) (self : GTestLogParser) : GTestLogParser :=
  Build_GTestLogParser (completed self) (_current_test self)
    (_failure_description self) (_current_suppression_hash self) v
    (_parsing_failures self) (_line_number self) (_internal_error_lines self)
    (_test_status self) (_suppressions self) (_disabled_tests self)
    (_flaky_tests self) (master_name self) (retrying_failed self) (heap self).

Definition set_parsing_failures (v : bool) (self : GTestLogParser) : GTestLogParser :=
  Build_GTestLogParser (completed self) (_current_test self)
    (_failure_description self) (_current_suppression_hash self)
    (_current_suppression self) v (_line_number self) (_internal_error_lines
    self) (_test_status self) (_suppressions self) (_disabled_tests self)
    (_flaky_tests self) (master_name self) (retrying_failed self) (heap self).

Definition set_line_number (v : nat) (self : GTestLogParser) : GTestLogParser :=
  Build_GTestLogParser (completed self) (_current_test self)
    (_failure_description self) (_current_suppression_hash self)
    (_current_suppression self) (_parsing_failures self) v
    (_internal_error_lines self) (_test_status self) (_suppressions self)
    (_disabled_tests self) (_flaky_tests self) (master_name self)
    (retrying_failed self) (heap self).

Definition set_internal_error_lines (v : list string) (self : GTestLogParser) : GTestLogParser :=
  Build_GTestLogParser (completed self) (_current_test self)
    (_failure_description self) (_current_suppression_hash self)
    (_current_suppression self) (_parsing_failures self) (_line_number self) v
    (_test_status self) (_suppressions self) (_disabled_tests self)
    (_flaky_tests self) (master_name self) (retrying_failed self) (heap self).

Definition set_test_status (v : gmap string (string * loc)) (self : GTestLogParser) : GTestLogParser :=
  Build_GTestLogParser (completed self) (_current_test self)
    (_failure_description self) (_current_suppression_hash self)
    (_current_suppression self) (_parsing_failures self) (_line_number self)
    (_internal_error_lines self) v (_suppressions self) (_disabled_tests self)
    (_flaky_tests self) (master_name self) (retrying_failed self) (heap self).

Definition set_suppressions (v : gmap string (list string)) (self : GTestLogParser) : GTestLogParser :=
  Build_GTestLogParser (completed self) (_current_test self)
    (_failure_description self) (_current_suppression_hash self)
    (_current_suppression self) (_parsing_failures self) (_line_number self)
    (_internal_error_lines self) (_test_status self) v (_disabled_tests self)
    (_flaky_tests self) (master_name self) (retrying_failed self) (heap self).

Definition set_disabled_tests (v : pyval) (self : GTestLogParser) : GTestLogParser :=
  Build_GTestLogParser (completed self) (_current_test self)
    (_failure_description self) (_current_suppression_hash self)
    (_current_suppression self) (_parsing_failures self) (_line_number self)
    (_internal_error_lines self) (_test_status self) (_suppressions self) v
    (_flaky_tests self) (master_name self) (retrying_failed self) (heap self).

Definition set_flaky_tests (v : pyval) (self : GTestLogParser) : GTestLogParser :=
  Build_GTestLogParser (completed self) (_current_test self)
    (_failure_description self) (_current_suppression_hash self)
    (_current_suppression self) (_parsing_failures self) (_line_number self)
    (_internal_error_lines self) (_test_status self) (_suppressions self)
    (_disabled_tests self) v (master_name self) (retrying_failed self) (heap
    self).

Definition set_master_name (v : string) (self : GTestLogParser) : GTestLogParser :=
  Build_GTestLogParser (completed self) (_current_test self)
    (_failure_description self) (_current_suppression_hash self)
    (_current_suppression self) (_parsing_failures self) (_line_number self)
    (_internal_error_lines self) (_test_status self) (_suppressions self)
    (_disabled_tests self) (_flaky_tests self) v (retrying_failed self) (heap
    self).

Definition set_retrying_failed (v : bool) (self : GTestLogParser) : GTestLogParser :=
  Build_GTestLogParser (completed self) (_current_test self)
    (_failure_description self) (_current_suppression_hash self)
    (_current_suppression self) (_parsing_failures self) (_line_number self)
    (_internal_error_lines self) (_test_status self) (_suppressions self)
    (_disabled_tests self) (_flaky_tests self) (master_name self) v (heap
    self).

Definition set_heap (v : list (list string)) (self : GTestLogParser) : GTestLogParser :=
  Build_GTestLogParser (completed self) (_current_test self)
    (_failure_description self) (_current_suppression_hash self)
    (_current_suppression self) (_parsing_failures self) (_line_number self)
    (_internal_error_lines self) (_test_status self) (_suppressions self)
    (_disabled_tests self) (_flaky_tests self) (master_name self)
    (retrying_failed self) v.

(** *** The store *)

Definition deref (self : GTestLogParser) (l : loc) : list string :=
  default [] (heap self !! l).

(* a new list object *)
Definition alloc (v : list string) (self : GTestLogParser) : loc * GTestLogParser :=
  (length (heap self), set_heap (heap self ++ [v]) self).

(* l.extend(xs), l.append(x): in place *)
Definition extend (l : loc) (xs : list string) (self : GTestLogParser) : GTestLogParser :=
  set_heap (alter (λ v, v ++ xs) l (heap self)) self.

(** *** __init__ *)

Definition dquote : ascii := "034"%char.

(* r'((\w+/)?\w+\.\w+(/\d+)?)'; only group 1 is ever read *)
Definition test_name_regexp : re :=
  Grp (cat [Opt (Cat (plus word) (Chr "/")); plus word; Chr "."; plus word;
            Opt (Cat (Chr "/") (plus digit))]).

(* the literal [Running for master: and a double quote, then group 1: any
   run of characters other than the double quote, then a double quote *)
Definition _master_name_re : re :=
  cat [lit "[Running for master: "; Chr dquote;
       Grp (Many (λ a, negb (Ascii.eqb a dquote))); Chr dquote].

Definition _test_name : re := test_name_regexp.
(* '\[\s+RUN\s+\] ' + test_name_regexp *)
Definition _test_start : re :=
  cat [Chr "["; plus space; lit "RUN"; plus space; lit "] "; test_name_regexp].
(* '\[\s+OK\s+\] ' + test_name_regexp *)
Definition _test_ok : re :=
  cat [Chr "["; plus space; lit "OK"; plus space; lit "] "; test_name_regexp].
(* '\[\s+FAILED\s+\] ' + test_name_regexp *)
Definition _test_fail : re :=
  cat [Chr "["; plus space; lit "FAILED"; plus space; lit "] "; test_name_regexp].
(* '\[\s+PASSED\s+\] \d+ tests?.' *)
Definition _test_passed : re :=
  cat [Chr "["; plus space; lit "PASSED"; plus space; lit "] "; plus digit;
       lit " test"; Opt (Chr "s"); Cls dot].
(* '\[\s*\d+\/\d+\]\s+[0-9\.]+s ' + test_name_regexp + ' .+' *)
Definition _run_test_cases_line : re :=
  cat [Chr "["; Many space; plus digit; Chr "/"; plus digit; Chr "]";
       plus space; plus (λ a, digit a || Ascii.eqb a ".")%bool; lit "s ";
       test_name_regexp; Chr " "; plus dot].
(* 'Test timeout \([0-9]+ ms\) exceeded for ' + test_name_regexp *)
Definition _test_timeout : re :=
  cat [lit "Test timeout ("; plus digit; lit " ms) exceeded for ";
       test_name_regexp].
(* '\s*YOU HAVE (\d+) DISABLED TEST' *)
Definition _disabled : re :=
  cat [Many space; lit "YOU HAVE "; Grp (plus digit); lit " DISABLED TEST"].
(* '\s*YOU HAVE (\d+) FLAKY TEST' *)
Definition _flaky : re :=
  cat [Many space; lit "YOU HAVE "; Grp (plus digit); lit " FLAKY TEST"].
(* 'Suppression \(error hash=#([0-9A-F]+)#\):' *)
Definition _suppression_start : re :=
  cat [lit "Suppression (error hash=#";
       Grp (plus (λ a, digit a || in_range 65 70 a)%bool); lit "#):"].
(* '^}\s*$' *)
Definition _suppression_end : re := cat [Bol; Chr "}"; Many space; Eol].
(* 'RETRYING FAILED TESTS:' *)
Definition _retry_message : re := lit "RETRYING FAILED TESTS:".

Definition init : GTestLogParser :=
  {| completed := false;
     _current_test := "";
     _failure_description := 0;
     _current_suppression_hash := "";
     _current_suppression := [];
     _parsing_failures := false;
     _line_number := 0;
     _internal_error_lines := [];
     _test_status := ∅;
     _suppressions := ∅;
     _disabled_tests := PyInt 0;
     _flaky_tests := PyInt 0;
     master_name := "";
     retrying_failed := false;
     heap := [ [] ] |}.

(** *** Queries *)

Definition GetCurrentTest (self : GTestLogParser) : string := _current_test self.

(* self._test_status.get(test, ('not known', []))[0] *)
Definition _StatusOfTest (self : GTestLogParser) (test : string) : string :=
  match _test_status self !! test with
  | Some (status, _) => status
  | None => "not known"
  end.

Definition ParsingErrors (self : GTestLogParser) : list string :=
  _internal_error_lines self.

Definition DisabledTests (self : GTestLogParser) : pyval := _disabled_tests self.

Definition FlakyTests (self : GTestLogParser) : pyval := _flaky_tests self.

(* ['%s: ' % test] + self._test_status.get(test, ('', []))[1] *)
Definition FailureDescription (self : GTestLogParser) (test : string) : list string :=
  [test +:+ ": "] ++
  match _test_status self !! test with
  | Some (_, description) => deref self description
  | None => []
  end.

Definition Suppression (self : GTestLogParser) (suppression_hash : string) : list string :=
  default [] (_suppressions self !! suppression_hash).

(** *** Builtins *)

(* str.lstrip() *)
Fixpoint lstrip (s : string) : string :=
  match s with
  | String a s' => if space a then lstrip s' else s
  | EmptyString => EmptyString
  end.

Definition reverse_str (s : string) : string :=
  string_of_list_ascii (rev (list_ascii_of_string s)).

(* str.strip() *)
Definition strip (s : string) : string :=
  reverse_str (lstrip (reverse_str (lstrip s))).

(* '%s' % n for a non-negative int *)
Definition str_of_nat (n : nat) : string :=
  NilEmpty.string_of_uint (Nat.to_uint n).

Fixpoint digits_val (acc : Z) (s : string) : option Z :=
  match s with
  | EmptyString => Some acc
  | String a s' =>
      if digit a
      then digits_val (10 * acc + (Z.of_N (N_of_ascii a) - 48)) s'
      else None
  end.

Definition is_int (v : pyval) : bool :=
  match v with PyInt _ => true | _ => false end.

(* v > 0, for the result of int() *)
Definition positive (v : pyval) : bool :=
  match v with
  | PyInt n | PyLong n => bool_decide (0 < n)%Z
  | PyStr _ => true
  end.

Section Parser.

(** [sys.maxint] of the interpreter: [int()] returns a [long] beyond it. *)
Variable maxint : Z.

(** [int(s)] for a string: surrounding blanks, an optional sign and decimal
    digits; [None] stands for the ValueError. *)
Definition py_int (s : string) : option pyval :=
  let s := strip s in
  let '(neg, body) :=
    match s with
    | String "-" t => (true, t)
    | String "+" t => (false, t)
    | _ => (false, s)
    end in
  match body with
  | EmptyString => None
  | _ =>
      n ← digits_val 0 body;
      let n := if neg : bool then (- n)%Z else n in
      Some (if bool_decide (- maxint - 1 ≤ n ≤ maxint)%Z then PyInt n else PyLong n)
  end.

Definition _RecordError (line reason : string) (self : GTestLogParser) : GTestLogParser :=
  set_internal_error_lines
    (_internal_error_lines self ++
       [str_of_nat (_line_number self) +:+ ": " +:+ strip line +:+ " [" +:+ reason +:+ "]"])
    self.

(** The block that [_ProcessLine] runs on a shard summary line and on a
    test start:
<<
      if self._current_test:
        if self._test_status[self._current_test][0] == 'started':
          self._test_status[self._current_test] = (
              'timeout', self._failure_description)
>>
    [None] is the KeyError of the subscript. *)
Definition timeout_current_test (self : GTestLogParser) : option GTestLogParser :=
  if bool_decide (_current_test self = "") then Some self
  else
    entry ← _test_status self !! _current_test self;
    if bool_decide (entry.1 = "started")
    then Some (set_test_status
                 (<[_current_test self := ("timeout", _failure_description self)]>
                    (_test_status self)) self)
    else Some self.

(* self._failure_description = [] *)
Definition reset_failure_description (self : GTestLogParser) : GTestLogParser :=
  let '(l, self) := alloc [] self in set_failure_description l self.

(* self._test_status[test_name] = (status, <a new list>) *)
Definition store_new (test_name status : string) (description : list string)
    (self : GTestLogParser) : GTestLogParser :=
  let '(l, self) := alloc description self in
  set_test_status (<[test_name := (status, l)]> (_test_status self)) self.

(* A run_test_cases.py output. *)
Definition on_run_test_cases_line (self : GTestLogParser) : option GTestLogParser :=
  self ← timeout_current_test self;
  Some (reset_failure_description (set_current_test "" self)).

(* A line declaring all tests passed. *)
Definition on_test_passed (self : GTestLogParser) : GTestLogParser :=
  set_current_test "" (set_completed true self).

(* A line reporting disabled tests. *)
Definition on_disabled (results : match_obj) (self : GTestLogParser) : GTestLogParser :=
  let disabled := default (PyInt 0) (py_int (m_group1 results)) in
  if positive disabled && is_int (_disabled_tests self)
  then set_disabled_tests disabled self
  else set_disabled_tests (PyStr "some") self.

(* A line reporting flaky tests. *)
Definition on_flaky (results : match_obj) (self : GTestLogParser) : GTestLogParser :=
  let flaky := default (PyInt 0) (py_int (m_group1 results)) in
  if positive flaky && is_int (_flaky_tests self)
  then set_flaky_tests flaky self
  else set_flaky_tests (PyStr "some") self.

(* The start of a test, once the test that was left running is dealt with. *)
Definition start_test (results : match_obj) (self : GTestLogParser) : option GTestLogParser :=
  let test_name := m_group1 results in
  let self := store_new test_name "started" ["Did not complete."] self in
  let self := set_current_test test_name self in
  if retrying_failed self then
    entry ← _test_status self !! test_name;
    let self := set_failure_description entry.2 self in
    Some (extend (_failure_description self) [""; "RETRY OUTPUT:"; ""] self)
  else Some (reset_failure_description self).

(* The start of a test. *)
Definition on_test_start (results : match_obj) (self : GTestLogParser) : option GTestLogParser :=
  self ← timeout_current_test self;
  start_test results self.

(* A test success line. *)
Definition on_test_ok (line : string) (results : match_obj) (self : GTestLogParser) : GTestLogParser :=
  let test_name := m_group1 results in
  let status := _StatusOfTest self test_name in
  let self :=
    if bool_decide (status ≠ "started")
    then _RecordError line ("success while in status " +:+ status) self
    else self in
  let self :=
    if retrying_failed self
    then set_test_status
           (<[test_name := ("warning", _failure_description self)]> (_test_status self)) self
    else store_new test_name "OK" [] self in
  set_current_test "" (reset_failure_description self).

(* A test failure line. *)
Definition on_test_fail (line : string) (results : match_obj) (self : GTestLogParser) : GTestLogParser :=
  let test_name := m_group1 results in
  let status := _StatusOfTest self test_name in
  let self :=
    if bool_decide (status ∉ ["started"; "failed"; "timeout"])
    then _RecordError line ("failure while in status " +:+ status) self
    else self in
  let self :=
    if bool_decide (status ∉ ["failed"; "timeout"])
    then set_test_status
           (<[test_name := ("failed", _failure_description self)]> (_test_status self)) self
    else self in
  set_current_test "" (reset_failure_description self).

(* A test timeout line. *)
Definition on_test_timeout (line : string) (results : match_obj) (self : GTestLogParser) : GTestLogParser :=
  let test_name := m_group1 results in
  let status := _StatusOfTest self test_name in
  let self :=
    if bool_decide (status ∉ ["started"; "failed"])
    then _RecordError line ("timeout while in status " +:+ status) self
    else self in
  let self :=
    store_new test_name "timeout"
      (deref self (_failure_description self) ++ ["Killed (timed out)."]) self in
  set_current_test "" (reset_failure_description self).

(* The start of a new valgrind suppression. *)
Definition on_suppression_start (line : string) (results : match_obj) (self : GTestLogParser) : GTestLogParser :=
  let suppression_hash := m_group1 results in
  let self :=
    if bool_decide (is_Some (_suppressions self !! suppression_hash))
    then _RecordError line "suppression reported more than once" self
    else self in
  let self := set_suppressions (<[suppression_hash := []]> (_suppressions self)) self in
  let self := set_current_suppression_hash suppression_hash self in
  set_current_suppression [line] self.

(* The end of a valgrind suppression. *)
Definition on_suppression_end (line : string) (self : GTestLogParser) : GTestLogParser :=
  let self := set_current_suppression (_current_suppression self ++ [line]) self in
  let self :=
    set_suppressions
      (<[_current_suppression_hash self := _current_suppression self]> (_suppressions self))
      self in
  set_current_suppression [] (set_current_suppression_hash "" self).

(* The "Failing tests:" list at the end of the output. *)
Definition on_failing_tests_list (line : string) (self : GTestLogParser) : GTestLogParser :=
  if _parsing_failures self then
    match rmatch _test_name line with
    | Some results =>
        let test_name := m_group1 results in
        let status := _StatusOfTest self test_name in
        if bool_decide (status ∈ ["not known"; "OK"])
        then store_new test_name "failed" ["Unknown error, see stdio log."] self
        else self
    | None => set_parsing_failures false self
    end
  else if String.prefix "Failing tests:" line then set_parsing_failures true self
  else self.

(* A random line. *)
Definition on_other_line (line : string) (self : GTestLogParser) : GTestLogParser :=
  if bool_decide (_current_suppression_hash self ≠ "")
  then set_current_suppression (_current_suppression self ++ [line]) self
  else
    let self :=
      if bool_decide (_current_test self ≠ "")
      then extend (_failure_description self) [line] self
      else self in
    on_failing_tests_list line self.

(* Is it a line listing the master name? *)
Definition read_master_name (line : string) (self : GTestLogParser) : GTestLogParser :=
  if bool_decide (master_name self = "") then
    match rmatch _master_name_re line with
    | Some results => set_master_name (m_group1 results) self
    | None => self
    end
  else self.

(** [_ProcessLine]: the first test that succeeds decides what the line is. *)
Definition _ProcessLine (self : GTestLogParser) (line : string) : option GTestLogParser :=
  let self := read_master_name line self in
  if rmatch _run_test_cases_line line is Some _ then on_run_test_cases_line self
  else if rmatch _test_passed line is Some _ then Some (on_test_passed self)
  else if rmatch _disabled line is Some results then Some (on_disabled results self)
  else if rmatch _flaky line is Some results then Some (on_flaky results self)
  else if rmatch _test_start line is Some results then on_test_start results self
  else if rmatch _test_ok line is Some results then Some (on_test_ok line results self)
  else if rmatch _test_fail line is Some results then Some (on_test_fail line results self)
  else if search _test_timeout line is Some results then Some (on_test_timeout line results self)
  else if rmatch _suppression_start line is Some results
       then Some (on_suppression_start line results self)
  else if (if rmatch _suppression_end line is Some _
           then bool_decide (_current_suppression_hash self ≠ "") else false)
       then Some (on_suppression_end line self)
  else if rmatch _retry_message line is Some _ then Some (set_retrying_failed true self)
  else Some (on_other_line line self).

(** The first of the gtest directives found anywhere in the line. *)
Definition gtest_regexps : list re := [_test_start; _test_ok; _test_fail; _test_passed].

Fixpoint first_search (regexps : list re) (line : string) : option match_obj :=
  match regexps with
  | [] => None
  | regexp :: regexps' =>
      match search regexp line with
      | Some m => Some m
      | None => first_search regexps' line
      end
  end.

(* line[:n] *)
Fixpoint take_str (n : nat) (s : string) : string :=
  match n, s with
  | S n', String a s' => String a (take_str n' s')
  | _, _ => EmptyString
  end.

(** [ProcessLine]: called once with each line of the test log. *)
Definition ProcessLine (self : GTestLogParser) (line : string) : option GTestLogParser :=
  let self := set_line_number (S (_line_number self)) self in
  match first_search gtest_regexps line with
  | Some m =>
      if Nat.eqb (m_start m) 0 then _ProcessLine self line
      else
        self ← _ProcessLine self (take_str (m_start m) line);
        _ProcessLine self (drop_str (m_start m) line)
  | None => _ProcessLine self line
  end.

(** Feeding a whole log, line by line. *)
Fixpoint ProcessLines (self : GTestLogParser) (lines : list string) : option GTestLogParser :=
  match lines with
  | [] => Some self
  | line :: lines' => self ← ProcessLine self line; ProcessLines self lines'
  end.

End Parser.


(** A parser never holds the name of a test it has no entry for: the
    subscript in [timeout_current_test] does not raise. *)
Definition current_test_known (self : GTestLogParser) : Prop :=
  _current_test self = "" ∨ is_Some (_test_status self !! _current_test self).

(** [sys.maxint] of a 64-bit build of the interpreter. *)
Definition maxint64 : Z := (2 ^ 63 - 1)%Z.

(** The parser after a log, from a new parser. *)
Definition run_log (maxint : Z) (lines : list string) : GTestLogParser :=
  default init (ProcessLines maxint init lines).

(** The cursor a match starts from. *)
Definition start_cursor (s : string) : cursor :=
  {| pos := 0; rest := s; grp1 := None |}.

(** The counts are written by the two banner branches only. *)
Definition same_counts (a b : GTestLogParser) : Prop :=
  _disabled_tests b = _disabled_tests a ∧ _flaky_tests b = _flaky_tests a.

(** Once a count is the string 'some' it stays so. *)
Definition keeps_some (a b : GTestLogParser) : Prop :=
  (_disabled_tests a = PyStr "some" → _disabled_tests b = PyStr "some") ∧
  (_flaky_tests a = PyStr "some" → _flaky_tests b = PyStr "some").

(** *** Reports *)

(* x.find(sub): the lowest index at which sub occurs in x, or -1 *)
Fixpoint find_from (sub x : string) (i : nat) : Z :=
  if String.prefix sub x then Z.of_nat i
  else
    match x with
    | String _ x' => find_from sub x' (S i)
    | EmptyString => (-1)%Z
    end.

Definition find (sub x : string) : Z := find_from sub x 0.

(** The items of a dict come in an order that the language leaves open.
    The model lists them in the order of [map_to_list]; what is stated
    about the lists below is about membership and repetition only. *)
Definition _TestsByStatus (self : GTestLogParser) (status : string)
    (include_fails include_flaky : bool) : list string :=
  let test_list :=
    (filter (λ x, _StatusOfTest self x.1 = status) (map_to_list (_test_status self))).*1 in
  let test_list :=
    if include_fails then test_list
    else filter (λ x, find "FAILS_" x = (-1)%Z) test_list in
  let test_list :=
    if include_flaky then test_list
    else filter (λ x, find "FLAKY_" x = (-1)%Z) test_list in
  test_list.

Definition RunningTests (self : GTestLogParser) : list string :=
  _TestsByStatus self "started" true true.

Definition ClearParsingErrors (self : GTestLogParser) : GTestLogParser :=
  set_internal_error_lines ["Cleared."] self.

(* both arguments default to False *)
Definition FailedTests (self : GTestLogParser) (include_fails include_flaky : bool)
    : list string :=
  _TestsByStatus self "failed" include_fails include_flaky ++
  _TestsByStatus self "timeout" true true ++
  _TestsByStatus self "warning" include_fails include_flaky ++
  RunningTests self.

Definition SuppressionHashes (self : GTestLogParser) : list string :=
  (map_to_list (_suppressions self)).*1.

(* self.completed and not self.FailedTests() *)
Definition CompletedWithoutFailure (self : GTestLogParser) : bool :=
  completed self && (if FailedTests self false false is [] then true else false).

(** *** Readings used in the statements *)

(** The five statuses of the comment in __init__. *)
Definition statuses : list string := ["started"; "OK"; "failed"; "timeout"; "warning"].

(** The name contains the marker. *)
Definition marked (marker name : string) : Prop := find marker name ≠ (-1)%Z.

(** What holds of an entry [(status, description)] of [_test_status]: the
    description is an object of the store, the status is one of the five, a
    test that passed has an empty description that is not the list being
    filled, and the description of a test that is running starts with the
    text it is given at its start. *)
Definition entry_ok (self : GTestLogParser) (status : string) (description : loc) : Prop :=
  description < length (heap self) ∧
  status ∈ statuses ∧
  (status = "OK" →
   deref self description = [] ∧ description ≠ _failure_description self) ∧
  (status = "started" → head (deref self description) = Some "Did not complete.").

(** The states of a parser that has read a log. *)
Definition well_formed (self : GTestLogParser) : Prop :=
  _failure_description self < length (heap self) ∧
  current_test_known self ∧
  ∀ test status description,
    _test_status self !! test = Some (status, description) →
    entry_ok self status description.

(** What [n] lines can add to the parser's lasting state: parsing errors are
    only appended, the line number grows by [n], and the master name and the
    flags [completed] and [retrying_failed], once set, stay. *)
Definition extends (n : nat) (a b : GTestLogParser) : Prop :=
  _internal_error_lines a `prefix_of` _internal_error_lines b ∧
  _line_number b = _line_number a + n ∧
  (master_name a ≠ "" → master_name b = master_name a) ∧
  (completed a = true → completed b = true) ∧
  (retrying_failed a = true → retrying_failed b = true).

(** The test of [_ProcessLine] that a line is the first to pass, with the
    match object where the branch reads it. *)
Inductive line_kind : Type :=
| IsRunTestCases
| IsPassed
| IsDisabled (results : match_obj)
| IsFlaky (results : match_obj)
| IsStart (results : match_obj)
| IsOk (results : match_obj)
| IsFail (results : match_obj)
| IsTimeout (results : match_obj)
| IsSuppressionStart (results : match_obj)
| IsSuppressionEnd
| IsRetry
| IsOther.

Definition kind_of (line : string) : line_kind :=
  if rmatch _run_test_cases_line line is Some _ then IsRunTestCases
  else if rmatch _test_passed line is Some _ then IsPassed
  else if rmatch _disabled line is Some results then IsDisabled results
  else if rmatch _flaky line is Some results then IsFlaky results
  else if rmatch _test_start line is Some results then IsStart results
  else if rmatch _test_ok line is Some results then IsOk results
  else if rmatch _test_fail line is Some results then IsFail results
  else if search _test_timeout line is Some results then IsTimeout results
  else if rmatch _suppression_start line is Some results then IsSuppressionStart results
  else if rmatch _suppression_end line is Some _ then IsSuppressionEnd
  else if rmatch _retry_message line is Some _ then IsRetry
  else IsOther.

(** [ProcessLine] hands the line to [_ProcessLine] in one piece: no gtest
    directive starts in the middle of it. *)
Definition in_one_piece (line : string) : bool :=
  match first_search gtest_regexps line with
  | Some m => Nat.eqb (m_start m) 0
  | None => true
  end.

(** An expression for a line that starts with a bracket, blanks and the word
    [String c w]: the shape of the four gtest directives. *)
Definition bracket_word (c : ascii) (w : string) (r : re) : re :=
  Cat (Chr "[") (Cat (plus space) (Cat (lit (String c w)) r)).

End GTest.

(** ** Exceptions *)
Module Py.

Inductive exn : Type :=
| AssertionError (msg : string)
| TypeError (msg : string)
| KeyError (key : string).

(** The outcome of code that may raise. *)
Inductive result (A : Type) : Type :=
| Ok (a : A)
| Raise (e : exn).

Arguments Ok {A} a.
Arguments Raise {A} e.

#[global] Instance result_ret : MRet result := λ A a, Ok a.

#[global] Instance result_bind : MBind result :=
  λ A B f m, match m with Ok a => f a | Raise e => Raise e end.

(* [f(x) for x in l]: the first exception ends the loop *)
Definition mapM {A B} (f : A → result B) : list A → result (list B) :=
  fix go (l : list A) : result (list B) :=
    match l with
    | [] => Ok []
    | x :: l' => y ← f x; rest ← go l'; Ok (y :: rest)
    end.

(* [(k, f(v)) for k, v in d.iteritems()] *)
Definition mapM_values {A B} (f : A → result B)
    : list (string * A) → result (list (string * B)) :=
  mapM (λ kv, v ← f kv.2; Ok (kv.1, v)).

(* assert cond, msg *)
Definition assert (cond : bool) (msg : string) : result unit :=
  if cond then Ok () else Raise (AssertionError msg).

(** Dicts keyed by strings, as association lists without repeated keys.
    The order of the pairs is the insertion order, which only an OrderedDict
    shows. *)
Fixpoint dict_get {A} (k : string) (items : list (string * A)) : option A :=
  match items with
  | [] => None
  | (k', v) :: items' => if bool_decide (k' = k) then Some v else dict_get k items'
  end.

(* k in d *)
Definition dict_has {A} (k : string) (items : list (string * A)) : bool :=
  bool_decide (is_Some (dict_get k items)).

(* d[k] = v: an existing key keeps its place, a new key goes last *)
Fixpoint dict_set {A} (k : string) (v : A) (items : list (string * A)) : list (string * A) :=
  match items with
  | [] => [(k, v)]
  | (k', v') :: items' =>
      if bool_decide (k' = k) then (k, v) :: items' else (k', v') :: dict_set k v items'
  end.

(* del d[k], for a key that is there; d.pop(k, None) *)
Definition dict_del {A} (k : string) (items : list (string * A)) : list (string * A) :=
  filter (λ kv, kv.1 ≠ k) items.

(* d.update(other) *)
Definition dict_update {A} (other d : list (string * A)) : list (string * A) :=
  foldl (λ d kv, dict_set kv.1 kv.2 d) d other.

End Py.

(** ** The property bag (build/scripts/slave/recipe_modules/properties/api.py) *)
Module Properties.
Import Py.

(** The values a property can hold: what json.loads returns ([PNone] to
    [PDict]), what [freeze] makes of it, and any other object. *)
Inductive pyobj : Type :=
| PNone
| PBool (b : bool)
| PInt (n : Z)
| PStr (s : string)
| PList (items : list pyobj)
| PDict (items : list (string * pyobj))
| PTuple (items : list pyobj)
| PImmutibleMapping (items : list (string * pyobj))
| PObject (hashable : bool) (repr : string).

(** [isinstance(v, collections.Hashable)]: the class of [v] defines a
    __hash__ that is not None.  [dict] sets it to None and ImmutibleMapping
    defines none of its own; a tuple has one whatever it holds. *)
Definition Hashable (v : pyobj) : bool :=
  match v with
  | PNone | PBool _ | PInt _ | PStr _ | PTuple _ => true
  | PList _ | PDict _ | PImmutibleMapping _ => false
  | PObject hashable _ => hashable
  end.

(* ImmutibleMapping.__init__ *)
Definition ImmutibleMapping (data : list (string * pyobj)) : result pyobj :=
  _ ← assert (forallb (λ kv, Hashable kv.2) data)
         "all(isinstance(v, collections.Hashable) for v in self.itervalues())";
  Ok (PImmutibleMapping data).






Fixpoint freeze (obj : pyobj) : result pyobj :=
  match obj with
  | PDict items | PImmutibleMapping items =>
      data ← mapM_values freeze items; ImmutibleMapping data
  | PList items =>
      frozen ← mapM freeze items; Ok (PTuple frozen)
  | _ =>
      if Hashable obj then Ok obj
      else Raise (TypeError "Unsupported value")
  end.



(** class PropertiesApi(recipe_api.RecipeApi, collections.Mapping) *)
Record PropertiesApi : Type := { _properties : pyobj }.

(* __init__ *)
Definition PropertiesApi_init (properties : list (string * pyobj)) : result PropertiesApi :=
  frozen ← freeze (PDict properties);
  Ok {| _properties := frozen |}.

Definition mapping_items (obj : pyobj) : list (string * pyobj) :=
  match obj with
  | PDict items | PImmutibleMapping items => items
  | _ => []
  end.

(* __getitem__ *)
Definition getitem (self : PropertiesApi) (key : string) : result pyobj :=
  match dict_get key (mapping_items (_properties self)) with
  | Some v => Ok v
  | None => Raise (KeyError key)
  end.

(* __len__ *)
Definition len (self : PropertiesApi) : nat := length (mapping_items (_properties self)).

(* __iter__ *)
Definition iter (self : PropertiesApi) : list string := (mapping_items (_properties self)).*1.



(** *** Shapes of values *)

(** The shape of a frozen value: no list and no dict is left in it, at any
    depth; in their places are tuples and ImmutibleMappings. *)
Fixpoint frozen (v : pyobj) : bool :=
  match v with
  | PNone | PBool _ | PInt _ | PStr _ => true
  | PList _ | PDict _ => false
  | PTuple items => forallb frozen items
  | PImmutibleMapping items => forallb (λ kv, frozen kv.2) items
  | PObject hashable _ => hashable
  end.



Definition is_dict (v : pyobj) : bool :=
  match v with PDict _ | PImmutibleMapping _ => true | _ => false end.



End Properties.

(** ** The step engine (build/scripts/slave/annotated_run.py) *)
Module AnnotatedRun.
Import Py.

(** *** Objects shared by reference

    A presentation's [logs] and [perf_logs] are OrderedDict objects whose
    values are list objects; callbacks get references to them.  The store
    maps a reference to the object it denotes. *)
Abbreviation loc := nat (only parsing).

Inductive obj : Type :=
| ODict (items : list (string * loc))   (* an OrderedDict: name -> list object *)
| OList (lines : list string).          (* a list of lines *)

Abbreviation store := (list obj) (only parsing).

Definition alloc (o : obj) (σ : store) : loc * store := (length σ, σ ++ [o]).

Definition items_of (σ : store) (d : loc) : list (string * loc) :=
  match σ !! d with Some (ODict items) => items | _ => [] end.

Definition list_lines (σ : store) (l : loc) : list string :=
  match σ !! l with Some (OList lines) => lines | _ => [] end.

(** What a reader sees through the reference [d]: the names in order, each
    with its lines. *)
Definition snapshot (σ : store) (d : loc) : list (string * list string) :=
  (λ kv, (kv.1, list_lines σ kv.2)) <$> items_of σ d.

(** *** What a holder of a reference to a logs dict can do with it *)
Inductive mutation : Type :=
| SetItem (name : string) (lines : list string)   (* d[name] = [lines...] *)
| Extend (name : string) (lines : list string)    (* d.setdefault(name, []).extend(lines) *)
| DelItem (name : string)                         (* d.pop(name, None) *)
| Clear.                                          (* d.clear() *)

Definition mutate (d : loc) (m : mutation) (σ : store) : store :=
  match m with
  | SetItem name lines =>
      let '(l, σ) := alloc (OList lines) σ in
      <[d := ODict (dict_set name l (items_of σ d))]> σ
  | Extend name lines =>
      match dict_get name (items_of σ d) with
      | Some l => <[l := OList (list_lines σ l ++ lines)]> σ
      | None =>
          let '(l, σ) := alloc (OList lines) σ in
          <[d := ODict (dict_set name l (items_of σ d))]> σ
      end
  | DelItem name => <[d := ODict (dict_del name (items_of σ d))]> σ
  | Clear => <[d := ODict []]> σ
  end.

Definition mutate_all (d : loc) (ms : list mutation) (σ : store) : store :=
  foldl (λ σ m, mutate d m σ) σ ms.

(** *** copy.deepcopy of a logs dict

    Every list object reachable from the dict is copied once ([memo] maps
    an object to its copy, as deepcopy's memo does); the strings are
    immutable and shared. *)
Fixpoint deepcopy_items (items : list (string * loc)) (memo : list (loc * loc))
    (σ : store) : list (string * loc) * store :=
  match items with
  | [] => ([], σ)
  | (k, l) :: items' =>
      match list_find (λ p, p.1 = l) memo with
      | Some (_, (_, l')) =>
          let '(copied, σ) := deepcopy_items items' memo σ in ((k, l') :: copied, σ)
      | None =>
          let '(l', σ) := alloc (OList (list_lines σ l)) σ in
          let '(copied, σ) := deepcopy_items items' ((l, l') :: memo) σ in
          ((k, l') :: copied, σ)
      end
  end.

Definition deepcopy (d : loc) (σ : store) : loc * store :=
  let '(copied, σ) := deepcopy_items (items_of σ d) [] σ in
  alloc (ODict copied) σ.

(** *** class StepPresentation *)

Definition STATUSES : list string := ["SUCCESS"; "FAILURE"; "WARNING"; "EXCEPTION"].

Record StepPresentation : Type := {
  _finalized : bool;
  _logs : loc;
  _perf_logs : loc;
  _status : option string;
  _step_summary_text : option string;
  _step_text : option string
}.

(* __init__ *)
Definition StepPresentation_init (σ : store) : StepPresentation * store :=
  let '(logs, σ) := alloc (ODict []) σ in
  let '(perf_logs, σ) := alloc (ODict []) σ in
  ({| _finalized := false; _logs := logs; _perf_logs := perf_logs;
      _status := None; _step_summary_text := None; _step_text := None |}, σ).

Definition status (self : StepPresentation) : option string := _status self.

(* @status.setter *)
Definition set_status (val : string) (self : StepPresentation) : result StepPresentation :=
  _ ← assert (negb (_finalized self)) "not self._finalized";
  _ ← assert (bool_decide (val ∈ STATUSES)) "val in self.STATUSES";
  Ok {| _finalized := _finalized self; _logs := _logs self;
        _perf_logs := _perf_logs self; _status := Some val;
        _step_summary_text := _step_summary_text self;
        _step_text := _step_text self |}.

Definition step_text (self : StepPresentation) : option string := _step_text self.

(* @step_text.setter *)
Definition set_step_text (val : string) (self : StepPresentation) : result StepPresentation :=
  _ ← assert (negb (_finalized self)) "not self._finalized";
  Ok {| _finalized := _finalized self; _logs := _logs self;
        _perf_logs := _perf_logs self; _status := _status self;
        _step_summary_text := _step_summary_text self;
        _step_text := Some val |}.

Definition step_summary_text (self : StepPresentation) : option string :=
  _step_summary_text self.

(* @step_summary_text.setter *)
Definition set_step_summary_text (val : string) (self : StepPresentation) : result StepPresentation :=
  _ ← assert (negb (_finalized self)) "not self._finalized";
  Ok {| _finalized := _finalized self; _logs := _logs self;
        _perf_logs := _perf_logs self; _status := _status self;
        _step_summary_text := Some val;
        _step_text := _step_text self |}.

(* the logs property: the dict itself, or a deep copy once finalized *)
Definition logs (self : StepPresentation) (σ : store) : loc * store :=
  if _finalized self then deepcopy (_logs self) σ else (_logs self, σ).

(* the perf_logs property *)
Definition perf_logs (self : StepPresentation) (σ : store) : loc * store :=
  if _finalized self then deepcopy (_perf_logs self) σ else (_perf_logs self, σ).

(** What the annotator is told about a step (common/annotator.py is not
    among the sources: its calls are kept as a trace). *)
Inductive annotation : Type :=
| step_cursor (name : string)
| emit (line : string)
| ann_step_text (text : string)
| ann_step_summary_text (text : string)
| write_log_lines (name : string) (lines : list string) (perf : bool)
| step_warnings
| step_failure
| step_exception.

(* truth value of an optional string: None and '' are false *)
Definition truthy (s : option string) : bool :=
  match s with Some s => negb (String.eqb s "") | None => false end.

Definition finalize (self : StepPresentation) (σ : store)
    : StepPresentation * store * list annotation :=
  let self := {| _finalized := true; _logs := _logs self;
                 _perf_logs := _perf_logs self; _status := _status self;
                 _step_summary_text := _step_summary_text self;
                 _step_text := _step_text self |} in
  let text := if truthy (step_text self)
              then [ann_step_text (default "" (step_text self))] else [] in
  let summary := if truthy (step_summary_text self)
                 then [ann_step_summary_text (default "" (step_summary_text self))]
                 else [] in
  let '(d, σ) := logs self σ in
  let log_lines := (λ kv, write_log_lines kv.1 kv.2 false) <$> snapshot σ d in
  let '(d, σ) := perf_logs self σ in
  let perf_lines := (λ kv, write_log_lines kv.1 kv.2 true) <$> snapshot σ d in
  let verdict :=
    match status self with
    | Some "WARNING" => [step_warnings]
    | Some "FAILURE" => [step_failure]
    | Some "EXCEPTION" => [step_exception]
    | _ => []
    end in
  (self, σ, text ++ summary ++ log_lines ++ perf_lines ++ verdict).

(** What a callback does with the step result it is given: it writes the
    presentation's status and texts and changes its logs. *)
Inductive action : Type :=
| SetStatus (val : string)
| SetStepText (val : string)
| SetStepSummaryText (val : string)
| Logs (m : mutation)
| PerfLogs (m : mutation).

Definition act (a : action) (p : StepPresentation) (σ : store)
    : result (StepPresentation * store) :=
  match a with
  | SetStatus val => p ← set_status val p; Ok (p, σ)
  | SetStepText val => p ← set_step_text val p; Ok (p, σ)
  | SetStepSummaryText val => p ← set_step_summary_text val p; Ok (p, σ)
  | Logs m => let '(d, σ) := logs p σ in Ok (p, mutate d m σ)
  | PerfLogs m => let '(d, σ) := perf_logs p σ in Ok (p, mutate d m σ)
  end.

Fixpoint act_all (acts : list action) (p : StepPresentation) (σ : store)
    : result (StepPresentation * store) :=
  match acts with
  | [] => Ok (p, σ)
  | a :: acts' => '(p, σ) ← act a p σ; act_all acts' p σ
  end.

(** *** Steps

    A step is a dict; the keys that annotated_run.py reads or writes are the
    fields of [step_dict], the remaining ones ([extra]) are passed to the
    annotator unread.  [followup_fn] is popped before the dict is stored in
    a StepData, so it is kept beside the dict. *)
(** The test data of one recipe module for one step: a dict. *)
Definition datum : Type := list (string * string).

(** Modelled from the spec: a Placeholder (slave/recipe_api.py is not among
    the sources) is owned by a recipe module; [render] turns it into
    command-line tokens, and [step_finished] post-processes the
    presentation and writes attributes into the accumulator object of its
    module. *)
Record Placeholder : Type := {
  (* __module__.split('.')[-2] *)
  api_name : string;
  (* render(test_data) *)
  render : option datum → list string;
  (* step_finished(presentation, result_data, test_data) *)
  step_finished : option datum → list action * list (string * string)
}.

Inductive cmd_item : Type :=
| Arg (s : string)
| Hole (p : Placeholder).

Record step_dict : Type := {
  name : string;
  cmd : list cmd_item;
  seed_steps : option (list string);
  followup_annotations : option (list string);
  extra : list (string * string)
}.

Definition with_seed_steps (v : option (list string)) (s : step_dict) : step_dict :=
  {| name := name s; cmd := cmd s; seed_steps := v;
     followup_annotations := followup_annotations s; extra := extra s |}.

Definition with_cmd (v : list cmd_item) (s : step_dict) : step_dict :=
  {| name := name s; cmd := v; seed_steps := seed_steps s;
     followup_annotations := followup_annotations s; extra := extra s |}.

(** *** class StepData *)
Record StepData : Type := {
  _retcode : Z;
  _step : step_dict;
  _presentation : StepPresentation;
  (* the attributes call_placeholders sets: module name -> accumulator *)
  additions : list (string * list (string * string))
}.

Definition retcode (self : StepData) : Z := _retcode self.
Definition presentation (self : StepData) : StepPresentation := _presentation self.

(** A step as the recipe yields it: the dict and its 'followup_fn'. *)
Record step : Type := {
  fields : step_dict;
  followup_fn : option (StepData → list action)
}.

(** *** The step sequencer *)

(** An item of a sequence: a step, or a sequence again. *)
Inductive step_tree : Type :=
| Leaf (s : step)
| Node (items : list step_tree).

(** What a recipe hands over, or a generator yields: a step, a sequence, a
    generator (given by the items it yields, in order), or something else. *)
Inductive source : Type :=
| OneStep (s : step)
| Sequence (items : list step_tree)
| Generator (yields : list source)
| Other.

(* what the loop of [flattened] yields for one item *)
Fixpoint flattened_item (item : step_tree) : list step :=
  match item with
  | Node sub => flat_map flattened_item sub   (* for sub_item in flattened(item) *)
  | Leaf s => [s]                             (* yield item *)
  end.

Definition flattened (sequence : list step_tree) : list step :=
  flat_map flattened_item sequence.

Definition step_with_seed_steps (v : list string) (s : step) : step :=
  {| fields := with_seed_steps (Some v) (fields s); followup_fn := followup_fn s |}.

(* the iterations of fixup_seed_steps after the first:
   seed_steps.append(step['name']) *)
Fixpoint append_names (seed_steps : list string) (sequence : list step) : list string :=
  match sequence with
  | [] => seed_steps
  | s :: sequence' => append_names (seed_steps ++ [name (fields s)]) sequence'
  end.

(** [fixup_seed_steps]: the first step is tested for 'seed_steps'; when it
    has none it gets the list object to which the name of every step of the
    sequence is appended. *)
Definition fixup_seed_steps (sequence : list step) : list step :=
  match sequence with
  | [] => []
  | s :: sequence' =>
      if seed_steps (fields s) is Some _ then sequence
      else step_with_seed_steps (append_names [name (fields s)] sequence') s :: sequence'
  end.

(** [ensure_sequence_of_steps] is a generator: the steps it yields, and the
    exception that ends it when an item is neither a step, a sequence nor a
    generator. *)
Fixpoint ensure_sequence_of_steps (step_or_steps : source) : list step * option exn :=
  match step_or_steps with
  | OneStep s => ([s], None)
  | Sequence items => (fixup_seed_steps (flattened items), None)
  | Generator yields =>
      (fix go (yields : list source) : list step * option exn :=
         match yields with
         | [] => ([], None)
         | i :: yields' =>
             match ensure_sequence_of_steps i with
             | (steps, Some e) => (steps, Some e)
             | (steps, None) => let '(steps', e) := go yields' in (steps ++ steps', e)
             end
         end) yields
  | Other => ([], Some (AssertionError "Item is not a sequence or a step"))
  end.

(** The traversal the specification names, written with an explicit stack:
    visit the first item of the stack; a step is emitted, a sequence is
    replaced by its items (the leftmost first). *)
Fixpoint tree_size (t : step_tree) : nat :=
  match t with
  | Leaf _ => 1
  | Node items => S (list_sum (tree_size <$> items))
  end.

Fixpoint depth_first (fuel : nat) (stack : list step_tree) : list step :=
  match fuel with
  | O => []
  | S fuel' =>
      match stack with
      | [] => []
      | Leaf s :: stack' => s :: depth_first fuel' stack'
      | Node items :: stack' => depth_first fuel' (items ++ stack')
      end
  end.

Definition depth_first_order (sequence : list step_tree) : list step :=
  depth_first (S (list_sum (tree_size <$> sequence))) sequence.

Fixpoint source_leaves (src : source) : list step :=
  match src with
  | OneStep s => [s]
  | Sequence items => depth_first_order items
  | Generator yields => flat_map source_leaves yields
  | Other => []
  end.

(** A source all of whose items are steps, sequences or generators. *)
Fixpoint well_shaped (src : source) : bool :=
  match src with
  | OneStep _ | Sequence _ => true
  | Generator yields => forallb well_shaped yields
  | Other => false
  end.

(** *** Placeholders *)

(** The test data of a step: '$R' and the data of each recipe module. *)
Record test_item : Type := {
  R : option Z;
  api_data : list (string * datum)
}.

(* None if test_data is None else test_data.get(api_name, {}) *)
Definition api_test_data (test_data : option test_item) (api : string) : option datum :=
  td ← test_data; Some (default [] (dict_get api (api_data td))).

Fixpoint render_cmd (cmd : list cmd_item) (test_data : option test_item)
    (placeholders : list (string * list Placeholder))
    : list string * list (string * list Placeholder) :=
  match cmd with
  | [] => ([], placeholders)
  | item :: cmd' =>
      match item with
      | Hole p =>
          let tdata := api_test_data test_data (api_name p) in
          let placeholders :=
            dict_set (api_name p)
              (default [] (dict_get (api_name p) placeholders) ++ [p]) placeholders in
          let '(new_cmd, placeholders) := render_cmd cmd' test_data placeholders in
          (render p tdata ++ new_cmd, placeholders)
      | Arg a =>
          let '(new_cmd, placeholders) := render_cmd cmd' test_data placeholders in
          (a :: new_cmd, placeholders)
      end
  end.

(** [render_step]: the step with its command rendered, and the placeholders
    found, by recipe module. *)
Definition render_step (s : step_dict) (test_data : option test_item)
    : step_dict * list (string * list Placeholder) :=
  let '(new_cmd, placeholders) := render_cmd (cmd s) test_data [] in
  (with_cmd (Arg <$> new_cmd) s, placeholders).

(* for placeholder in items: placeholder.step_finished(...) *)
Fixpoint finish_placeholders (items : list Placeholder) (test_datum : option datum)
    (p : StepPresentation) (σ : store) (result_data : list (string * string))
    : result (StepPresentation * store * list (string * string)) :=
  match items with
  | [] => Ok (p, σ, result_data)
  | placeholder :: items' =>
      let '(acts, attrs) := step_finished placeholder test_datum in
      '(p, σ) ← act_all acts p σ;
      finish_placeholders items' test_datum p σ (result_data ++ attrs)
  end.

Fixpoint call_placeholders (placeholders : list (string * list Placeholder))
    (test_data : option test_item) (p : StepPresentation) (σ : store)
    : result (StepPresentation * store * list (string * list (string * string))) :=
  match placeholders with
  | [] => Ok (p, σ, [])
  | (api, items) :: placeholders' =>
      '(p, σ, obj) ← finish_placeholders items (api_test_data test_data api) p σ [];
      '(p, σ, additions) ← call_placeholders placeholders' test_data p σ;
      Ok (p, σ, (api, obj) :: additions)
  end.

(** *** step_callback and run_steps *)

(** What a run shares: the objects, the step history (an OrderedDict) and
    what the annotator was told. *)
Record world : Type := {
  objects : store;
  step_history : list (string * StepData);
  trace : list annotation
}.

(* '%d' % n *)
Definition str_of_Z (n : Z) : string := NilEmpty.string_of_int (Z.to_int n).

Definition dquote : string := String "034"%char "".

Section RunSteps.

(** common/annotator.py is not among the sources.  Of [annotator.run_step]
    the model keeps that it runs the command of the step and calls the
    callback with its return code; [update_build_failure] and the text a
    step writes into its stream are left open. *)
Variable run_command : step_dict → Z.
Variable update_build_failure : bool → Z → step_dict → bool.
Variable stream_lines : list annotation → list string.

(** [placeholders.iteritems()]: the pairs of the dict that [render_step]
    returns, in the order in which Python 2 iterates over a dict, which is
    the order of its hash table and not the order of insertion. *)
Variable iteritems : list (string * list Placeholder) → list (string * list Placeholder).

(** The function [_inner] that [step_callback] returns.  The history holds
    the StepData object itself, so it shows what the callbacks and
    [finalize] do to it afterwards: the entry is written again at the end.
    [placeholders] is the dict as [call_placeholders] iterates over it. *)
Definition step_callback (s : step_dict) (followup : option (StepData → list action))
    (placeholders : list (string * list Placeholder)) (test_data_item : option test_item)
    (retcode : Z) (w : world) : result (StepData * world) :=
  (* step_result = StepData(step, retcode) *)
  let '(p, σ) := StepPresentation_init (objects w) in
  p ← (if bool_decide (retcode > 0)%Z then set_status "FAILURE" p else Ok p);
  let step_result :=
    {| _retcode := retcode; _step := s; _presentation := p; additions := [] |} in
  let history := dict_set (name s) step_result (step_history w) in
  let told :=
    trace w ++ [step_cursor (name s)] ++
    (if test_data_item is None
     then [emit ("step returned non-zero exit code: " +:+ str_of_Z retcode)]
     else []) in
  '(p, σ, added) ← call_placeholders placeholders test_data_item p σ;
  let step_result :=
    {| _retcode := retcode; _step := s; _presentation := p; additions := added |} in
  '(p, σ) ← (if followup is Some f then act_all (f step_result) p σ else Ok (p, σ));
  let '(p, σ, told') := finalize p σ in
  let step_result :=
    {| _retcode := retcode; _step := s; _presentation := p; additions := added |} in
  Ok (step_result,
      {| objects := σ;
         step_history := dict_set (name s) step_result history;
         trace := told ++ told' |}).

Record run_state : Type := {
  shared : world;
  failed : bool;
  (* test_data, None outside of test mode: what is not popped yet *)
  pending_test_data : option (list (string * test_item))
}.

(** The body of the loop of [run_steps], for one step. *)
Definition run_step (s : step) (st : run_state) : result run_state :=
  let w := shared st in
  (* test_data.pop(step['name'], {}) if test_mode else None *)
  let test_data_item :=
    td ← pending_test_data st;
    Some (default {| R := None; api_data := [] |} (dict_get (name (fields s)) td)) in
  let test_data' := dict_del (name (fields s)) <$> pending_test_data st in
  let '(rendered, placeholders) := render_step (fields s) test_data_item in
  _ ← assert (negb (dict_has (name rendered) (step_history w)))
         ("Step " +:+ dquote +:+ name rendered +:+ dquote +:+ " is already in step_history!");
  let callback :=
    step_callback rendered (followup_fn s) (iteritems placeholders) test_data_item in
  '(step_result, w') ←
    match test_data_item with
    | None => callback (run_command rendered) w
    | Some item =>
        '(step_result, w') ← callback (default 0%Z (R item)) w;
        let lines :=
          filter (λ l, l ≠ "") (stream_lines (drop (length (trace w)) (trace w'))) in
        if bool_decide (lines = []) then Ok (step_result, w')
        else
          (* step_result._step['~followup_annotations'] = lines *)
          let step_result :=
            {| _retcode := _retcode step_result;
               _step := {| name := name (_step step_result);
                           cmd := cmd (_step step_result);
                           seed_steps := seed_steps (_step step_result);
                           followup_annotations := Some lines;
                           extra := extra (_step step_result) |};
               _presentation := _presentation step_result;
               additions := additions step_result |} in
          Ok (step_result,
              {| objects := objects w';
                 step_history := dict_set (name rendered) step_result (step_history w');
                 trace := trace w' |})
    end;
  Ok {| shared := w';
        failed := update_build_failure (failed st) (retcode step_result) rendered;
        pending_test_data := test_data' |}.

Fixpoint run_loop (steps : list step) (st : run_state) : result run_state :=
  match steps with
  | [] => Ok st
  | s :: steps' => st ← run_step s st; run_loop steps' st
  end.

End RunSteps.

(** *** run_steps *)

Import Properties.

(* the rewrite of 'blamelist' at the start of run_steps *)
Definition fix_blamelist (build_properties : list (string * pyobj)) : list (string * pyobj) :=
  if dict_has "blamelist_real" build_properties && dict_has "blamelist" build_properties
  then dict_del "blamelist_real"
         (dict_set "blamelist"
            (default PNone (dict_get "blamelist_real" build_properties))
            build_properties)
  else build_properties.

(* properties = factory_properties.copy(); properties.update(build_properties) *)
Definition merged_properties (build_properties factory_properties : list (string * pyobj))
    : list (string * pyobj) :=
  dict_update (fix_blamelist build_properties) factory_properties.

Definition is_generator (src : source) : bool :=
  match src with Generator _ => true | _ => false end.

Section RunStepsTop.

Variable run_command : step_dict → Z.
Variable update_build_failure : bool → Z → step_dict → bool.
Variable stream_lines : list annotation → list string.
Variable iteritems : list (string * list Placeholder) → list (string * list Placeholder).

(** The lookup of the recipe (in the recipe modules or in the recipe
    directories, which are not among the sources): [None] when there is no
    such recipe, else its GenSteps.  slave/recipe_api.py is not among the
    sources either: of [api(...)] the model keeps that it hands the
    properties to [PropertiesApi]. *)
Variable find_recipe : string → option (PropertiesApi → source).

(** [run_steps]: the status code and the steps that ran. *)
Definition run_steps (build_properties factory_properties : list (string * pyobj))
    (test_data : option (list (string * test_item)))
    : result (Z * option (list (string * StepData))) :=
  _ ← assert (dict_has "recipe" factory_properties) "'recipe' in factory_properties";
  match dict_get "recipe" factory_properties with
  | Some (PStr recipe) =>
      match find_recipe recipe with
      | None => Ok (2%Z, None)
      | Some GenSteps =>
          let properties := merged_properties build_properties factory_properties in
          api ← PropertiesApi_init properties;
          let steps := GenSteps api in
          _ ← assert (is_generator steps) "inspect.isgenerator(steps)";
          let '(sequence, stop) := ensure_sequence_of_steps steps in
          st ← run_loop run_command update_build_failure stream_lines iteritems sequence
                 {| shared := {| objects := []; step_history := []; trace := [] |};
                    failed := false;
                    pending_test_data := test_data |};
          match stop with
          | Some e => Raise e
          | None =>
              _ ← assert (if default [] (pending_test_data st) is [] then true else false)
                     "Unconsumed test data!";
              Ok (if failed st then 1%Z else 0%Z, Some (step_history (shared st)))
          end
      end
  | _ => Raise (TypeError "argument of type is not iterable")
  end.

End RunStepsTop.

(** Modelled from the spec: the queries of the step history ("last
    inserted" and "nth inserted"; the module docstring names them last_step
    and nth_step, their code is in slave/recipe_api.py, which is not among
    the sources).  The n-th step counts from 0. *)
Definition last_step (history : list (string * StepData)) : option StepData :=
  snd <$> last history.

Definition nth_step (n : nat) (history : list (string * StepData)) : option StepData :=
  snd <$> history !! n.

(** *** Invariants and readings used in the statements *)

(** The reference [d] denotes a dict whose values are list objects. *)
Definition valid_dict (σ : store) (d : loc) : Prop :=
  (∃ items, σ !! d = Some (ODict items)) ∧
  ∀ k l, (k, l) ∈ items_of σ d → ∃ lines, σ !! l = Some (OList lines).

Definition valid_presentation (σ : store) (p : StepPresentation) : Prop :=
  valid_dict σ (_logs p) ∧ valid_dict σ (_perf_logs p).

(** The first [n] objects of [σ] are the same in [σ']. *)
Definition prefix_kept (n : nat) (σ σ' : store) : Prop :=
  ∀ i, i < n → σ' !! i = σ !! i.

(** The dict at [d] and the lists it holds were all made after the first
    [n] objects. *)
Definition made_after (n : nat) (σ : store) (d : loc) : Prop :=
  n ≤ d ∧ valid_dict σ d ∧ ∀ k l, (k, l) ∈ items_of σ d → n ≤ l.

(** The status [step_callback] gives a new step result for its return code. *)
Definition default_status (retcode : Z) : option string :=
  if bool_decide (retcode > 0)%Z then Some "FAILURE" else None.

(** The status a presentation ends with when [acts] run on it, by the last
    action that sets one. *)
Definition status_after (start : option string) (acts : list action) : option string :=
  foldl (λ st a, match a with SetStatus val => Some val | _ => st end) start acts.

(** The actions of the placeholders of a step, in the order in which
    [call_placeholders] runs them. *)
Definition placeholder_actions (placeholders : list (string * list Placeholder))
    (test_data : option test_item) : list action :=
  '(api, items) ← placeholders;
  placeholder ← items;
  (step_finished placeholder (api_test_data test_data api)).1.

(** A step without its 'seed_steps'. *)
Definition untagged (s : step) : step :=
  {| fields := with_seed_steps None (fields s); followup_fn := followup_fn s |}.

Definition step_name (s : step) : string := name (fields s).

(** The state of a run before its first step. *)
Definition new_world : world := {| objects := []; step_history := []; trace := [] |}.

Definition new_run (test_data : option (list (string * test_item))) : run_state :=
  {| shared := new_world; failed := false; pending_test_data := test_data |}.

(** A step that runs one command and has no follow-up callback. *)
Definition command_step (n command : string) : step :=
  {| fields := {| name := n; cmd := [Arg command]; seed_steps := None;
                  followup_annotations := None; extra := [] |};
     followup_fn := None |}.

(** A step named 'sync' whose command holds a placeholder; the placeholder
    and the follow-up callback set a status that is none, which raises. *)
Definition second_sync : step :=
  {| fields := {| name := "sync";
                  cmd := [Arg "gclient";
                          Hole {| api_name := "json"; render := λ _, ["/tmp/out.json"];
                                  step_finished := λ _, ([SetStatus "BOGUS"], []) |}];
                  seed_steps := None; followup_annotations := None; extra := [] |};
     followup_fn := Some (λ _, [SetStatus "BOGUS"]) |}.

(** A step with no follow-up callback and no placeholder in its command. *)
Definition plain (s : step) : Prop :=
  followup_fn s = None ∧ ∀ item, item ∈ cmd (fields s) → ∃ a, item = Arg a.

(** *** UpdateScripts and shell_main

    [os.environ] is a dict of strings.  What the two functions run is given
    by its return code: gclient, by the name of its executable; the
    interpreter started again on the script, and [main], by the environment
    they run in. *)
Section Shell.

(* sys.platform *)
Variable platform : string.
(* subprocess.call([gclient_path, 'sync', '--force'], cwd=build_root) *)
Variable gclient_sync : string → Z.
(* subprocess.call([sys.executable] + argv) *)
Variable call_script : gmap string string → Z.
(* main(argv) *)
Variable main : gmap string string → Z.



End Shell.

(** The placeholders of a command, in the order of the command. *)
Definition holes (cmd : list cmd_item) : list Placeholder :=
  flat_map (λ item, match item with Hole p => [p] | Arg _ => [] end) cmd.

(** What an item of a command becomes when the step is rendered. *)
Definition rendered_item (test_data : option test_item) (item : cmd_item) : list string :=
  match item with
  | Arg a => [a]
  | Hole p => render p (api_test_data test_data (api_name p))
  end.

End AnnotatedRun.

(** * Facts about the matcher *)
Module ReFacts.
Import Re.

(** [r] can only match where a run of [p] has ended. *)
Definition guard (p : ascii → bool) (r : re) : Prop :=
  ∀ y, run r y ≠ [] → stops p (rest y).

Lemma skip_cons p x a s :
  skip p x (String a s) = if p a then skip p (advance x s) s else x.
Proof. done. Qed.

Lemma many_head p x s : head (many p x s) = Some (skip p x s).
Proof.
  revert x. induction s as [|a s IH]; intros x; simpl; [done|].
  destruct (p a); [|done].
  specialize (IH (advance x s)).
  destruct (many p (advance x s) s); simpl in *; [done|exact IH].
Qed.

Lemma many_stops p x s y :
  rest x = s → y ∈ many p x s → stops p (rest y) → y = skip p x s.
Proof.
  revert x. induction s as [|a s IH]; intros x Hx Hy Hstop; simpl in *.
  - by apply list_elem_of_singleton in Hy.
  - destruct (p a) eqn:Hp.
    + apply elem_of_app in Hy as [Hy|Hy].
      * by apply IH.
      * apply list_elem_of_singleton in Hy. subst y.
        rewrite Hx in Hstop. simpl in Hstop. congruence.
    + by apply list_elem_of_singleton in Hy.
Qed.

Lemma nonempty_elem {A} (l : list A) : l ≠ [] ↔ ∃ x, x ∈ l.
Proof.
  destruct l as [|a l]; split; try done.
  - intros [x Hx]. by apply elem_of_nil in Hx.
  - intros _. exists a. left.
Qed.

Lemma nonempty_cat r1 r2 x :
  run (Cat r1 r2) x ≠ [] ↔ ∃ y, y ∈ run r1 x ∧ run r2 y ≠ [].
Proof.
  rewrite nonempty_elem. simpl. split.
  - intros [z Hz]. apply list_elem_of_bind in Hz as (y & Hz & Hy).
    exists y. split; [done|]. apply nonempty_elem. eauto.
  - intros (y & Hy & Hz). apply nonempty_elem in Hz as [z Hz].
    exists z. apply list_elem_of_bind. eauto.
Qed.

Lemma nonempty_cat_chr c r x :
  run (Cat (Chr c) r) x ≠ [] →
  ∃ s', rest x = String c s' ∧ run r (advance x s') ≠ [].
Proof.
  rewrite nonempty_cat. intros (y & Hy & Hr). simpl in Hy.
  destruct (rest x) as [|a s'] eqn:Hx; [by apply elem_of_nil in Hy|].
  destruct (Ascii.eqb_spec a c) as [->|]; [|by apply elem_of_nil in Hy].
  apply list_elem_of_singleton in Hy. subst y. eauto.
Qed.

Lemma nonempty_cat_cls p r x :
  run (Cat (Cls p) r) x ≠ [] →
  ∃ a s', rest x = String a s' ∧ p a = true ∧ run r (advance x s') ≠ [].
Proof.
  rewrite nonempty_cat. intros (y & Hy & Hr). simpl in Hy.
  destruct (rest x) as [|a s'] eqn:Hx; [by apply elem_of_nil in Hy|].
  destruct (p a) eqn:Hp; [|by apply elem_of_nil in Hy].
  apply list_elem_of_singleton in Hy. subst y. eauto 6.
Qed.

Lemma nonempty_cat_many p r x :
  guard p r → run (Cat (Many p) r) x ≠ [] → run r (skip p x (rest x)) ≠ [].
Proof.
  intros Hg. rewrite nonempty_cat. intros (y & Hy & Hr). simpl in Hy.
  by rewrite <-(many_stops p x (rest x) y) by auto.
Qed.

Lemma nonempty_cat_plus p r x :
  guard p r → run (Cat (plus p) r) x ≠ [] →
  ∃ a s', rest x = String a s' ∧ p a = true ∧
          run r (skip p (advance x s') s') ≠ [].
Proof.
  intros Hg. rewrite nonempty_cat. intros (y & Hy & Hr).
  unfold plus in Hy. simpl in Hy.
  apply list_elem_of_bind in Hy as (x1 & Hy & Hx1).
  destruct (rest x) as [|a s'] eqn:Hx; [by apply elem_of_nil in Hx1|].
  destruct (p a) eqn:Hp; [|by apply elem_of_nil in Hx1].
  apply list_elem_of_singleton in Hx1. subst x1.
  exists a, s'. split_and!; [done..|].
  by rewrite <-(many_stops p (advance x s') s' y) by auto.
Qed.

Lemma run_cat_lit w r x :
  run (Cat (lit w) r) x = if read_lit w x is Some y then run r y else [].
Proof.
  revert x. induction w as [|c w IH]; intros x.
  - simpl. by rewrite app_nil_r.
  - change (run (Cat (lit (String c w)) r) x)
      with (y ← (z ← run (Chr c) x; run (lit w) z); run r y).
    simpl. destruct (rest x) as [|a s']; [done|].
    destruct (Ascii.eqb a c); [|done]. simpl. rewrite app_nil_r.
    apply (IH (advance x s')).
Qed.

Lemma nonempty_cat_lit w r x :
  run (Cat (lit w) r) x ≠ [] → ∃ y, read_lit w x = Some y ∧ run r y ≠ [].
Proof. rewrite run_cat_lit. destruct (read_lit w x); [eauto|done]. Qed.

Lemma read_lit_first c w x y :
  read_lit (String c w) x = Some y → ∃ s', rest x = String c s'.
Proof.
  simpl. destruct (rest x) as [|a s']; [done|].
  destruct (Ascii.eqb_spec a c) as [->|]; [eauto|done].
Qed.

Lemma guard_cat_chr p c r : p c = false → guard p (Cat (Chr c) r).
Proof. intros Hc y Hy. apply nonempty_cat_chr in Hy as (s' & -> & _). done. Qed.

Lemma guard_cat_lit p c w r : p c = false → guard p (Cat (lit (String c w)) r).
Proof.
  intros Hc y Hy. apply nonempty_cat_lit in Hy as (z & Hz & _).
  apply read_lit_first in Hz as (s' & ->). done.
Qed.

Lemma guard_cat_plus p q r :
  (∀ a, q a = true → p a = false) → guard p (Cat (plus q) r).
Proof.
  intros Hpq y Hy. unfold plus in Hy.
  apply nonempty_cat in Hy as (z & Hz & _). simpl in Hz.
  apply list_elem_of_bind in Hz as (x1 & _ & Hx1).
  destruct (rest y) as [|a s']; [done|]. simpl.
  destruct (q a) eqn:Hq; [auto|by apply elem_of_nil in Hx1].
Qed.

Lemma nonempty_cat_grp_plus p r x :
  guard p r → run (Cat (Grp (plus p)) r) x ≠ [] →
  ∃ a s', rest x = String a s' ∧ p a = true ∧
          run r (capture x (skip p (advance x s') s')) ≠ [].
Proof.
  intros Hg. rewrite nonempty_cat. intros (y & Hy & Hr).
  cbn [run] in Hy. apply list_elem_of_fmap in Hy as (z & -> & Hz).
  unfold plus in Hz. simpl in Hz.
  apply list_elem_of_bind in Hz as (x1 & Hz & Hx1).
  destruct (rest x) as [|a s'] eqn:Hx; [by apply elem_of_nil in Hx1|].
  destruct (p a) eqn:Hp; [|by apply elem_of_nil in Hx1].
  apply list_elem_of_singleton in Hx1. subst x1.
  exists a, s'. split_and!; [done..|].
  rewrite <-(many_stops p (advance x s') s' z); auto.
  by apply (Hg (capture x z)).
Qed.

Lemma run_lit w x :
  run (lit w) x = if read_lit w x is Some y then [y] else [].
Proof.
  revert x. induction w as [|c w IH]; intros x; [done|].
  simpl. destruct (rest x) as [|a s']; [done|].
  destruct (Ascii.eqb a c); [|done]. simpl. rewrite app_nil_r.
  apply (IH (advance x s')).
Qed.

Lemma rmatch_Some r s m :
  rmatch r s = Some m → run r {| pos := 0; rest := s; grp1 := None |} ≠ [].
Proof.
  unfold rmatch, match_at. simpl. by destruct (run r _).
Qed.

Lemma rmatch_None r s :
  run r {| pos := 0; rest := s; grp1 := None |} = [] → rmatch r s = None.
Proof. unfold rmatch, match_at. simpl. by intros ->. Qed.

Lemma digit_not_space a : digit a = true → space a = false.
Proof. destruct a as [[] [] [] [] [] [] [] []]; by vm_compute. Qed.

End ReFacts.

(** * Facts about the gtest log classifier *)
Module GTestFacts.
Import Re ReFacts GTest.

(** What a line that matches one of the expressions looks like at its start:
    enough to tell the tests of [_ProcessLine] apart. *)
Lemma test_start_shape s m :
  rmatch _test_start s = Some m →
  ∃ a s1 t, s = String "[" (String a s1) ∧ space a = true ∧
    rest (skip space (advance (advance (start_cursor s) (String a s1)) s1) s1)
      = String "R" t.
Proof.
  intros Hm. apply rmatch_Some in Hm. unfold _test_start in Hm. cbn [cat] in Hm.
  apply nonempty_cat_chr in Hm as (s0 & Hs & Hm). simpl in Hs. subst s.
  apply nonempty_cat_plus in Hm as (a & s1 & Hs & Ha & Hm);
    [|by apply guard_cat_lit].
  simpl in Hs. subst s0.
  apply nonempty_cat_lit in Hm as (y & Hy & _).
  apply read_lit_first in Hy as (t & Ht). eauto 8.
Qed.

Lemma test_start_not_run_test_cases s m :
  rmatch _test_start s = Some m → rmatch _run_test_cases_line s = None.
Proof.
  intros (a & s1 & t & -> & Ha & Ht)%test_start_shape.
  apply rmatch_None. destruct (run _ _) eqn:Hrun; [done|exfalso].
  assert (run _run_test_cases_line (start_cursor (String "[" (String a s1))) ≠ [])
    as Hne by (unfold start_cursor; congruence).
  clear Hrun. unfold _run_test_cases_line in Hne. cbn [cat] in Hne.
  apply nonempty_cat_chr in Hne as (s0 & Hs & Hne). simpl in Hs.
  injection Hs as <-.
  apply nonempty_cat_many in Hne;
    [|apply guard_cat_plus, digit_not_space].
  cbn [rest advance] in Hne. rewrite skip_cons, Ha in Hne.
  apply nonempty_cat_plus in Hne as (d & s' & Hs & Hd & _);
    [|by apply guard_cat_chr].
  rewrite Ht in Hs. by injection Hs as <- <-.
Qed.

Lemma test_start_not_passed s m :
  rmatch _test_start s = Some m → rmatch _test_passed s = None.
Proof.
  intros (a & s1 & t & -> & Ha & Ht)%test_start_shape.
  apply rmatch_None. destruct (run _ _) eqn:Hrun; [done|exfalso].
  assert (run _test_passed (start_cursor (String "[" (String a s1))) ≠ [])
    as Hne by (unfold start_cursor; congruence).
  clear Hrun. unfold _test_passed in Hne. cbn [cat] in Hne.
  apply nonempty_cat_chr in Hne as (s0 & Hs & Hne). simpl in Hs.
  injection Hs as <-.
  apply nonempty_cat_plus in Hne as (a' & s1' & Hs & _ & Hne);
    [|by apply guard_cat_lit].
  simpl in Hs. injection Hs as <- <-.
  apply nonempty_cat_lit in Hne as (y & Hy & _).
  apply read_lit_first in Hy as (t' & Ht').
  rewrite Ht in Ht'. done.
Qed.

(** A banner line starts, after blanks, with the letter Y. *)
Lemma banner_shape w s :
  run (cat [Many space; lit "YOU HAVE "; Grp (plus digit); lit w]) (start_cursor s) ≠ [] →
  ∃ t, rest (skip space (start_cursor s) s) = String "Y" t.
Proof.
  cbn [cat]. intros Hne.
  apply nonempty_cat_many in Hne; [|by apply guard_cat_lit].
  apply nonempty_cat_lit in Hne as (y & Hy & _).
  by apply read_lit_first in Hy.
Qed.

Lemma bracket_not_banner w s :
  run (cat [Many space; lit "YOU HAVE "; Grp (plus digit); lit w])
      (start_cursor (String "[" s)) = [].
Proof.
  destruct (run _ _) eqn:Hrun; [done|exfalso].
  assert (run (cat [Many space; lit "YOU HAVE "; Grp (plus digit); lit w])
            (start_cursor (String "[" s)) ≠ []) as Hne by congruence.
  by apply banner_shape in Hne as (t & Ht).
Qed.

Lemma test_start_not_disabled s m :
  rmatch _test_start s = Some m → rmatch _disabled s = None.
Proof.
  intros (a & s1 & t & -> & _)%test_start_shape.
  apply rmatch_None, bracket_not_banner.
Qed.

Lemma test_start_not_flaky s m :
  rmatch _test_start s = Some m → rmatch _flaky s = None.
Proof.
  intros (a & s1 & t & -> & _)%test_start_shape.
  apply rmatch_None, bracket_not_banner.
Qed.

Lemma banner_not_bracket w s r :
  run (cat [Many space; lit "YOU HAVE "; Grp (plus digit); lit w]) (start_cursor s) ≠ [] →
  rmatch (Cat (Chr "[") r) s = None.
Proof.
  intros (t & Ht)%banner_shape.
  apply rmatch_None. destruct (run _ _) eqn:Hrun; [done|exfalso].
  assert (run (Cat (Chr "[") r) (start_cursor s) ≠ [])
    as Hne by (unfold start_cursor; congruence).
  apply nonempty_cat_chr in Hne as (s0 & Hs & _). simpl in Hs. subst s.
  done.
Qed.

(** Where the count of a banner ends: the cursor after the blanks, the
    words YOU HAVE and the digits. *)
Lemma banner_tail w s :
  run (cat [Many space; lit "YOU HAVE "; Grp (plus digit); lit (String " " w)])
      (start_cursor s) ≠ [] →
  ∃ x2 a s',
    read_lit "YOU HAVE " (skip space (start_cursor s) s) = Some x2 ∧
    rest x2 = String a s' ∧
    is_Some (read_lit (String " " w) (capture x2 (skip digit (advance x2 s') s'))).
Proof.
  cbn [cat]. intros Hne.
  apply nonempty_cat_many in Hne; [|by apply guard_cat_lit].
  apply nonempty_cat_lit in Hne as (x2 & Hx2 & Hne).
  apply nonempty_cat_grp_plus in Hne as (a & s' & Ha & _ & Hne);
    [|by apply (guard_cat_chr digit " " (lit w))].
  rewrite run_lit in Hne. exists x2, a, s'. split_and!; [done..|].
  destruct (read_lit (String " " w) _); [by eexists|done].
Qed.

Lemma flaky_not_disabled s m :
  rmatch _flaky s = Some m → rmatch _disabled s = None.
Proof.
  intros Hf%rmatch_Some. apply rmatch_None.
  destruct (run _disabled _) eqn:Hrun; [done|exfalso].
  assert (run _disabled (start_cursor s) ≠ [])
    as Hd by (unfold start_cursor; congruence).
  clear Hrun.
  apply banner_tail in Hf as (x2 & a & s' & Hx2 & Hr & [y Hy]).
  apply banner_tail in Hd as (x2' & a' & s'' & Hx2' & Hr' & [y' Hy']).
  rewrite Hx2 in Hx2'. injection Hx2' as <-.
  rewrite Hr in Hr'. injection Hr' as <- <-.
  simpl in Hy, Hy'.
  destruct (rest (skip digit (advance x2 s') s')) as [|c0 t0]; [done|].
  destruct (Ascii.eqb c0 " "); [|done].
  destruct t0 as [|c1 t1]; [done|].
  destruct (Ascii.eqb_spec c1 "F") as [->|]; done.
Qed.

Lemma disabled_not_bracket s m r :
  rmatch _disabled s = Some m → rmatch (Cat (Chr "[") r) s = None.
Proof. intros Hm%rmatch_Some. by apply (banner_not_bracket " DISABLED TEST"). Qed.

Lemma flaky_not_bracket s m r :
  rmatch _flaky s = Some m → rmatch (Cat (Chr "[") r) s = None.
Proof. intros Hm%rmatch_Some. by apply (banner_not_bracket " FLAKY TEST"). Qed.

Section ParserFacts.
Variable maxint : Z.

(** Which branch of [_ProcessLine] a line takes. *)
Lemma process_test_start self line results :
  rmatch _test_start line = Some results →
  _ProcessLine maxint self line = on_test_start results (read_master_name line self).
Proof.
  intros Hm. unfold _ProcessLine.
  rewrite (test_start_not_run_test_cases _ _ Hm), (test_start_not_passed _ _ Hm),
    (test_start_not_disabled _ _ Hm), (test_start_not_flaky _ _ Hm), Hm.
  done.
Qed.

Lemma process_disabled self line results :
  rmatch _disabled line = Some results →
  _ProcessLine maxint self line = Some (on_disabled maxint results (read_master_name line self)).
Proof.
  intros Hm. unfold _ProcessLine.
  unfold _run_test_cases_line, _test_passed. cbn [cat].
  rewrite !(disabled_not_bracket _ _ _ Hm), Hm. done.
Qed.

Lemma process_flaky self line results :
  rmatch _flaky line = Some results →
  _ProcessLine maxint self line = Some (on_flaky maxint results (read_master_name line self)).
Proof.
  intros Hm. unfold _ProcessLine.
  rewrite (flaky_not_disabled _ _ Hm).
  unfold _run_test_cases_line, _test_passed. cbn [cat].
  rewrite !(flaky_not_bracket _ _ _ Hm), Hm. done.
Qed.

(** [read_master_name] writes [master_name] and nothing else. *)
Lemma read_master_name_spec line self :
  ∃ v, read_master_name line self = set_master_name v self.
Proof.
  unfold read_master_name. destruct self. repeat case_match; by eexists.
Qed.

Lemma timeout_current_test_counts self self' :
  timeout_current_test self = Some self' → same_counts self self'.
Proof.
  unfold timeout_current_test. intros H.
  repeat (case_match; simplify_option_eq); done.
Qed.

Lemma start_test_counts results self self' :
  start_test results self = Some self' → same_counts self self'.
Proof.
  unfold start_test. intros H.
  repeat (case_match; simplify_option_eq); done.
Qed.

Lemma on_test_ok_counts line results self :
  same_counts self (on_test_ok line results self).
Proof. unfold on_test_ok. repeat case_match; done. Qed.

Lemma on_test_fail_counts line results self :
  same_counts self (on_test_fail line results self).
Proof. unfold on_test_fail. repeat case_match; done. Qed.

Lemma on_test_timeout_counts line results self :
  same_counts self (on_test_timeout line results self).
Proof. unfold on_test_timeout. repeat case_match; done. Qed.

Lemma on_suppression_start_counts line results self :
  same_counts self (on_suppression_start line results self).
Proof. unfold on_suppression_start. repeat case_match; done. Qed.

Lemma on_other_line_counts line self :
  same_counts self (on_other_line line self).
Proof.
  unfold on_other_line, on_failing_tests_list. repeat case_match; done.
Qed.

Lemma on_disabled_some results self :
  (_disabled_tests self = PyStr "some" →
   _disabled_tests (on_disabled maxint results self) = PyStr "some") ∧
  _flaky_tests (on_disabled maxint results self) = _flaky_tests self.
Proof.
  unfold on_disabled. split.
  - intros ->. by rewrite andb_false_r.
  - by case_match.
Qed.

Lemma on_flaky_some results self :
  _disabled_tests (on_flaky maxint results self) = _disabled_tests self ∧
  (_flaky_tests self = PyStr "some" →
   _flaky_tests (on_flaky maxint results self) = PyStr "some").
Proof.
  unfold on_flaky. split.
  - by case_match.
  - intros ->. by rewrite andb_false_r.
Qed.

Lemma same_counts_keeps_some a b : same_counts a b → keeps_some a b.
Proof. intros [Hd Hf]. unfold keeps_some. by rewrite Hd, Hf. Qed.

Lemma on_disabled_keeps_some results self :
  keeps_some self (on_disabled maxint results self).
Proof.
  unfold on_disabled. split.
  - intros ->. by rewrite andb_false_r.
  - by case_match.
Qed.

Lemma on_flaky_keeps_some results self :
  keeps_some self (on_flaky maxint results self).
Proof.
  unfold on_flaky. split.
  - by case_match.
  - intros ->. by rewrite andb_false_r.
Qed.

Lemma on_run_test_cases_line_counts self self' :
  on_run_test_cases_line self = Some self' → same_counts self self'.
Proof.
  unfold on_run_test_cases_line. intros H.
  destruct (timeout_current_test self) as [mid|] eqn:Hmid; simplify_eq/=.
  apply timeout_current_test_counts in Hmid as [Hd Hf].
  split; [exact Hd|exact Hf].
Qed.

Lemma on_test_start_counts results self self' :
  on_test_start results self = Some self' → same_counts self self'.
Proof.
  unfold on_test_start. intros H.
  destruct (timeout_current_test self) as [mid|] eqn:Hmid; simplify_eq/=.
  apply timeout_current_test_counts in Hmid as [Hd Hf].
  apply start_test_counts in H as [Hd' Hf'].
  split; congruence.
Qed.

Lemma _ProcessLine_keeps_some self line self' :
  _ProcessLine maxint self line = Some self' → keeps_some self self'.
Proof.
  unfold _ProcessLine.
  destruct (read_master_name_spec line self) as [v ->].
  assert (keeps_some (set_master_name v self) self' → keeps_some self self')
    as Hv by done.
  intros H. apply Hv. clear Hv. revert H.
  generalize (set_master_name v self). clear self. intros self H.
  repeat case_match; simplify_eq;
    first [ apply on_disabled_keeps_some
          | apply on_flaky_keeps_some
          | apply same_counts_keeps_some;
            eauto using on_run_test_cases_line_counts, on_test_start_counts,
              on_test_ok_counts, on_test_fail_counts, on_test_timeout_counts,
              on_suppression_start_counts, on_other_line_counts;
            done ].
Qed.

Lemma ProcessLine_keeps_some self line self' :
  ProcessLine maxint self line = Some self' → keeps_some self self'.
Proof.
  unfold ProcessLine. intros H.
  assert (keeps_some self (set_line_number (S (_line_number self)) self))
    as [Hd Hf] by done.
  repeat case_match; simplify_option_eq;
    repeat match goal with
      | H : _ProcessLine _ _ _ = Some _ |- _ =>
          apply _ProcessLine_keeps_some in H; destruct H
      end; split; auto.
Qed.

Lemma ProcessLines_keeps_some lines self self' :
  ProcessLines maxint self lines = Some self' → keeps_some self self'.
Proof.
  revert self. induction lines as [|line lines IH]; intros self H; simpl in H.
  - by simplify_eq.
  - destruct (ProcessLine maxint self line) as [mid|] eqn:Hmid; simplify_eq/=.
    apply ProcessLine_keeps_some in Hmid as [? ?].
    apply IH in H as [? ?]. split; auto.
Qed.

(** [_ProcessLine] never raises: the test it tracks has an entry. *)
Lemma timeout_current_test_known self :
  current_test_known self →
  ∃ self', timeout_current_test self = Some self' ∧ current_test_known self'.
Proof.
  unfold timeout_current_test, current_test_known. intros [Hc|[entry He]].
  - rewrite bool_decide_eq_true_2 by done. eauto.
  - case_bool_decide; [eauto|]. rewrite He. simpl.
    case_bool_decide; eexists; (split; [done|]); right; simpl; [|by eauto].
    rewrite lookup_insert_eq. eauto.
Qed.

Lemma start_test_known results self :
  ∃ self', start_test results self = Some self' ∧ current_test_known self'.
Proof.
  unfold start_test, store_new. simpl. rewrite lookup_insert_eq. simpl.
  destruct (retrying_failed self); eexists; (split; [done|]);
    right; simpl; rewrite lookup_insert_eq; eauto.
Qed.

Lemma on_failing_tests_list_known line self :
  current_test_known self → current_test_known (on_failing_tests_list line self).
Proof.
  unfold on_failing_tests_list, current_test_known, store_new, alloc.
  intros [Hc|Hs]; repeat case_match; simpl; auto.
  all: right; apply lookup_insert_is_Some'; auto.
Qed.

Lemma on_other_line_known line self :
  current_test_known self → current_test_known (on_other_line line self).
Proof.
  unfold on_other_line. intros Hk.
  case_bool_decide; [done|]. apply on_failing_tests_list_known.
  by case_bool_decide.
Qed.

Lemma _ProcessLine_known self line :
  current_test_known self →
  ∃ self', _ProcessLine maxint self line = Some self' ∧ current_test_known self'.
Proof.
  unfold _ProcessLine.
  destruct (read_master_name_spec line self) as [v ->].
  intros Hk. assert (current_test_known (set_master_name v self)) as Hk' by done.
  revert Hk'. generalize (set_master_name v self). clear. intros self Hk.
  repeat case_match;
    try (eexists; split; [done|]);
    try (by left);
    try (by apply on_other_line_known);
    try (unfold on_disabled; by case_match);
    try (unfold on_flaky; by case_match);
    try (unfold on_suppression_start; by case_match);
    try done.
  - unfold on_run_test_cases_line.
    destruct (timeout_current_test_known self Hk) as (mid & -> & _).
    eexists. split; [done|]. by left.
  - unfold on_test_start.
    destruct (timeout_current_test_known self Hk) as (mid & -> & _).
    apply start_test_known.
Qed.

Lemma ProcessLine_known self line :
  current_test_known self →
  ∃ self', ProcessLine maxint self line = Some self' ∧ current_test_known self'.
Proof.
  unfold ProcessLine. intros Hk.
  assert (current_test_known (set_line_number (S (_line_number self)) self))
    as Hk' by done.
  revert Hk'. generalize (set_line_number (S (_line_number self)) self).
  clear. intros self Hk.
  repeat case_match; try by apply _ProcessLine_known.
  destruct (_ProcessLine_known self (take_str (m_start m) line) Hk)
    as (mid & -> & Hmid).
  by apply _ProcessLine_known.
Qed.

Lemma ProcessLines_known lines self :
  current_test_known self →
  ∃ self', ProcessLines maxint self lines = Some self' ∧ current_test_known self'.
Proof.
  revert self. induction lines as [|line lines IH]; intros self Hk; simpl.
  - eauto.
  - destruct (ProcessLine_known self line Hk) as (mid & -> & Hmid).
    by apply IH.
Qed.

End ParserFacts.

End GTestFacts.

(** * The claims about the classifier *)
Module GTestClaims.
Import Re ReFacts GTest GTestFacts.

(** C10: for every test name, also of a test that passed or that the log
    never mentioned, [FailureDescription] returns a list that is not empty
    and starts with the name followed by a colon and a blank. *)
Theorem FailureDescription_starts_with_name (self : GTestLogParser) (test : string) :
  FailureDescription self test ≠ [] ∧
  head (FailureDescription self test) = Some (test +:+ ": ").
Proof. unfold FailureDescription. split; [discriminate|reflexivity]. Qed.

(** C9: once a count is the string 'some', no line of the log makes it a
    number again, whatever the lines are; the parser, started from a state
    that knows its current test, does not fail on them. *)
Theorem some_count_is_sticky (maxint : Z) (self : GTestLogParser) (lines : list string) :
  current_test_known self →
  ∃ self', ProcessLines maxint self lines = Some self' ∧
    (DisabledTests self = PyStr "some" → DisabledTests self' = PyStr "some") ∧
    (FlakyTests self = PyStr "some" → FlakyTests self' = PyStr "some").
Proof.
  intros Hk. destruct (ProcessLines_known maxint lines self Hk) as (self' & H & _).
  exists self'. split; [done|]. by apply ProcessLines_keeps_some in H.
Qed.

Lemma some_count_is_sticky_witness :
  ∃ self',
    ProcessLines maxint64 (run_log maxint64 ["YOU HAVE 0 DISABLED TESTS"; "YOU HAVE 0 FLAKY TESTS"])
      ["YOU HAVE 3 DISABLED TESTS"; "[ RUN      ] Foo.Bar"; "YOU HAVE 4 FLAKY TESTS"]
      = Some self' ∧
    DisabledTests self' = PyStr "some" ∧ FlakyTests self' = PyStr "some".
Proof.
  destruct (some_count_is_sticky maxint64
              (run_log maxint64 ["YOU HAVE 0 DISABLED TESTS"; "YOU HAVE 0 FLAKY TESTS"])
              ["YOU HAVE 3 DISABLED TESTS"; "[ RUN      ] Foo.Bar"; "YOU HAVE 4 FLAKY TESTS"])
    as (self' & H & Hd & Hf).
  - left. vm_compute. reflexivity.
  - exists self'. split; [exact H|]. split.
    + apply Hd. vm_compute. reflexivity.
    + apply Hf. vm_compute. reflexivity.
Defined.

(** C4 as stated fails once the count is 'some': the second line is a
    banner with the well-formed positive count 3, and [DisabledTests] is not
    3 after it. *)
Lemma banner_after_some_counterexample :
  rmatch _disabled "YOU HAVE 3 DISABLED TESTS" = Some {| m_start := 0; m_group1 := "3" |} ∧
  py_int maxint64 "3" = Some (PyInt 3) ∧
  ∃ self',
    ProcessLines maxint64 init ["YOU HAVE 0 DISABLED TESTS"; "YOU HAVE 3 DISABLED TESTS"]
      = Some self' ∧
    DisabledTests self' = PyStr "some" ∧ DisabledTests self' ≠ PyInt 3.
Proof.
  split; [vm_compute; reflexivity|]. split; [vm_compute; reflexivity|].
  eexists. split; [vm_compute; reflexivity|]. split; [reflexivity|discriminate].
Qed.

(** C2, as amended: when a test is started again while it is the current
    test and still 'started', the second start line first makes it 'timeout'
    with, as its description, the list that the parser is gathering lines
    into at that moment ([_failure_description]), whatever it holds, and
    only then records the new 'started' entry, whose description is "Did
    not complete." (followed by the retry separator when failed tests are
    being retried). *)
Theorem second_start_times_out_first (maxint : Z) (self : GTestLogParser)
    (line : string) (results : match_obj) :
  rmatch _test_start line = Some results →
  _current_test self = m_group1 results →
  _current_test self ≠ "" →
  _StatusOfTest self (_current_test self) = "started" →
  ∃ mid final,
    timeout_current_test (read_master_name line self) = Some mid ∧
    _StatusOfTest mid (m_group1 results) = "timeout" ∧
    FailureDescription mid (m_group1 results) =
      [m_group1 results +:+ ": "] ++ deref self (_failure_description self) ∧
    start_test results mid = Some final ∧
    _ProcessLine maxint self line = Some final ∧
    _StatusOfTest final (m_group1 results) = "started" ∧
    FailureDescription final (m_group1 results) =
      [m_group1 results +:+ ": "; "Did not complete."] ++
      (if retrying_failed self then [""; "RETRY OUTPUT:"; ""] else []).
Proof.
  intros Hm Hcur Hne Hst.
  rewrite (process_test_start maxint self line results Hm).
  destruct (read_master_name_spec line self) as [v ->].
  unfold on_test_start, timeout_current_test. simpl.
  rewrite bool_decide_eq_false_2 by done.
  unfold _StatusOfTest in Hst.
  destruct (_test_status self !! _current_test self) as [[status l]|] eqn:He;
    [|done].
  simpl in *. subst status. rewrite bool_decide_eq_true_2 by done.
  destruct results as [start T]. simpl in *. subst T.
  destruct (retrying_failed self) eqn:Hretry.
  - eexists _, _. split; [reflexivity|].
    split; [unfold _StatusOfTest; simpl; by rewrite lookup_insert_eq|].
    split; [unfold FailureDescription; simpl; by rewrite lookup_insert_eq|].
    simpl. unfold start_test, store_new. simpl. rewrite Hretry.
    rewrite !lookup_insert_eq. simpl.
    split; [reflexivity|]. split; [reflexivity|].
    split; [unfold _StatusOfTest; simpl; by rewrite lookup_insert_eq|].
    unfold FailureDescription, deref. simpl. rewrite lookup_insert_eq. simpl.
    rewrite list_lookup_alter_eq, lookup_app_r, Nat.sub_diag by done. done.
  - eexists _, _. split; [reflexivity|].
    split; [unfold _StatusOfTest; simpl; by rewrite lookup_insert_eq|].
    split; [unfold FailureDescription; simpl; by rewrite lookup_insert_eq|].
    simpl. unfold start_test, store_new. simpl. rewrite Hretry.
    split; [reflexivity|]. split; [reflexivity|].
    split; [unfold _StatusOfTest; simpl; by rewrite lookup_insert_eq|].
    unfold FailureDescription, deref. simpl. rewrite lookup_insert_eq. simpl.
    rewrite lookup_app_l by (rewrite length_app; simpl; lia).
    rewrite lookup_app_r, Nat.sub_diag by done. done.
Qed.

Lemma second_start_times_out_first_witness :
  ∃ mid final,
    timeout_current_test
      (read_master_name "[ RUN      ] Foo.Bar"
         (run_log maxint64 ["[ RUN      ] Foo.Bar"; "boom"])) = Some mid ∧
    _StatusOfTest mid "Foo.Bar" = "timeout" ∧
    FailureDescription mid "Foo.Bar" = ["Foo.Bar: "; "boom"] ∧
    _ProcessLine maxint64 (run_log maxint64 ["[ RUN      ] Foo.Bar"; "boom"])
      "[ RUN      ] Foo.Bar" = Some final ∧
    _StatusOfTest final "Foo.Bar" = "started" ∧
    FailureDescription final "Foo.Bar" = ["Foo.Bar: "; "Did not complete."].
Proof.
  destruct (second_start_times_out_first maxint64
              (run_log maxint64 ["[ RUN      ] Foo.Bar"; "boom"])
              "[ RUN      ] Foo.Bar" {| m_start := 0; m_group1 := "Foo.Bar" |})
    as (mid & final & Hmid & Hs & Hd & _ & Hfinal & Hs' & Hd').
  - vm_compute. reflexivity.
  - vm_compute. reflexivity.
  - vm_compute. discriminate.
  - vm_compute. reflexivity.
  - exists mid, final. split; [exact Hmid|]. split; [exact Hs|].
    split; [exact Hd|]. split; [exact Hfinal|]. split; [exact Hs'|exact Hd'].
Defined.

(** C2 as stated fails: when the second start line of Foo.Bar is processed,
    the entry that is forced to 'timeout' holds the lines gathered since the
    first start (here none), not the text "Did not complete.". *)
Lemma second_start_description_counterexample :
  rmatch _test_start "[ RUN      ] Foo.Bar"
    = Some {| m_start := 0; m_group1 := "Foo.Bar" |} ∧
  ∃ mid,
    timeout_current_test
      (read_master_name "[ RUN      ] Foo.Bar"
         (run_log maxint64 ["[ RUN      ] Foo.Bar"])) = Some mid ∧
    on_test_start {| m_start := 0; m_group1 := "Foo.Bar" |}
      (read_master_name "[ RUN      ] Foo.Bar"
         (run_log maxint64 ["[ RUN      ] Foo.Bar"]))
      = start_test {| m_start := 0; m_group1 := "Foo.Bar" |} mid ∧
    _StatusOfTest mid "Foo.Bar" = "timeout" ∧
    FailureDescription mid "Foo.Bar" = ["Foo.Bar: "] ∧
    FailureDescription mid "Foo.Bar" ≠ ["Foo.Bar: "; "Did not complete."].
Proof.
  split; [vm_compute; reflexivity|].
  eexists. split; [vm_compute; reflexivity|].
  split; [vm_compute; reflexivity|]. split; [vm_compute; reflexivity|].
  split; [vm_compute; reflexivity|]. vm_compute. discriminate.
Qed.

(** What the gathered list holds depends on how the test was started.
    Outside of a retry it was made empty at the first start and holds the
    lines logged since (the two lemmas above); in a retry it is the list of
    the 'started' entry itself, which begins with "Did not complete." and
    the retry separator. *)
Lemma second_start_in_retry_example :
  ∃ mid,
    timeout_current_test
      (read_master_name "[ RUN      ] Foo.Bar"
         (run_log maxint64
            ["RETRYING FAILED TESTS:"; "[ RUN      ] Foo.Bar"; "boom"])) = Some mid ∧
    _StatusOfTest mid "Foo.Bar" = "timeout" ∧
    FailureDescription mid "Foo.Bar"
      = ["Foo.Bar: "; "Did not complete."; ""; "RETRY OUTPUT:"; ""; "boom"].
Proof.
  eexists. split; [vm_compute; reflexivity|].
  split; vm_compute; reflexivity.
Qed.

(** C1: the code does not keep the text of the first failure.  Foo.Bar fails
    with the line "boom", which is its description; after the retry banner
    it is started again and passes: its status is 'warning', and its
    description holds "Did not complete." and the retry separator, and no
    "boom". *)
Theorem retry_pass_drops_first_failure_text :
  ∃ failed final,
    ProcessLines maxint64 init
      ["[ RUN      ] Foo.Bar"; "boom"; "[  FAILED  ] Foo.Bar (3 ms)"] = Some failed ∧
    _StatusOfTest failed "Foo.Bar" = "failed" ∧
    FailureDescription failed "Foo.Bar" = ["Foo.Bar: "; "boom"] ∧
    ProcessLines maxint64 failed
      ["RETRYING FAILED TESTS:"; "[ RUN      ] Foo.Bar"; "retry line";
       "[       OK ] Foo.Bar (1 ms)"] = Some final ∧
    _StatusOfTest final "Foo.Bar" = "warning" ∧
    FailureDescription final "Foo.Bar" =
      ["Foo.Bar: "; "Did not complete."; ""; "RETRY OUTPUT:"; ""; "retry line"] ∧
    "boom" ∉ FailureDescription final "Foo.Bar".
Proof.
  eexists _, _. split; [vm_compute; reflexivity|].
  split; [vm_compute; reflexivity|]. split; [vm_compute; reflexivity|].
  split; [vm_compute; reflexivity|]. split; [vm_compute; reflexivity|].
  split; [vm_compute; reflexivity|].
  intros Hin. vm_compute in Hin.
  repeat (apply elem_of_cons in Hin as [Hin|Hin]; [discriminate|]).
  by apply elem_of_nil in Hin.
Qed.

End GTestClaims.

(** * Facts about the step engine *)
Module AnnotatedRunFacts.
Import Py Properties AnnotatedRun.

(** ** The sequencer *)

Lemma source_induction (P : source → Prop) :
  (∀ s, P (OneStep s)) →
  (∀ items, P (Sequence items)) →
  (∀ yields, Forall P yields → P (Generator yields)) →
  P Other →
  ∀ src, P src.
Proof.
  intros Hstep Hseq Hgen Hother. fix IH 1. intros [s|items|yields|].
  - apply Hstep.
  - apply Hseq.
  - apply Hgen. induction yields as [|i yields IHy]; constructor.
    + apply IH.
    + exact IHy.
  - exact Hother.
Qed.

Lemma flattened_app l1 l2 : flattened (l1 ++ l2) = flattened l1 ++ flattened l2.
Proof. unfold flattened. apply flat_map_app. Qed.

Lemma depth_first_flattened fuel stack :
  list_sum (tree_size <$> stack) < fuel → depth_first fuel stack = flattened stack.
Proof.
  revert stack. induction fuel as [|fuel IH]; intros stack Hfuel; [lia|].
  destruct stack as [|[s|items] stack]; [done| |];
    rewrite fmap_cons in Hfuel; cbn [tree_size] in Hfuel;
    match type of Hfuel with
    | list_sum (?a :: ?l) < _ => change (list_sum (a :: l)) with (a + list_sum l) in Hfuel
    end;
    cbn [depth_first].
  - change (flattened (Leaf s :: stack)) with (s :: flattened stack).
    f_equal. apply IH. lia.
  - rewrite IH.
    + rewrite flattened_app. done.
    + rewrite fmap_app, list_sum_app. lia.
Qed.

Lemma depth_first_order_flattened sequence :
  depth_first_order sequence = flattened sequence.
Proof. apply depth_first_flattened. lia. Qed.


Lemma untagged_fixup sequence :
  untagged <$> fixup_seed_steps sequence = untagged <$> sequence.
Proof.
  destruct sequence as [|s sequence]; [done|]. simpl.
  destruct (seed_steps (fields s)); [done|]. simpl. f_equal.
Qed.

Lemma ensure_well_shaped src :
  well_shaped src = true →
  (ensure_sequence_of_steps src).2 = None ∧
  untagged <$> (ensure_sequence_of_steps src).1 = untagged <$> source_leaves src.
Proof.
  induction src as [s|items|yields IH|] using source_induction; intros Hwf.
  - done.
  - simpl. rewrite untagged_fixup, depth_first_order_flattened. done.
  - simpl in *. induction yields as [|i yields IHy]; [done|].
    apply Forall_cons in IH as [Hi IH]. simpl in Hwf.
    apply andb_true_iff in Hwf as [Hwi Hwf].
    destruct (Hi Hwi) as [He Hs]. destruct (IHy IH Hwf) as [He' Hs'].
    destruct (ensure_sequence_of_steps i) as [steps e]. simpl in *. subst e.
    match goal with |- context [let '(_, _) := ?g in _] => destruct g as [steps' e'] end.
    simpl in *. split; [done|]. rewrite !fmap_app. by f_equal.
  - done.
Qed.

(** ** Presentations and the store *)

Lemma snapshot_prefix_kept σ σ' d :
  valid_dict σ d → prefix_kept (length σ) σ σ' → snapshot σ' d = snapshot σ d.
Proof.
  intros [[items Hd] Hv] Hk. unfold snapshot, items_of in *.
  assert (d < length σ) as Hlt by (by eapply lookup_lt_Some).
  rewrite Hd in Hv. rewrite (Hk d Hlt), Hd.
  apply list_fmap_ext. intros i [k l] Hi. simpl. f_equal.
  unfold list_lines. rewrite Hk; [done|].
  destruct (Hv k l) as [lines Hl]; [by eapply list_elem_of_lookup_2|].
  by eapply lookup_lt_Some.
Qed.

Lemma prefix_kept_refl n σ : prefix_kept n σ σ.
Proof. by intros i _. Qed.

Lemma prefix_kept_trans n σ1 σ2 σ3 :
  prefix_kept n σ1 σ2 → prefix_kept n σ2 σ3 → prefix_kept n σ1 σ3.
Proof. intros H1 H2 i Hi. by rewrite H2, H1. Qed.

Lemma prefix_kept_app n σ extra : n ≤ length σ → prefix_kept n σ (σ ++ extra).
Proof. intros Hn i Hi. apply lookup_app_l. lia. Qed.

Lemma prefix_kept_insert n σ i o : n ≤ i → prefix_kept n σ (<[i := o]> σ).
Proof. intros Hn j Hj. apply list_lookup_insert_ne. lia. Qed.

Lemma valid_dict_app σ extra d : valid_dict σ d → valid_dict (σ ++ extra) d.
Proof.
  intros [[items Hd] Hv]. unfold valid_dict, items_of in *.
  rewrite Hd in Hv. rewrite (lookup_app_l_Some _ _ _ _ Hd).
  split; [eauto|]. intros k l Hkl. destruct (Hv k l Hkl) as [lines Hl].
  exists lines. by apply lookup_app_l_Some.
Qed.

Lemma list_lines_app σ extra l :
  l < length σ → list_lines (σ ++ extra) l = list_lines σ l.
Proof. intros Hl. unfold list_lines. by rewrite lookup_app_l. Qed.

Lemma deepcopy_items_spec items : ∀ memo σ0 ext copied σ',
  deepcopy_items items memo (σ0 ++ ext) = (copied, σ') →
  (∀ k l, (k, l) ∈ items → l < length σ0) →
  (∀ l l', (l, l') ∈ memo →
     length σ0 ≤ l' ∧ list_lines (σ0 ++ ext) l' = list_lines σ0 l ∧
     ∃ lines, (σ0 ++ ext) !! l' = Some (OList lines)) →
  ∃ more, σ' = (σ0 ++ ext) ++ more ∧
    Forall2 (λ kl kl', kl'.1 = kl.1 ∧ length σ0 ≤ kl'.2 ∧
               list_lines σ' kl'.2 = list_lines σ0 kl.2 ∧
               ∃ lines, σ' !! kl'.2 = Some (OList lines)) items copied.
Proof.
  induction items as [|[k l] items IH]; intros memo σ0 ext copied σ' Hc Hitems Hmemo.
  - simpl in Hc. injection Hc as <- <-. exists []. by rewrite app_nil_r.
  - simpl in Hc.
    destruct (list_find (λ p, p.1 = l) memo) as [[i [l0 l']]|] eqn:Hfind.
    + apply list_find_Some in Hfind as (Hi & Hl0 & _). simpl in Hl0. subst l0.
      apply list_elem_of_lookup_2 in Hi.
      destruct (deepcopy_items items memo (σ0 ++ ext)) as [copied' σ1] eqn:Hrec.
      injection Hc as <- <-.
      destruct (IH memo σ0 ext copied' σ1 Hrec) as (more & -> & Hall).
      { intros k' l'' H. apply (Hitems k' l''). by right. }
      { done. }
      exists more. split; [done|]. constructor; [|done]. simpl.
      destruct (Hmemo l l' Hi) as (Hge & Hlines & lines & Hl').
      split_and!; [done..| |].
      * rewrite list_lines_app by (by eapply lookup_lt_Some). done.
      * exists lines. by apply lookup_app_l_Some.
    + simpl in Hc.
      destruct (deepcopy_items items
                  ((l, length (σ0 ++ ext)) :: memo)
                  ((σ0 ++ ext) ++ [OList (list_lines (σ0 ++ ext) l)]))
        as [copied' σ1] eqn:Hrec.
      injection Hc as <- <-.
      assert (l < length σ0) as Hl by (apply (Hitems k l); left).
      rewrite <-app_assoc in Hrec.
      destruct (IH _ σ0 _ copied' σ1 Hrec) as (more & -> & Hall).
      { intros k' l'' H. apply (Hitems k' l''). by right. }
      { intros l1 l1' [Heq|Hin]%elem_of_cons.
        - injection Heq as -> ->. rewrite app_assoc.
          split_and!.
          + rewrite length_app. lia.
          + unfold list_lines at 1.
            rewrite lookup_app_r, Nat.sub_diag by done. simpl.
            by apply list_lines_app.
          + rewrite lookup_app_r, Nat.sub_diag by done. simpl. eauto.
        - destruct (Hmemo l1 l1' Hin) as (Hge & Hlines & lines & Hl1).
          rewrite app_assoc. split_and!; [done| |].
          + rewrite list_lines_app by (by eapply lookup_lt_Some). done.
          + exists lines. by apply lookup_app_l_Some. }
      exists ([OList (list_lines (σ0 ++ ext) l)] ++ more).
      split; [by rewrite <-!app_assoc|]. constructor; [|done]. simpl.
      rewrite !app_assoc.
      split_and!; [done|rewrite length_app; lia| |].
      * unfold list_lines at 1.
        rewrite lookup_app_l by (rewrite !length_app; simpl; lia).
        rewrite lookup_app_r, Nat.sub_diag by done. simpl.
        by apply list_lines_app.
      * rewrite lookup_app_l by (rewrite !length_app; simpl; lia).
        rewrite lookup_app_r, Nat.sub_diag by done. simpl. eauto.
Qed.

Lemma deepcopy_spec σ d0 d σ' :
  valid_dict σ d0 → deepcopy d0 σ = (d, σ') →
  prefix_kept (length σ) σ σ' ∧ made_after (length σ) σ' d ∧
  snapshot σ' d = snapshot σ d0.
Proof.
  intros Hv Hcopy. unfold deepcopy in Hcopy.
  destruct (deepcopy_items (items_of σ d0) [] σ) as [copied σ1] eqn:Hitems.
  injection Hcopy as <- <-.
  rewrite <-(app_nil_r σ) in Hitems at 2.
  apply deepcopy_items_spec in Hitems as (more & -> & Hall).
  - rewrite app_nil_r in *. split_and!.
    + rewrite <-app_assoc. by apply prefix_kept_app.
    + split_and!.
      * rewrite length_app. lia.
      * split.
        -- rewrite lookup_app_r, Nat.sub_diag by done. simpl. eauto.
        -- unfold items_of. rewrite lookup_app_r, Nat.sub_diag by done. simpl.
           intros k l Hkl. apply list_elem_of_lookup in Hkl as [i Hi].
           destruct (Forall2_lookup_r _ _ _ _ _ Hall Hi) as ([k0 l0] & _ & _ & _ & _ & lines & Hl).
           exists lines. by apply lookup_app_l_Some.
      * unfold items_of. rewrite lookup_app_r, Nat.sub_diag by done. simpl.
        intros k l Hkl. apply list_elem_of_lookup in Hkl as [i Hi].
        by destruct (Forall2_lookup_r _ _ _ _ _ Hall Hi) as ([k0 l0] & _ & _ & ? & _).
    + unfold snapshot at 1. unfold items_of at 1.
      rewrite lookup_app_r, Nat.sub_diag by done. simpl.
      unfold snapshot. clear Hv.
      assert (∀ l', l' < length (σ ++ more) →
                list_lines ((σ ++ more) ++ [ODict copied]) l' = list_lines (σ ++ more) l')
        as Hext by (intros; by apply list_lines_app).
      revert Hext. generalize ((σ ++ more) ++ [ODict copied]). intros σ2 Hext.
      revert Hall. generalize (items_of σ d0). intros items Hall.
      induction Hall as [|[k l] [k' l'] items copied' Hhd Hall IH]; [done|].
      rewrite !fmap_cons, IH. simpl in *.
      destruct Hhd as (-> & _ & Hlines & lines & Hl').
      do 2 f_equal. rewrite <-Hlines.
      apply Hext. by eapply lookup_lt_Some.
  - intros k l Hkl. destruct Hv as [_ Hv].
    destruct (Hv k l Hkl) as [lines Hl]. by eapply lookup_lt_Some.
  - intros l l' Hin. by apply elem_of_nil in Hin.
Qed.

Lemma elem_of_dict_set {A} (k k0 : string) (v v0 : A) items :
  (k, v) ∈ dict_set k0 v0 items → (k, v) = (k0, v0) ∨ (k, v) ∈ items.
Proof.
  induction items as [|[k' v'] items IH]; simpl.
  - intros ->%list_elem_of_singleton. by left.
  - case_bool_decide.
    + intros [->|Hin]%elem_of_cons; [by left|]. right. by right.
    + intros [->|Hin]%elem_of_cons; [right; by left|].
      destruct (IH Hin) as [?|?]; [by left|]. right. by right.
Qed.

Lemma elem_of_dict_del {A} (k k0 : string) (v : A) items :
  (k, v) ∈ dict_del k0 items → (k, v) ∈ items.
Proof. unfold dict_del. by intros [_ ?]%list_elem_of_filter. Qed.

(** Writing a dict at [d] whose values are among the old ones, or a given
    list object. *)
Lemma made_after_insert_dict n σ d items' :
  made_after n σ d →
  (∀ k l, (k, l) ∈ items' → (k, l) ∈ items_of σ d) →
  made_after n (<[d := ODict items']> σ) d.
Proof.
  intros (Hn & [[items Hd] Hv] & Hge) Hsub.
  assert (d < length σ) as Hlt by (by eapply lookup_lt_Some).
  split_and!; [done| |].
  - split.
    + rewrite list_lookup_insert_eq by done. eauto.
    + unfold items_of at 1. rewrite list_lookup_insert_eq by done.
      intros k l Hkl. destruct (Hv k l (Hsub k l Hkl)) as [lines Hl].
      exists lines. rewrite list_lookup_insert_ne; [done|]. congruence.
  - unfold items_of at 1. rewrite list_lookup_insert_eq by done.
    intros k l Hkl. by apply (Hge k l), Hsub.
Qed.

Lemma made_after_set_item n σ d name lines :
  made_after n σ d →
  made_after n (<[d := ODict (dict_set name (length σ) (items_of (σ ++ [OList lines]) d))]>
                  (σ ++ [OList lines])) d.
Proof.
  intros (Hn & [[items Hd] Hv] & Hge).
  assert (d < length σ) as Hlt by (by eapply lookup_lt_Some).
  assert (items_of (σ ++ [OList lines]) d = items_of σ d) as ->
    by (unfold items_of; by rewrite lookup_app_l).
  assert (d < length (σ ++ [OList lines])) as Hlt'
    by (rewrite length_app; lia).
  split_and!; [done| |].
  - split.
    + rewrite list_lookup_insert_eq by done. eauto.
    + unfold items_of at 1. rewrite list_lookup_insert_eq by done.
      intros k l [Heq|Hin]%elem_of_dict_set.
      * injection Heq as -> ->. exists lines.
        rewrite list_lookup_insert_ne by lia.
        by rewrite lookup_app_r, Nat.sub_diag.
      * destruct (Hv k l Hin) as [lines' Hl]. exists lines'.
        rewrite list_lookup_insert_ne by congruence.
        by apply lookup_app_l_Some.
  - unfold items_of at 1. rewrite list_lookup_insert_eq by done.
    intros k l [Heq|Hin]%elem_of_dict_set.
    + injection Heq as -> ->. lia.
    + by apply (Hge k l).
Qed.

Lemma mutate_made_after n σ d m :
  made_after n σ d →
  made_after n (mutate d m σ) d ∧ prefix_kept n σ (mutate d m σ).
Proof.
  intros Hm. pose proof Hm as (Hn & [[items Hd] Hv] & Hge).
  assert (d < length σ) as Hlt by (by eapply lookup_lt_Some).
  destruct m as [name lines|name lines|name|]; simpl.
  - split; [by apply made_after_set_item|].
    intros i Hi. rewrite list_lookup_insert_ne by lia.
    apply lookup_app_l. lia.
  - destruct (dict_get name (items_of σ d)) as [l|] eqn:Hget.
    + assert ((name, l) ∈ items_of σ d) as Hin.
      { clear -Hget. induction (items_of σ d) as [|[k v] items IH]; [done|].
        simpl in Hget. case_bool_decide; simplify_eq; [left|right; auto]. }
      destruct (Hv name l Hin) as [old Hl].
      assert (l ≠ d) as Hne by congruence.
      assert (items_of (<[l:=OList (list_lines σ l ++ lines)]> σ) d = items_of σ d)
        as Hsame by (unfold items_of; by rewrite list_lookup_insert_ne).
      split.
      * split_and!; [done| |].
        -- split.
           ++ rewrite list_lookup_insert_ne by done. eauto.
           ++ rewrite Hsame. intros k l' Hkl.
              destruct (decide (l' = l)) as [->|Hne'].
              ** rewrite list_lookup_insert_eq by (by eapply lookup_lt_Some). eauto.
              ** rewrite list_lookup_insert_ne by done. by apply (Hv k).
        -- rewrite Hsame. done.
      * intros i Hi. rewrite list_lookup_insert_ne; [done|].
        specialize (Hge name l Hin). lia.
    + split; [by apply made_after_set_item|].
      intros i Hi. rewrite list_lookup_insert_ne by lia.
      apply lookup_app_l. lia.
  - split.
    + apply made_after_insert_dict; [done|]. intros k l. apply elem_of_dict_del.
    + by apply prefix_kept_insert.
  - split.
    + apply made_after_insert_dict; [done|]. intros k l Hin. by apply elem_of_nil in Hin.
    + by apply prefix_kept_insert.
Qed.

Lemma mutate_all_made_after n ms : ∀ σ d,
  made_after n σ d →
  made_after n (mutate_all d ms σ) d ∧ prefix_kept n σ (mutate_all d ms σ).
Proof.
  induction ms as [|m ms IH]; intros σ d Hm; simpl.
  - split; [done|]. apply prefix_kept_refl.
  - destruct (mutate_made_after n σ d m Hm) as [Hm' Hk].
    destruct (IH _ d Hm') as [Hm'' Hk']. split; [done|].
    by eapply prefix_kept_trans.
Qed.

Lemma copy_is_independent σ d0 d σ1 ms other :
  valid_dict σ d0 → valid_dict σ other → deepcopy d0 σ = (d, σ1) →
  d ≠ d0 ∧ snapshot σ1 d = snapshot σ d0 ∧
  snapshot (mutate_all d ms σ1) d0 = snapshot σ d0 ∧
  snapshot (mutate_all d ms σ1) other = snapshot σ other.
Proof.
  intros Hv Hother Hcopy.
  destruct (deepcopy_spec σ d0 d σ1 Hv Hcopy) as (Hk & Hm & Hsnap).
  destruct (mutate_all_made_after (length σ) ms σ1 d Hm) as [_ Hk'].
  pose proof (prefix_kept_trans _ _ _ _ Hk Hk') as Hk''.
  split_and!; [|done|by apply snapshot_prefix_kept..].
  destruct Hm as (Hge & _). destruct Hv as [[items Hd] _].
  apply lookup_lt_Some in Hd. lia.
Qed.

Lemma valid_dict_mutate σ d m other :
  valid_dict σ d → valid_dict σ other → valid_dict (mutate d m σ) other.
Proof.
  intros Hd Hother.
  assert (made_after 0 σ d) as Hm by (split_and!; [lia|done|intros; lia]).
  destruct (decide (other = d)) as [->|Hne].
  { by destruct (mutate_made_after 0 σ d m Hm) as [(_ & ? & _) _]. }
  destruct Hd as [[items Hdi] Hdv]. destruct Hother as [[items' Hoi] Hov].
  assert (d < length σ) as Hlt by (by eapply lookup_lt_Some).
  assert (∀ σ' o, valid_dict σ' other → σ' !! d = Some (ODict items) →
            valid_dict (<[d := ODict o]> σ') other) as Hins.
  { intros σ' o [[its Hi] Hv] Hd'. unfold valid_dict, items_of in *.
    rewrite list_lookup_insert_ne by done. rewrite Hi in *.
    split; [eauto|]. intros k l Hkl. destruct (Hv k l Hkl) as [lines Hl].
    exists lines. rewrite list_lookup_insert_ne; [done|]. congruence. }
  assert (valid_dict σ other) as Hother' by (split; eauto).
  destruct m as [name lines|name lines|name|]; simpl.
  - apply Hins; [by apply valid_dict_app|by apply lookup_app_l_Some].
  - destruct (dict_get name (items_of σ d)) as [l|] eqn:Hget.
    + assert ((name, l) ∈ items_of σ d) as Hin.
      { clear -Hget. induction (items_of σ d) as [|[k v] its IH]; [done|].
        simpl in Hget. case_bool_decide; simplify_eq; [left|right; auto]. }
      destruct (Hdv name l Hin) as [old Hl].
      unfold valid_dict, items_of in *.
      rewrite list_lookup_insert_ne by congruence. rewrite Hoi in *.
      split; [eauto|]. intros k l' Hkl.
      destruct (decide (l' = l)) as [->|Hne'].
      * rewrite list_lookup_insert_eq by (by eapply lookup_lt_Some). eauto.
      * rewrite list_lookup_insert_ne by done. by apply (Hov k).
    + apply Hins; [by apply valid_dict_app|by apply lookup_app_l_Some].
  - by apply Hins.
  - by apply Hins.
Qed.

Lemma StepPresentation_init_valid σ :
  valid_presentation (StepPresentation_init σ).2 (StepPresentation_init σ).1 ∧
  _finalized (StepPresentation_init σ).1 = false ∧
  _status (StepPresentation_init σ).1 = None.
Proof.
  unfold StepPresentation_init, valid_presentation, valid_dict, items_of. simpl.
  split_and!; try done.
  - rewrite lookup_app_l by (rewrite length_app; simpl; lia).
    rewrite lookup_app_r, Nat.sub_diag by done. simpl. eauto.
  - rewrite lookup_app_l by (rewrite length_app; simpl; lia).
    rewrite lookup_app_r, Nat.sub_diag by done. simpl.
    intros k l Hin. by apply elem_of_nil in Hin.
  - rewrite lookup_app_r by (rewrite length_app; simpl; lia).
    rewrite length_app. simpl. replace (_ + 1 - _) with 0 by lia. simpl. eauto.
  - rewrite lookup_app_r by (rewrite length_app; simpl; lia).
    rewrite length_app. simpl. replace (_ + 1 - _) with 0 by lia. simpl.
    intros k l Hin. by apply elem_of_nil in Hin.
Qed.

Lemma valid_dict_prefix_kept σ σ' d :
  valid_dict σ d → prefix_kept (length σ) σ σ' → valid_dict σ' d.
Proof.
  intros [[items Hd] Hv] Hk. unfold valid_dict, items_of in *.
  assert (d < length σ) as Hlt by (by eapply lookup_lt_Some).
  rewrite (Hk d Hlt). rewrite Hd in *. split; [eauto|].
  intros k l Hkl. destruct (Hv k l Hkl) as [lines Hl]. exists lines.
  rewrite Hk; [done|]. by eapply lookup_lt_Some.
Qed.

(** A read of [logs] or [perf_logs] followed by a change of what was read
    leaves a presentation valid. *)
Lemma read_and_mutate_valid σ p d0 m :
  valid_presentation σ p → (d0 = _logs p ∨ d0 = _perf_logs p) →
  valid_presentation
    (mutate (if _finalized p then deepcopy d0 σ else (d0, σ)).1 m
            (if _finalized p then deepcopy d0 σ else (d0, σ)).2) p.
Proof.
  intros [Hl Hp] Hd0.
  assert (valid_dict σ d0) as Hv by (by destruct Hd0 as [->| ->]).
  destruct (_finalized p); simpl.
  - destruct (deepcopy d0 σ) as [d σ1] eqn:Hcopy. simpl.
    destruct (deepcopy_spec σ d0 d σ1 Hv Hcopy) as (Hk & Hm & _).
    destruct (mutate_made_after (length σ) σ1 d m Hm) as [_ Hk'].
    pose proof (prefix_kept_trans _ _ _ _ Hk Hk') as Hk''.
    split; by eapply valid_dict_prefix_kept.
  - split; by apply valid_dict_mutate.
Qed.

Lemma act_spec a p σ p' σ' :
  valid_presentation σ p → act a p σ = Ok (p', σ') →
  valid_presentation σ' p' ∧ _finalized p' = _finalized p ∧
  _status p' = status_after (_status p) [a].
Proof.
  intros Hv Hact. destruct a as [val|val|val|m|m]; simpl in Hact.
  - unfold set_status, assert in Hact.
    destruct (_finalized p) eqn:Hf; [done|]. simpl in Hact.
    case_bool_decide; [|done]. simpl in Hact. by simplify_eq.
  - unfold set_step_text, assert in Hact.
    destruct (_finalized p) eqn:Hf; [done|]. simpl in Hact. by simplify_eq.
  - unfold set_step_summary_text, assert in Hact.
    destruct (_finalized p) eqn:Hf; [done|]. simpl in Hact. by simplify_eq.
  - unfold logs in Hact.
    pose proof (read_and_mutate_valid σ p (_logs p) m Hv (or_introl eq_refl)) as Hv'.
    destruct (if _finalized p then deepcopy (_logs p) σ else (_logs p, σ)) as [d σ1].
    by simplify_eq.
  - unfold perf_logs in Hact.
    pose proof (read_and_mutate_valid σ p (_perf_logs p) m Hv (or_intror eq_refl)) as Hv'.
    destruct (if _finalized p then deepcopy (_perf_logs p) σ else (_perf_logs p, σ)) as [d σ1].
    by simplify_eq.
Qed.

Lemma status_after_app start acts1 acts2 :
  status_after start (acts1 ++ acts2) = status_after (status_after start acts1) acts2.
Proof. apply foldl_app. Qed.

Lemma act_all_spec acts : ∀ p σ p' σ',
  valid_presentation σ p → act_all acts p σ = Ok (p', σ') →
  valid_presentation σ' p' ∧ _finalized p' = _finalized p ∧
  _status p' = status_after (_status p) acts.
Proof.
  induction acts as [|a acts IH]; intros p σ p' σ' Hv Hact; simpl in Hact.
  - by simplify_eq.
  - destruct (act a p σ) as [[p1 σ1]|e] eqn:Ha; [|done]. simpl in Hact.
    destruct (act_spec a p σ p1 σ1 Hv Ha) as (Hv1 & Hf1 & Hs1).
    destruct (IH p1 σ1 p' σ' Hv1 Hact) as (Hv' & Hf' & Hs').
    split_and!; [done|congruence|]. rewrite Hs', Hs1. done.
Qed.

Lemma act_all_app acts1 acts2 p σ :
  act_all (acts1 ++ acts2) p σ =
  '(p, σ) ← act_all acts1 p σ; act_all acts2 p σ.
Proof.
  revert p σ. induction acts1 as [|a acts1 IH]; intros p σ; simpl; [done|].
  destruct (act a p σ) as [[p1 σ1]|e]; simpl; [apply IH|done].
Qed.

Lemma finish_placeholders_acts items test_datum : ∀ p σ data p' σ' data',
  finish_placeholders items test_datum p σ data = Ok (p', σ', data') →
  act_all (placeholder ← items; (step_finished placeholder test_datum).1) p σ
    = Ok (p', σ').
Proof.
  induction items as [|ph items IH]; intros p σ data p' σ' data' H; simpl in H.
  - by simplify_eq.
  - destruct (step_finished ph test_datum) as [acts attrs] eqn:Hph.
    destruct (act_all acts p σ) as [[p1 σ1]|e] eqn:Ha; [|done]. simpl in H.
    change (placeholder ← ph :: items; (step_finished placeholder test_datum).1)
      with ((step_finished ph test_datum).1 ++
            (placeholder ← items; (step_finished placeholder test_datum).1)).
    rewrite act_all_app, Hph. simpl. rewrite Ha. simpl. by eapply IH.
Qed.

Lemma call_placeholders_acts placeholders test_data : ∀ p σ p' σ' added,
  call_placeholders placeholders test_data p σ = Ok (p', σ', added) →
  act_all (placeholder_actions placeholders test_data) p σ = Ok (p', σ').
Proof.
  induction placeholders as [|[api items] phs IH]; intros p σ p' σ' added H;
    simpl in H.
  - by simplify_eq.
  - destruct (finish_placeholders items _ p σ []) as [[[p1 σ1] obj]|e] eqn:Hf;
      [|done]. simpl in H.
    destruct (call_placeholders phs test_data p1 σ1) as [[[p2 σ2] adds]|e] eqn:Hc;
      [|done]. simpl in H. simplify_eq.
    unfold placeholder_actions.
    change (act_all
              ((placeholder ← items;
                (step_finished placeholder (api_test_data test_data api)).1) ++
               placeholder_actions phs test_data) p σ = Ok (p', σ')).
    rewrite act_all_app. rewrite (finish_placeholders_acts _ _ _ _ _ _ _ _ Hf).
    simpl. by eapply IH.
Qed.

Lemma finalize_spec p σ :
  _finalized (finalize p σ).1.1 = true ∧
  _status (finalize p σ).1.1 = _status p ∧
  _step_text (finalize p σ).1.1 = _step_text p ∧
  _step_summary_text (finalize p σ).1.1 = _step_summary_text p ∧
  _logs (finalize p σ).1.1 = _logs p ∧
  _perf_logs (finalize p σ).1.1 = _perf_logs p.
Proof.
  unfold finalize. repeat match goal with
    | |- context [let '(_, _) := ?x in _] => destruct x
    end. done.
Qed.

(** ** step_callback *)

Lemma step_callback_Ok s followup placeholders tdi retcode w r w' :
  step_callback s followup placeholders tdi retcode w = Ok (r, w') →
  ∃ given r0,
    _retcode given = retcode ∧ _step given = s ∧
    _status (_presentation given)
      = status_after (default_status retcode) (placeholder_actions placeholders tdi) ∧
    _status (_presentation r)
      = status_after (_status (_presentation given))
          (if followup is Some f then f given else []) ∧
    _retcode r = retcode ∧ _step r = s ∧ _finalized (_presentation r) = true ∧
    step_history w' = dict_set (name s) r (dict_set (name s) r0 (step_history w)).
Proof.
  unfold step_callback. intros H.
  destruct (StepPresentation_init_valid (objects w)) as (Hv0 & Hf0 & Hs0).
  destruct (StepPresentation_init (objects w)) as [p0 σ0]. simpl in *.
  assert (∃ p1, (if bool_decide (retcode > 0)%Z then set_status "FAILURE" p0 else Ok p0)
                  = Ok p1 ∧ valid_presentation σ0 p1 ∧
                _status p1 = default_status retcode) as (p1 & Hp1 & Hv1 & Hs1).
  { unfold default_status. case_bool_decide.
    - unfold set_status. rewrite Hf0. simpl. eexists. by split_and!.
    - eexists. by split_and!. }
  rewrite Hp1 in H. simpl in H.
  destruct (call_placeholders placeholders tdi p1 σ0) as [[[p2 σ2] added]|e] eqn:Hc;
    [|done]. simpl in H.
  apply call_placeholders_acts in Hc.
  destruct (act_all_spec _ _ _ _ _ Hv1 Hc) as (Hv2 & Hf2 & Hs2).
  set (given := {| _retcode := retcode; _step := s; _presentation := p2;
                   additions := added |}) in *.
  assert (∃ p3 σ3, (if followup is Some f then act_all (f given) p2 σ2 else Ok (p2, σ2))
                     = Ok (p3, σ3) ∧
                   _status p3 = status_after (_status p2)
                                  (if followup is Some f then f given else []))
    as (p3 & σ3 & Hp3 & Hs3).
  { destruct followup as [f|].
    - destruct (act_all (f given) p2 σ2) as [[p3 σ3]|e] eqn:Ha; [|done].
      destruct (act_all_spec _ _ _ _ _ Hv2 Ha) as (_ & _ & Hs3). eauto.
    - eauto. }
  rewrite Hp3 in H. simpl in H.
  destruct (finalize_spec p3 σ3) as (Hfin & Hst & _).
  destruct (finalize p3 σ3) as [[p4 σ4] told]. simpl in *.
  injection H as <- <-. simpl.
  eexists given, _. split_and!; try done.
  - simpl. by rewrite Hs2, Hs1.
  - by rewrite Hst, Hs3.
Qed.

Lemma step_callback_plain s tdi retcode w :
  ∃ r w', step_callback s None [] tdi retcode w = Ok (r, w') ∧
          _status (_presentation r) = default_status retcode.
Proof.
  unfold step_callback, default_status.
  destruct (StepPresentation_init_valid (objects w)) as (_ & Hf0 & Hs0).
  destruct (StepPresentation_init (objects w)) as [p0 σ0]. simpl in *.
  case_bool_decide.
  - unfold set_status. rewrite Hf0. simpl.
    match goal with |- context [finalize ?p ?σ] =>
      destruct (finalize_spec p σ) as (_ & Hst & _);
      destruct (finalize p σ) as [[p4 σ4] told] end.
    simpl in *. eauto.
  - simpl.
    match goal with |- context [finalize ?p ?σ] =>
      destruct (finalize_spec p σ) as (_ & Hst & _);
      destruct (finalize p σ) as [[p4 σ4] told] end.
    simpl in *. eexists _, _. split; [done|]. simpl. congruence.
Qed.

(** ** The step history *)

Lemma dict_set_new {A} (k : string) (v : A) d :
  dict_has k d = false → dict_set k v d = d ++ [(k, v)].
Proof.
  unfold dict_has. induction d as [|[k' v'] d IH]; simpl; [done|].
  destruct (decide (k' = k)) as [Hk|Hk].
  - rewrite !(bool_decide_eq_true_2 _ Hk).
    intros H. apply bool_decide_eq_false in H. destruct H. eauto.
  - rewrite !(bool_decide_eq_false_2 _ Hk). intros H. by rewrite IH.
Qed.

Lemma dict_set_last {A} (k : string) (v v0 : A) d :
  dict_has k d = false → dict_set k v (d ++ [(k, v0)]) = d ++ [(k, v)].
Proof.
  unfold dict_has. induction d as [|[k' v'] d IH]; simpl.
  - by rewrite bool_decide_eq_true_2.
  - destruct (decide (k' = k)) as [Hk|Hk].
    + rewrite !(bool_decide_eq_true_2 _ Hk).
      intros H. apply bool_decide_eq_false in H. destruct H. eauto.
    + rewrite !(bool_decide_eq_false_2 _ Hk). intros H. by rewrite IH.
Qed.

Lemma dict_has_app_ne {A} (k k0 : string) (v : A) d :
  k ≠ k0 → dict_has k (d ++ [(k0, v)]) = dict_has k d.
Proof.
  intros Hne. unfold dict_has.
  assert (dict_get k (d ++ [(k0, v)]) = dict_get k d) as ->; [|done].
  induction d as [|[k' v'] d IH]; simpl.
  - by rewrite bool_decide_eq_false_2.
  - by rewrite IH.
Qed.

Lemma render_cmd_name_free cmd td phs :
  (∀ item, item ∈ cmd → ∃ a, item = Arg a) → (render_cmd cmd td phs).2 = phs.
Proof.
  induction cmd as [|item cmd IH]; intros Hargs; simpl; [done|].
  destruct (Hargs item) as [a ->]; [left|].
  assert ((render_cmd cmd td phs).2 = phs) as Hrec
    by (apply IH; intros i Hi; apply Hargs; by right).
  destruct (render_cmd cmd td phs) as [new_cmd phs']. done.
Qed.

Lemma render_step_spec s td :
  name (render_step s td).1 = name s ∧
  ((∀ item, item ∈ cmd s → ∃ a, item = Arg a) → (render_step s td).2 = []).
Proof.
  unfold render_step.
  pose proof (render_cmd_name_free (cmd s) td []) as Hfree.
  destruct (render_cmd (cmd s) td []) as [new_cmd phs]. simpl in *. auto.
Qed.

Section History.
Variable run_command : step_dict → Z.
Variable update_build_failure : bool → Z → step_dict → bool.
Variable stream_lines : list annotation → list string.
Variable iteritems : list (string * list Placeholder) → list (string * list Placeholder).

(** Whatever the order of iteration is, it goes over the pairs of the dict. *)
Hypothesis iteritems_perm : ∀ d, iteritems d ≡ₚ d.

Local Abbreviation run_step :=
  (run_step run_command update_build_failure stream_lines iteritems).
Local Abbreviation run_loop :=
  (run_loop run_command update_build_failure stream_lines iteritems).

Lemma iteritems_nil : iteritems [] = [].
Proof. apply Permutation_nil_r, iteritems_perm. Qed.

(** The assertion on the name comes before anything of the step is run: the
    step raises it whatever its command, placeholders and callback are. *)
Lemma run_step_duplicate s st :
  dict_has (step_name s) (step_history (shared st)) = true →
  run_step s st
  = Raise (AssertionError
             ("Step " +:+ dquote +:+ step_name s +:+ dquote +:+
              " is already in step_history!")).
Proof.
  intros Hdup. unfold AnnotatedRun.run_step.
  destruct (render_step_spec (fields s)
              (td ← pending_test_data st;
               Some (default {| R := None; api_data := [] |}
                       (dict_get (name (fields s)) td)))) as [Hname _].
  destruct (render_step _ _) as [rendered phs]. simpl in *.
  rewrite Hname. unfold step_name in *. rewrite Hdup. reflexivity.
Qed.

Lemma run_step_Ok s st st' :
  run_step s st = Ok st' →
  dict_has (step_name s) (step_history (shared st)) = false ∧
  ∃ r, step_history (shared st') = step_history (shared st) ++ [(step_name s, r)] ∧
       name (_step r) = step_name s.
Proof.
  unfold AnnotatedRun.run_step. intros H.
  destruct (render_step_spec (fields s)
              (td ← pending_test_data st;
               Some (default {| R := None; api_data := [] |}
                       (dict_get (name (fields s)) td)))) as [Hname _].
  destruct (render_step _ _) as [rendered phs]. simpl in *.
  rewrite Hname in *. fold (step_name s) in *.
  destruct (dict_has (step_name s) (step_history (shared st))) eqn:Hhas; [done|].
  split; [done|]. simpl in H.
  destruct (pending_test_data st) as [td|]; simpl in H.
  - destruct (step_callback rendered (followup_fn s) (iteritems phs) _ _ (shared st))
      as [[r w']|e] eqn:Hcb; [|done]. simpl in H.
    apply step_callback_Ok in Hcb
      as (given & r0 & _ & _ & _ & _ & _ & Hstep & _ & Hhist).
    rewrite Hname in Hhist. fold (step_name s) in Hhist.
    rewrite (dict_set_new _ r0 _ Hhas), (dict_set_last _ r r0 _ Hhas) in Hhist.
    case_bool_decide; simpl in H; simplify_eq; simpl.
    + eauto.
    + rewrite Hhist, (dict_set_last _ _ r _ Hhas). eexists. split; [done|].
      done.
  - destruct (step_callback rendered (followup_fn s) (iteritems phs) None _ (shared st))
      as [[r w']|e] eqn:Hcb; [|done]. simpl in H.
    apply step_callback_Ok in Hcb
      as (given & r0 & _ & _ & _ & _ & _ & Hstep & _ & Hhist).
    rewrite Hname in Hhist. fold (step_name s) in Hhist.
    rewrite (dict_set_new _ r0 _ Hhas), (dict_set_last _ r r0 _ Hhas) in Hhist.
    simplify_eq. simpl. eauto.
Qed.

Lemma run_step_plain s st :
  plain s → dict_has (step_name s) (step_history (shared st)) = false →
  ∃ st', run_step s st = Ok st'.
Proof.
  intros [Hf Hargs] Hhas. unfold AnnotatedRun.run_step.
  destruct (render_step_spec (fields s)
              (td ← pending_test_data st;
               Some (default {| R := None; api_data := [] |}
                       (dict_get (name (fields s)) td)))) as [Hname Hphs].
  specialize (Hphs Hargs).
  destruct (render_step _ _) as [rendered phs]. simpl in *. subst phs.
  rewrite iteritems_nil.
  rewrite Hname. fold (step_name s). rewrite Hhas, Hf. simpl.
  destruct (pending_test_data st) as [td|]; simpl.
  - match goal with |- context [step_callback ?a None [] ?b ?c ?d] =>
      destruct (step_callback_plain a b c d) as (r & w' & -> & _) end.
    simpl. case_bool_decide; simpl; eauto.
  - match goal with |- context [step_callback ?a None [] ?b ?c ?d] =>
      destruct (step_callback_plain a b c d) as (r & w' & -> & _) end.
    simpl. eauto.
Qed.

Lemma run_loop_history steps : ∀ st st',
  run_loop steps st = Ok st' →
  ∃ rs, length rs = length steps ∧
    step_history (shared st') =
      step_history (shared st) ++ zip (step_name <$> steps) rs ∧
    Forall2 (λ s r, name (_step r) = step_name s) steps rs.
Proof.
  induction steps as [|s steps IH]; intros st st' H; simpl in H.
  - simplify_eq. exists []. by rewrite app_nil_r.
  - destruct (run_step s st) as [st1|e] eqn:Hs; [|done]. simpl in H.
    apply run_step_Ok in Hs as (_ & r & Hh & Hr).
    destruct (IH st1 st' H) as (rs & Hlen & Hh' & Hall).
    exists (r :: rs). split_and!; simpl.
    + by rewrite Hlen.
    + rewrite Hh', Hh, <-app_assoc. done.
    + by constructor.
Qed.

Lemma run_loop_plain steps : ∀ st,
  NoDup (step_name <$> steps) → Forall plain steps →
  (∀ s, s ∈ steps → dict_has (step_name s) (step_history (shared st)) = false) →
  ∃ st', run_loop steps st = Ok st'.
Proof.
  induction steps as [|s steps IH]; intros st Hnd Hplain Hfresh; simpl.
  - eauto.
  - apply NoDup_cons in Hnd as [Hnotin Hnd].
    apply Forall_cons in Hplain as [Hs Hplain].
    destruct (run_step_plain s st Hs) as [st1 Hst1]; [apply Hfresh; left|].
    rewrite Hst1. simpl. apply IH; [done..|].
    intros s' Hin.
    apply run_step_Ok in Hst1 as (_ & r & -> & _).
    assert (dict_has (step_name s') (step_history (shared st)) = false) as Hf'
      by (apply Hfresh; by right).
    assert (step_name s' ≠ step_name s) as Hne.
    { intros Heq. apply Hnotin. rewrite <-Heq. by apply list_elem_of_fmap_2. }
    by rewrite dict_has_app_ne.
Qed.

End History.

End AnnotatedRunFacts.

(** * Facts about the property bag *)
Module PropertiesFacts.
Import Py Properties.

Lemma pyobj_induction (P : pyobj → Prop) :
  P PNone → (∀ b, P (PBool b)) → (∀ n, P (PInt n)) → (∀ s, P (PStr s)) →
  (∀ items, Forall P items → P (PList items)) →
  (∀ items, Forall (λ kv, P kv.2) items → P (PDict items)) →
  (∀ items, Forall P items → P (PTuple items)) →
  (∀ items, Forall (λ kv, P kv.2) items → P (PImmutibleMapping items)) →
  (∀ h r, P (PObject h r)) →
  ∀ v, P v.
Proof.
  intros Hnone Hbool Hint Hstr Hlist Hdict Htuple Hmap Hobj. fix IH 1.
  intros [|b|n|s|items|items|items|items|h r].
  - exact Hnone.
  - apply Hbool.
  - apply Hint.
  - apply Hstr.
  - apply Hlist. induction items as [|x items IHi]; constructor.
    + apply IH.
    + exact IHi.
  - apply Hdict. induction items as [|[k x] items IHi]; constructor.
    + apply IH.
    + exact IHi.
  - apply Htuple. induction items as [|x items IHi]; constructor.
    + apply IH.
    + exact IHi.
  - apply Hmap. induction items as [|[k x] items IHi]; constructor.
    + apply IH.
    + exact IHi.
  - apply Hobj.
Qed.

(** ** Dicts *)

Lemma dict_get_set {A} (k k0 : string) (v : A) d :
  dict_get k (dict_set k0 v d) = if bool_decide (k0 = k) then Some v else dict_get k d.
Proof.
  induction d as [|[k' v'] d IH]; simpl; [done|].
  destruct (decide (k' = k0)) as [->|Hne].
  - rewrite bool_decide_eq_true_2 by done. simpl. by case_bool_decide.
  - rewrite (bool_decide_eq_false_2 (k' = k0)) by done. simpl. rewrite IH.
    repeat case_bool_decide; congruence.
Qed.


Lemma dict_get_None {A} (k : string) (d : list (string * A)) :
  k ∉ d.*1 → dict_get k d = None.
Proof.
  induction d as [|[k' v'] d IH]; simpl; [done|].
  intros Hnotin. apply not_elem_of_cons in Hnotin as [Hne Hnotin].
  rewrite bool_decide_eq_false_2 by done. auto.
Qed.


Lemma dict_set_keys_NoDup {A} (k : string) (v : A) d :
  NoDup d.*1 → NoDup (dict_set k v d).*1.
Proof.
  induction d as [|[k' v'] d IH]; simpl; intros Hnd.
  - apply NoDup_singleton.
  - apply NoDup_cons in Hnd as [Hnotin Hnd]. case_bool_decide; simpl.
    + subst. by apply NoDup_cons.
    + apply NoDup_cons. split; [|by apply IH].
      intros Hin. apply list_elem_of_fmap in Hin as ([k2 v2] & -> & Hin).
      apply AnnotatedRunFacts.elem_of_dict_set in Hin as [Heq|Hin].
      * by injection Heq as -> ->.
      * apply Hnotin. by apply (list_elem_of_fmap_2 fst) in Hin.
Qed.



(** ** freeze *)

Lemma mapM_cons {A B} (f : A → result B) x l :
  mapM f (x :: l) = y ← f x; rest ← mapM f l; Ok (y :: rest).
Proof. done. Qed.


Lemma mapM_values_get {A B} (f : A → result B) items data k v :
  mapM_values f items = Ok data → dict_get k items = Some v →
  ∃ v', f v = Ok v' ∧ dict_get k data = Some v'.
Proof.
  unfold mapM_values. revert data.
  induction items as [|[k0 x] items IH]; intros data Hm Hget; [done|].
  rewrite mapM_cons in Hm. simpl in Hm, Hget.
  destruct (f x) as [x'|e] eqn:Hx; [|done]. simpl in Hm.
  destruct (mapM _ items) as [rest|e] eqn:Hrest; [|done]. simpl in Hm.
  simplify_eq. simpl. case_bool_decide; simplify_eq; eauto.
Qed.






End PropertiesFacts.

(** * The claims about the step engine and the property bag *)
Module EngineClaims.
Import Py Properties AnnotatedRun AnnotatedRunFacts PropertiesFacts.



Lemma finalized_setters_raise p :
  _finalized p = true →
  (∀ val, ∃ msg, set_status val p = Raise (AssertionError msg)) ∧
  (∀ val, ∃ msg, set_step_text val p = Raise (AssertionError msg)) ∧
  (∀ val, ∃ msg, set_step_summary_text val p = Raise (AssertionError msg)).
Proof.
  intros Hf. unfold set_status, set_step_text, set_step_summary_text.
  rewrite Hf. simpl. split_and!; intros val; eauto.
Qed.

(** C6: on a presentation that is finalized, every setter (status,
    step_text, step_summary_text) raises; what [logs] and [perf_logs] return
    is a new dict with the same names and lines, and whatever is done to it
    afterwards, the presentation's own logs and perf logs read as before. *)
Theorem finalized_presentation_is_frozen (p : StepPresentation) (σ : list obj) :
  _finalized p = true → valid_presentation σ p →
  (∀ val, ∃ msg, set_status val p = Raise (AssertionError msg)) ∧
  (∀ val, ∃ msg, set_step_text val p = Raise (AssertionError msg)) ∧
  (∀ val, ∃ msg, set_step_summary_text val p = Raise (AssertionError msg)) ∧
  (∀ ms,
     (logs p σ).1 ≠ _logs p ∧
     snapshot (logs p σ).2 (logs p σ).1 = snapshot σ (_logs p) ∧
     snapshot (mutate_all (logs p σ).1 ms (logs p σ).2) (_logs p)
       = snapshot σ (_logs p) ∧
     snapshot (mutate_all (logs p σ).1 ms (logs p σ).2) (_perf_logs p)
       = snapshot σ (_perf_logs p)) ∧
  (∀ ms,
     (perf_logs p σ).1 ≠ _perf_logs p ∧
     snapshot (perf_logs p σ).2 (perf_logs p σ).1 = snapshot σ (_perf_logs p) ∧
     snapshot (mutate_all (perf_logs p σ).1 ms (perf_logs p σ).2) (_perf_logs p)
       = snapshot σ (_perf_logs p) ∧
     snapshot (mutate_all (perf_logs p σ).1 ms (perf_logs p σ).2) (_logs p)
       = snapshot σ (_logs p)).
Proof.
  intros Hf [Hl Hp].
  destruct (finalized_setters_raise p Hf) as (Hs1 & Hs2 & Hs3).
  split_and!; [done..| |]; intros ms.
  - unfold logs. rewrite Hf.
    destruct (deepcopy (_logs p) σ) as [d σ1] eqn:Hcopy. simpl.
    by apply copy_is_independent.
  - unfold perf_logs. rewrite Hf.
    destruct (deepcopy (_perf_logs p) σ) as [d σ1] eqn:Hcopy. simpl.
    by apply copy_is_independent.
Qed.

(** [finalize] leaves a valid presentation valid, and finalized. *)
Lemma finalize_valid p σ :
  valid_presentation σ p →
  _finalized (finalize p σ).1.1 = true ∧
  valid_presentation (finalize p σ).1.2 (finalize p σ).1.1 ∧
  snapshot (finalize p σ).1.2 (_logs p) = snapshot σ (_logs p) ∧
  snapshot (finalize p σ).1.2 (_perf_logs p) = snapshot σ (_perf_logs p).
Proof.
  intros [Hl Hp]. unfold finalize, logs, perf_logs, valid_presentation. simpl.
  destruct (deepcopy (_logs p) σ) as [d1 σ1] eqn:Hc1.
  destruct (deepcopy_spec _ _ _ _ Hl Hc1) as (Hk1 & _ & _).
  assert (valid_dict σ1 (_logs p)) as Hl1 by (by eapply valid_dict_prefix_kept).
  assert (valid_dict σ1 (_perf_logs p)) as Hp1 by (by eapply valid_dict_prefix_kept).
  destruct (deepcopy (_perf_logs p) σ1) as [d2 σ2] eqn:Hc2.
  destruct (deepcopy_spec _ _ _ _ Hp1 Hc2) as (Hk2 & _ & _).
  simpl. split_and!; [done|by eapply valid_dict_prefix_kept..| |].
  - rewrite (snapshot_prefix_kept σ1 σ2) by done. by apply snapshot_prefix_kept.
  - rewrite (snapshot_prefix_kept σ1 σ2) by done. by apply snapshot_prefix_kept.
Qed.

(** Before [finalize], [logs] is the presentation's own dict: a change made
    through it shows in the presentation. *)
Lemma unfinalized_logs_are_shared :
  let p := (StepPresentation_init []).1 in
  let σ := (StepPresentation_init []).2 in
  (logs p σ).1 = _logs p ∧
  snapshot (mutate (logs p σ).1 (SetItem "stdout" ["line"]) (logs p σ).2) (_logs p)
    = [("stdout", ["line"])].
Proof. split; reflexivity. Qed.

Lemma finalized_presentation_is_frozen_witness :
  snapshot
    (mutate_all
       (logs {| _finalized := true; _logs := 0; _perf_logs := 1; _status := None;
                _step_summary_text := None; _step_text := None |}
             [ODict [("stdout", 2)]; ODict []; OList ["line"]]).1
       [Extend "stdout" ["more"]; SetItem "new" ["x"]; DelItem "stdout"]
       (logs {| _finalized := true; _logs := 0; _perf_logs := 1; _status := None;
                _step_summary_text := None; _step_text := None |}
             [ODict [("stdout", 2)]; ODict []; OList ["line"]]).2)
    0
  = [("stdout", ["line"])].
Proof.
  destruct (finalized_presentation_is_frozen
              {| _finalized := true; _logs := 0; _perf_logs := 1; _status := None;
                 _step_summary_text := None; _step_text := None |}
              [ODict [("stdout", 2)]; ODict []; OList ["line"]])
    as (_ & _ & _ & Hlogs & _).
  - reflexivity.
  - split; (split; [eexists; reflexivity|]); simpl; intros k l Hin.
    + apply list_elem_of_singleton in Hin. injection Hin as -> ->.
      eexists. reflexivity.
    + by apply elem_of_nil in Hin.
  - destruct (Hlogs [Extend "stdout" ["more"]; SetItem "new" ["x"]; DelItem "stdout"])
      as (_ & _ & Hown & _).
    exact Hown.
Defined.

(** C3, as amended: a step result starts with the status FAILURE when the
    return code is positive and with no status when it is zero or negative;
    the statuses that the placeholders and then the follow-up callback set
    replace it, the last one standing.  With no placeholder and no callback
    the step result is built and ends with the status of its return code. *)
Theorem status_follows_return_code (s : step_dict)
    (followup : option (StepData → list action))
    (placeholders : list (string * list Placeholder))
    (test_data_item : option test_item) (code : Z) (w : world) :
  (∀ r w', step_callback s followup placeholders test_data_item code w = Ok (r, w') →
     ∃ given,
       retcode r = code ∧ retcode given = code ∧
       status (presentation given)
         = status_after (default_status code)
             (placeholder_actions placeholders test_data_item) ∧
       status (presentation r)
         = status_after (status (presentation given))
             (if followup is Some f then f given else [])) ∧
  (∃ r w', step_callback s None [] test_data_item code w = Ok (r, w') ∧
           status (presentation r) = default_status code) ∧
  ((code > 0)%Z → default_status code = Some "FAILURE") ∧
  ((code ≤ 0)%Z → default_status code = None).
Proof.
  split_and!.
  - intros r w' H.
    apply step_callback_Ok in H as (given & r0 & H1 & _ & H2 & H3 & H4 & _).
    exists given. by split_and!.
  - apply step_callback_plain.
  - intros Hpos. unfold default_status. by rewrite bool_decide_eq_true_2.
  - intros Hneg. unfold default_status. rewrite bool_decide_eq_false_2; [done|lia].
Qed.

Lemma status_follows_return_code_witness :
  (∃ r w',
     step_callback (fields (command_step "compile" "make"))
       (Some (λ _, [SetStatus "WARNING"])) [] None 1 new_world = Ok (r, w') ∧
     status (presentation r) = Some "WARNING") ∧
  default_status 3 = Some "FAILURE" ∧ default_status 0 = None.
Proof.
  destruct (status_follows_return_code (fields (command_step "compile" "make"))
              (Some (λ _, [SetStatus "WARNING"])) [] None 1 new_world)
    as (Hcb & _ & _ & _).
  destruct (status_follows_return_code (fields (command_step "compile" "make"))
              None [] None 3 new_world) as (_ & _ & Hpos & _).
  destruct (status_follows_return_code (fields (command_step "compile" "make"))
              None [] None 0 new_world) as (_ & _ & _ & Hzero).
  split; [|split; [apply Hpos; lia|apply Hzero; lia]].
  eexists _, _. split; [vm_compute; reflexivity|].
  edestruct Hcb as (given & _ & _ & _ & Hr); [vm_compute; reflexivity|].
  rewrite Hr. reflexivity.
Defined.

(** C3 as stated fails for a negative return code (that of a command
    killed by a signal): it is not zero, no callback sets a status, and the
    step result has no status. *)
Lemma negative_return_code_counterexample :
  ∃ r w',
    step_callback (fields (command_step "compile" "make")) None [] None (-9) new_world
      = Ok (r, w') ∧
    retcode r = (-9)%Z ∧ retcode r ≠ 0%Z ∧
    status (presentation r) = None ∧ status (presentation r) ≠ Some "FAILURE".
Proof.
  eexists _, _. split; [vm_compute; reflexivity|].
  split; [reflexivity|]. split; [discriminate|]. split; [reflexivity|discriminate].
Qed.

(** C7: a step whose name is in the step history already raises the
    AssertionError 'Step "<name>" is already in step_history!' of
    [run_steps].  It is raised before anything of the step is run or
    recorded: the result is this exception whatever the command, the
    placeholders and the follow-up callback of the step are, also when they
    would raise themselves.  A run of steps that raises nothing appends
    their names to the history in the order of the steps, which the n-th
    step and the last step of the history show; and steps with distinct new
    names, no callback and no placeholder do run without raising. *)
Theorem step_names_are_unique_and_in_order
    (run_command : step_dict → Z)
    (update_build_failure : bool → Z → step_dict → bool)
    (stream_lines : list annotation → list string)
    (iteritems : list (string * list Placeholder) → list (string * list Placeholder)) :
  (∀ s st,
     dict_has (step_name s) (step_history (shared st)) = true →
     run_step run_command update_build_failure stream_lines iteritems s st
     = Raise (AssertionError
                ("Step " +:+ dquote +:+ step_name s +:+ dquote +:+
                 " is already in step_history!"))) ∧
  (∀ steps st st',
     run_loop run_command update_build_failure stream_lines iteritems steps st = Ok st' →
     (step_history (shared st')).*1
       = (step_history (shared st)).*1 ++ (step_name <$> steps) ∧
     (∀ i s, steps !! i = Some s →
        ∃ r, nth_step (length (step_history (shared st)) + i) (step_history (shared st'))
               = Some r ∧
             name (_step r) = step_name s) ∧
     (∀ s, last steps = Some s →
        ∃ r, last_step (step_history (shared st')) = Some r ∧
             name (_step r) = step_name s)) ∧
  (∀ steps st,
     (∀ d, iteritems d ≡ₚ d) →
     NoDup (step_name <$> steps) → Forall plain steps →
     (∀ s, s ∈ steps → dict_has (step_name s) (step_history (shared st)) = false) →
     ∃ st', run_loop run_command update_build_failure stream_lines iteritems steps st
            = Ok st').
Proof.
  split_and!.
  - apply run_step_duplicate.
  - intros steps st st' Hrun.
    apply run_loop_history in Hrun as (rs & Hlen & Hh & Hall).
    assert (length (step_name <$> steps) = length rs) as Hlen'
      by (by rewrite length_fmap).
    split_and!.
    + rewrite Hh, fmap_app. f_equal. by apply fst_zip; lia.
    + intros i s Hi. unfold nth_step. rewrite Hh.
      rewrite lookup_app_r by lia.
      replace (length (step_history (shared st)) + i - length (step_history (shared st)))
        with i by lia.
      destruct (Forall2_lookup_l _ _ _ _ _ Hall Hi) as (r & Hr & Hname).
      exists r. split; [|done].
      rewrite lookup_zip_with. rewrite list_lookup_fmap, Hi. simpl.
      by rewrite Hr.
    + intros s Hlast. unfold last_step. rewrite Hh.
      rewrite last_lookup in Hlast.
      assert (pred (length steps) < length steps) as Hlt.
      { destruct steps; [done|simpl; lia]. }
      destruct (Forall2_lookup_l _ _ _ _ _ Hall Hlast) as (r & Hr & Hname).
      exists r. split; [|done].
      rewrite last_lookup, length_app, length_zip_with, length_fmap.
      replace (pred (length (step_history (shared st)) + length steps `min` length rs))
        with (length (step_history (shared st)) + pred (length steps)) by lia.
      rewrite lookup_app_r by lia.
      replace (length (step_history (shared st)) + pred (length steps)
               - length (step_history (shared st))) with (pred (length steps)) by lia.
      rewrite lookup_zip_with, list_lookup_fmap, Hlast. simpl. by rewrite Hr.
  - intros steps st Hperm. by apply run_loop_plain.
Qed.

Lemma step_names_are_unique_and_in_order_witness :
  (∃ st',
     run_loop (λ _, 0%Z) (λ failed _ _, failed) (λ _, []) id
       [command_step "sync" "gclient"; command_step "compile" "make"] (new_run None)
       = Ok st' ∧
     (step_history (shared st')).*1 = ["sync"; "compile"] ∧
     (∃ r, nth_step 1 (step_history (shared st')) = Some r ∧ name (_step r) = "compile") ∧
     (∃ r, last_step (step_history (shared st')) = Some r ∧ name (_step r) = "compile") ∧
     run_step (λ _, 0%Z) (λ failed _ _, failed) (λ _, []) id second_sync st'
     = Raise (AssertionError
                ("Step " +:+ dquote +:+ "sync" +:+ dquote +:+
                 " is already in step_history!"))) ∧
  ∃ msg,
    run_step (λ _, 0%Z) (λ failed _ _, failed) (λ _, []) id second_sync (new_run None)
    = Raise (AssertionError msg) ∧
    msg ≠ "Step " +:+ dquote +:+ "sync" +:+ dquote +:+ " is already in step_history!".
Proof.
  split; [|eexists; split; [vm_compute; reflexivity|vm_compute; discriminate]].
  destruct (step_names_are_unique_and_in_order
              (λ _, 0%Z) (λ failed _ _, failed) (λ _, []) id)
    as (Hdup & Horder & Hrun).
  destruct (Hrun [command_step "sync" "gclient"; command_step "compile" "make"]
              (new_run None)) as [st' Hst'].
  - done.
  - vm_compute. repeat constructor.
    + intros Hin. apply list_elem_of_singleton in Hin. discriminate.
    + intros Hin. by apply elem_of_nil in Hin.
  - repeat constructor; simpl; intros item Hin;
      apply list_elem_of_singleton in Hin; subst; eauto.
  - intros s _. reflexivity.
  - exists st'. split; [exact Hst'|].
    destruct (Horder _ _ _ Hst') as (Hkeys & Hnth & Hlast).
    split; [exact Hkeys|]. split; [apply (Hnth 1 (command_step "compile" "make")); reflexivity|].
    split; [apply (Hlast (command_step "compile" "make")); reflexivity|].
    apply (Hdup second_sync). unfold dict_has. apply bool_decide_eq_true.
    assert ("sync" ∈ (step_history (shared st')).*1) as Hin
      by (rewrite Hkeys; left).
    change (step_name second_sync) with "sync".
    clear -Hin. induction (step_history (shared st')) as [|[k v] h IH]; simpl in *.
    + by apply elem_of_nil in Hin.
    + apply elem_of_cons in Hin as [->|Hin].
      * rewrite bool_decide_eq_true_2 by done. eauto.
      * case_bool_decide; eauto.
Defined.




(** A property whose value is a dict: the ImmutibleMapping made of it does
    not pass the Hashable test of the enclosing mapping, and the view is
    not built. *)
Lemma dict_valued_property_raises :
  ∃ msg,
    PropertiesApi_init [("recipe", PStr "r"); ("env", PDict [("CC", PStr "clang")])]
      = Raise (AssertionError msg).
Proof. eexists. reflexivity. Qed.

End EngineClaims.
(** * Facts about the reports of the classifier *)
Module GTestReportFacts.
Import Re ReFacts GTest GTestFacts.

Lemma _StatusOfTest_entry self t status l :
  _test_status self !! t = Some (status, l) → _StatusOfTest self t = status.
Proof. unfold _StatusOfTest. by intros ->. Qed.

Lemma _StatusOfTest_known self t :
  _StatusOfTest self t ≠ "not known" → ∃ l, _test_status self !! t = Some (_StatusOfTest self t, l).
Proof.
  unfold _StatusOfTest. destruct (_test_status self !! t) as [[status l]|]; [eauto|done].
Qed.

Lemma elem_of_TestsByStatus self status include_fails include_flaky t :
  t ∈ _TestsByStatus self status include_fails include_flaky ↔
  (∃ l, _test_status self !! t = Some (status, l)) ∧
  (include_fails = true ∨ find "FAILS_" t = (-1)%Z) ∧
  (include_flaky = true ∨ find "FLAKY_" t = (-1)%Z).
Proof.
  assert (Hbase : t ∈ (filter (λ x, _StatusOfTest self x.1 = status)
                         (map_to_list (_test_status self))).*1 ↔
                  ∃ l, _test_status self !! t = Some (status, l)).
  { rewrite list_elem_of_fmap. split.
    - intros ([t' [status' l]] & -> & [Hs Hin%elem_of_map_to_list]%list_elem_of_filter).
      simpl in *. rewrite (_StatusOfTest_entry _ _ _ _ Hin) in Hs. subst. eauto.
    - intros [l Hl]. exists (t, (status, l)). split; [done|].
      apply list_elem_of_filter. split; [by apply (_StatusOfTest_entry _ _ _ l)|].
      by apply elem_of_map_to_list. }
  unfold _TestsByStatus.
  destruct include_fails, include_flaky; rewrite ?list_elem_of_filter, Hbase;
    intuition congruence.
Qed.

Lemma NoDup_TestsByStatus self status include_fails include_flaky :
  NoDup (_TestsByStatus self status include_fails include_flaky).
Proof.
  assert (NoDup (filter (λ x, _StatusOfTest self x.1 = status)
                   (map_to_list (_test_status self))).*1) as Hbase.
  { apply (sublist_NoDup _ (map_to_list (_test_status self)).*1).
    - apply NoDup_fst_map_to_list.
    - apply fmap_sublist, sublist_filter. }
  unfold _TestsByStatus.
  destruct include_fails, include_flaky; repeat apply NoDup_filter; done.
Qed.

Lemma elem_of_FailedTests self include_fails include_flaky t :
  t ∈ FailedTests self include_fails include_flaky ↔
  _StatusOfTest self t ∈ ["timeout"; "started"] ∨
  _StatusOfTest self t ∈ ["failed"; "warning"] ∧
  (include_fails = true ∨ find "FAILS_" t = (-1)%Z) ∧
  (include_flaky = true ∨ find "FLAKY_" t = (-1)%Z).
Proof.
  unfold FailedTests, RunningTests.
  rewrite !elem_of_app, !elem_of_TestsByStatus, !elem_of_cons, !elem_of_nil.
  split.
  - intros [([l Hl] & ? & ?)|[([l Hl] & _)|[([l Hl] & ? & ?)|([l Hl] & _)]]];
      rewrite (_StatusOfTest_entry _ _ _ _ Hl); eauto 10.
  - intros [[Hs|[Hs|[]]]|([Hs|[Hs|[]]] & ? & ?)];
      destruct (_StatusOfTest_known self t) as [l Hl]; try (by rewrite Hs);
      rewrite Hs in Hl; eauto 10.
Qed.


Lemma TestsByStatus_status self status include_fails include_flaky t :
  t ∈ _TestsByStatus self status include_fails include_flaky →
  _StatusOfTest self t = status.
Proof.
  intros ([l Hl] & _)%elem_of_TestsByStatus. by apply (_StatusOfTest_entry _ _ _ l).
Qed.

Lemma TestsByStatus_disjoint self status1 status2 fails1 flaky1 fails2 flaky2 t :
  status1 ≠ status2 →
  t ∈ _TestsByStatus self status1 fails1 flaky1 →
  t ∉ _TestsByStatus self status2 fails2 flaky2.
Proof.
  intros Hne H1%TestsByStatus_status H2%TestsByStatus_status. congruence.
Qed.

Lemma NoDup_FailedTests self include_fails include_flaky :
  NoDup (FailedTests self include_fails include_flaky).
Proof.
  unfold FailedTests, RunningTests.
  repeat (apply NoDup_app; split_and!; [apply NoDup_TestsByStatus| |]);
    [..|apply NoDup_TestsByStatus];
    intros t Ht; rewrite ?not_elem_of_app; split_and?;
    (eapply TestsByStatus_disjoint; [|exact Ht]; done).
Qed.

(** ** What lasts from line to line *)

Lemma extends_refl self : extends 0 self self.
Proof. unfold extends. rewrite Nat.add_0_r. done. Qed.

Lemma extends_trans n m a b c :
  extends n a b → extends m b c → extends (n + m) a c.
Proof.
  intros (Ha1 & Ha2 & Ha3 & Ha4 & Ha5) (Hb1 & Hb2 & Hb3 & Hb4 & Hb5).
  unfold extends. split_and!; [by etrans|lia| |auto|auto].
  intros Hne. rewrite <-(Ha3 Hne). apply Hb3. by rewrite (Ha3 Hne).
Qed.

Lemma extends_0 a b c : extends 0 a b → extends 0 b c → extends 0 a c.
Proof. apply (extends_trans 0 0). Qed.

Local Ltac in_list := apply (bool_decide_unpack _); by vm_compute.

Local Ltac extends0 :=
  unfold extends; simpl; rewrite ?Nat.add_0_r; split_and!;
  try done; try (by apply prefix_app_r).

Section LineFacts.
Variable maxint : Z.

Lemma read_master_name_shape line self :
  ∃ v, read_master_name line self = set_master_name v self.
Proof.
  unfold read_master_name. destruct self. repeat case_match; by eexists.
Qed.

Lemma read_master_name_extends line self : extends 0 self (read_master_name line self).
Proof.
  unfold read_master_name. case_bool_decide; [|apply extends_refl].
  case_match; extends0.
Qed.

Lemma _RecordError_extends line reason self :
  extends 0 self (_RecordError line reason self).
Proof. unfold _RecordError. extends0. Qed.

Lemma timeout_current_test_extends self self' :
  timeout_current_test self = Some self' → extends 0 self self'.
Proof.
  unfold timeout_current_test. intros H.
  repeat case_match; simplify_option_eq; extends0.
Qed.

Lemma start_test_extends results self self' :
  start_test results self = Some self' → extends 0 self self'.
Proof.
  unfold start_test, store_new, alloc. simpl. rewrite lookup_insert_eq. simpl.
  intros H. repeat case_match; simplify_eq; extends0.
Qed.

Lemma on_run_test_cases_line_extends self self' :
  on_run_test_cases_line self = Some self' → extends 0 self self'.
Proof.
  unfold on_run_test_cases_line. intros H.
  destruct (timeout_current_test self) as [mid|] eqn:Hmid; simplify_eq/=.
  apply timeout_current_test_extends in Hmid.
  apply (extends_0 _ mid); [done|]. extends0.
Qed.

Lemma on_test_start_extends results self self' :
  on_test_start results self = Some self' → extends 0 self self'.
Proof.
  unfold on_test_start. intros H.
  destruct (timeout_current_test self) as [mid|] eqn:Hmid; simplify_eq/=.
  apply timeout_current_test_extends in Hmid. apply start_test_extends in H.
  by apply (extends_0 _ mid).
Qed.

Lemma on_test_passed_extends self : extends 0 self (on_test_passed self).
Proof. unfold on_test_passed. extends0. Qed.

Lemma on_disabled_extends results self : extends 0 self (on_disabled maxint results self).
Proof. unfold on_disabled. case_match; extends0. Qed.

Lemma on_flaky_extends results self : extends 0 self (on_flaky maxint results self).
Proof. unfold on_flaky. case_match; extends0. Qed.

Lemma on_test_ok_extends line results self : extends 0 self (on_test_ok line results self).
Proof.
  unfold on_test_ok, _RecordError, store_new, reset_failure_description, alloc.
  repeat case_match; extends0.
Qed.

Lemma on_test_fail_extends line results self :
  extends 0 self (on_test_fail line results self).
Proof.
  unfold on_test_fail, _RecordError, reset_failure_description, alloc.
  repeat case_match; extends0.
Qed.

Lemma on_test_timeout_extends line results self :
  extends 0 self (on_test_timeout line results self).
Proof.
  unfold on_test_timeout, _RecordError, store_new, reset_failure_description, alloc.
  repeat case_match; extends0.
Qed.

Lemma on_suppression_start_extends line results self :
  extends 0 self (on_suppression_start line results self).
Proof. unfold on_suppression_start, _RecordError. repeat case_match; extends0. Qed.

Lemma on_suppression_end_extends line self :
  extends 0 self (on_suppression_end line self).
Proof. unfold on_suppression_end. extends0. Qed.

Lemma on_other_line_extends line self : extends 0 self (on_other_line line self).
Proof.
  unfold on_other_line, on_failing_tests_list, store_new, alloc, extend.
  repeat case_match; extends0.
Qed.

(** [_ProcessLine] by the kind of the line. *)
Lemma _ProcessLine_by_kind self line :
  _ProcessLine maxint self line =
  let self := read_master_name line self in
  match kind_of line with
  | IsRunTestCases => on_run_test_cases_line self
  | IsPassed => Some (on_test_passed self)
  | IsDisabled results => Some (on_disabled maxint results self)
  | IsFlaky results => Some (on_flaky maxint results self)
  | IsStart results => on_test_start results self
  | IsOk results => Some (on_test_ok line results self)
  | IsFail results => Some (on_test_fail line results self)
  | IsTimeout results => Some (on_test_timeout line results self)
  | IsSuppressionStart results => Some (on_suppression_start line results self)
  | IsSuppressionEnd =>
      if bool_decide (_current_suppression_hash self ≠ "")
      then Some (on_suppression_end line self)
      else if rmatch _retry_message line is Some _
           then Some (set_retrying_failed true self)
           else Some (on_other_line line self)
  | IsRetry => Some (set_retrying_failed true self)
  | IsOther => Some (on_other_line line self)
  end.
Proof. unfold _ProcessLine, kind_of. repeat case_match; done. Qed.

Lemma _ProcessLine_extends self line self' :
  _ProcessLine maxint self line = Some self' → extends 0 self self'.
Proof.
  rewrite _ProcessLine_by_kind. cbv zeta. intros H.
  apply (extends_0 _ (read_master_name line self));
    [apply read_master_name_extends|].
  revert H. generalize (read_master_name line self). clear self. intros self H.
  destruct (kind_of line); repeat case_match; simplify_eq;
    eauto using on_run_test_cases_line_extends, on_test_passed_extends,
      on_disabled_extends, on_flaky_extends, on_test_start_extends,
      on_test_ok_extends, on_test_fail_extends, on_test_timeout_extends,
      on_suppression_start_extends, on_suppression_end_extends,
      on_other_line_extends.
  all: extends0.
Qed.

Lemma ProcessLine_extends self line self' :
  ProcessLine maxint self line = Some self' → extends 1 self self'.
Proof.
  unfold ProcessLine. intros H.
  assert (extends 1 self (set_line_number (S (_line_number self)) self)) as H1.
  { unfold extends. simpl. split_and!; try done. lia. }
  repeat case_match; simplify_option_eq;
    repeat match goal with
      | H : _ProcessLine _ _ _ = Some _ |- _ => apply _ProcessLine_extends in H
      end.
  - by apply (extends_trans 1 0 _ _ _ H1).
  - apply (extends_trans 1 0 _ _ _ H1). by eapply extends_0.
  - by apply (extends_trans 1 0 _ _ _ H1).
Qed.

Lemma ProcessLines_extends lines : ∀ self self',
  ProcessLines maxint self lines = Some self' → extends (length lines) self self'.
Proof.
  induction lines as [|line lines IH]; intros self self' H; simpl in H.
  - simplify_eq. apply extends_refl.
  - destruct (ProcessLine maxint self line) as [mid|] eqn:Hmid; simplify_eq/=.
    apply ProcessLine_extends in Hmid. apply IH in H.
    by apply (extends_trans 1 (length lines) _ mid).
Qed.


(** ** The states the parser reaches *)

Lemma entry_ok_grow self self' status l ext :
  heap self' = heap self ++ ext →
  (_failure_description self' = _failure_description self ∨
   length (heap self) ≤ _failure_description self') →
  entry_ok self status l → entry_ok self' status l.
Proof.
  intros Hh Hfd (Hl & Hs & Hok & Hst). unfold entry_ok, deref in *.
  rewrite Hh, length_app, lookup_app_l by done.
  split_and!; [lia|done| |done].
  intros E. destruct (Hok E) as [? ?]. split; [done|].
  destruct Hfd as [->|?]; [done|lia].
Qed.

Lemma well_formed_reset self :
  well_formed self → well_formed (reset_failure_description self).
Proof.
  intros (Hfd & Hk & He). unfold reset_failure_description, alloc.
  split_and!; simpl.
  - rewrite length_app. simpl. lia.
  - done.
  - intros t status l Hl.
    apply (entry_ok_grow self _ _ _ [[]]); [done|right; simpl; lia|by apply (He t)].
Qed.

Lemma well_formed_set_current_test t self :
  well_formed self → t = "" ∨ is_Some (_test_status self !! t) →
  well_formed (set_current_test t self).
Proof. intros (Hfd & Hk & He) Ht. split_and!; done. Qed.

Lemma well_formed_store_new t status description self :
  well_formed self → status ∈ statuses →
  (status = "OK" → description = []) →
  (status = "started" → head description = Some "Did not complete.") →
  well_formed (store_new t status description self).
Proof.
  intros (Hfd & Hk & He) Hs Hok Hst. unfold store_new, alloc.
  split_and!; simpl.
  - rewrite length_app. simpl. lia.
  - destruct Hk as [Hk|Hk]; [by left|right].
    simpl. apply lookup_insert_is_Some'. auto.
  - intros t' status' l Hl. destruct (decide (t = t')) as [->|Hne].
    + rewrite lookup_insert_eq in Hl. simplify_eq.
      unfold entry_ok, deref. simpl.
      rewrite length_app, lookup_app_r, Nat.sub_diag by done. simpl.
      split_and!; [lia|done| |done].
      intros E. split; [auto|lia].
    + rewrite lookup_insert_ne in Hl by done.
      apply (entry_ok_grow self _ _ _ [description]); [done|by left|by apply (He t')].
Qed.

Lemma well_formed_insert t status self :
  well_formed self → status ∈ ["timeout"; "failed"; "warning"] →
  well_formed
    (set_test_status (<[t := (status, _failure_description self)]> (_test_status self))
       self).
Proof.
  intros (Hfd & Hk & He) Hs. split_and!; simpl.
  - done.
  - destruct Hk as [Hk|Hk]; [by left|right].
    simpl. apply lookup_insert_is_Some'. auto.
  - intros t' status' l Hl. destruct (decide (t = t')) as [->|Hne].
    + rewrite lookup_insert_eq in Hl. simplify_eq.
      rewrite !elem_of_cons, elem_of_nil in Hs.
      destruct Hs as [->|[->|[->|[]]]]; (split_and!; [done|in_list|done|done]).
    + rewrite lookup_insert_ne in Hl by done. by apply (He t').
Qed.

Lemma well_formed_extend xs self :
  well_formed self → well_formed (extend (_failure_description self) xs self).
Proof.
  intros (Hfd & Hk & He). unfold extend. split_and!; simpl.
  - by rewrite length_alter.
  - done.
  - intros t status l Hl. destruct (He t status l Hl) as (H1 & H2 & H3 & H4).
    unfold entry_ok, deref in *. simpl. rewrite length_alter.
    split_and!; [done..| |].
    + intros E. destruct (H3 E) as [? ?].
      by rewrite list_lookup_alter_ne by done.
    + intros E. specialize (H4 E).
      destruct (decide (_failure_description self = l)) as [->|Hne].
      * destruct (heap self !! l) as [[|line v]|] eqn:Hh; simpl in H4; try done.
        unfold loc in *. by rewrite list_lookup_alter_eq, Hh.
      * by rewrite list_lookup_alter_ne by done.
Qed.

Lemma timeout_current_test_well_formed self :
  well_formed self →
  ∃ self', timeout_current_test self = Some self' ∧ well_formed self'.
Proof.
  intros Hwf. pose proof Hwf as (Hfd & Hk & He).
  unfold timeout_current_test. destruct Hk as [Hc|[entry Hentry]].
  - rewrite bool_decide_eq_true_2 by done. eauto.
  - case_bool_decide; [eauto|]. rewrite Hentry. simpl.
    case_bool_decide; [|eauto].
    eexists. split; [done|]. apply well_formed_insert; [done|in_list].
Qed.

Lemma start_test_well_formed results self :
  well_formed self →
  ∃ self', start_test results self = Some self' ∧ well_formed self'.
Proof.
  intros Hwf. unfold start_test. cbv zeta.
  set (started := set_current_test (m_group1 results)
                    (store_new (m_group1 results) "started" ["Did not complete."] self)).
  assert (well_formed started) as Hs.
  { apply well_formed_set_current_test.
    - apply well_formed_store_new; [done|in_list|done|done].
    - right. unfold store_new, alloc. simpl. rewrite lookup_insert_eq. eauto. }
  assert (retrying_failed started = retrying_failed self) as -> by done.
  destruct (retrying_failed self); [|eexists; split; [done|]; by apply well_formed_reset].
  exists (extend (_failure_description
                    (set_failure_description (length (heap self)) started))
            [""; "RETRY OUTPUT:"; ""]
            (set_failure_description (length (heap self)) started)).
  split.
  { unfold started, store_new, alloc. simpl. by rewrite lookup_insert_eq. }
  apply well_formed_extend.
  destruct Hwf as (Hfd & Hk & He). destruct Hs as (_ & Hk' & _).
  split_and!; simpl.
  - rewrite length_app. simpl. lia.
  - exact Hk'.
  - intros t status l Hl. unfold started, store_new, alloc in Hl. simpl in Hl.
    destruct (decide (m_group1 results = t)) as [Heq|Hne].
    + subst t. rewrite lookup_insert_eq in Hl. simplify_eq.
      unfold entry_ok, deref. simpl.
      rewrite length_app, lookup_app_r, Nat.sub_diag by done. simpl.
      split_and!; [lia|in_list|done|done].
    + rewrite lookup_insert_ne in Hl by done.
      destruct (He t status l Hl) as (H1 & H2 & H3 & H4).
      unfold entry_ok, deref in *. simpl.
      rewrite length_app, lookup_app_l by done.
      split_and!; [lia|done| |done].
      intros E. destruct (H3 E). split; [done|lia].
Qed.

Lemma on_run_test_cases_line_well_formed self :
  well_formed self →
  ∃ self', on_run_test_cases_line self = Some self' ∧ well_formed self'.
Proof.
  intros Hwf. unfold on_run_test_cases_line.
  destruct (timeout_current_test_well_formed self Hwf) as (mid & -> & Hmid).
  eexists. split; [done|].
  apply well_formed_reset, well_formed_set_current_test; auto.
Qed.

Lemma on_test_start_well_formed results self :
  well_formed self →
  ∃ self', on_test_start results self = Some self' ∧ well_formed self'.
Proof.
  intros Hwf. unfold on_test_start.
  destruct (timeout_current_test_well_formed self Hwf) as (mid & -> & Hmid).
  by apply start_test_well_formed.
Qed.

Lemma _RecordError_well_formed line reason self :
  well_formed self → well_formed (_RecordError line reason self).
Proof. intros H. exact H. Qed.

Lemma on_test_ok_well_formed line results self :
  well_formed self → well_formed (on_test_ok line results self).
Proof.
  intros Hwf. unfold on_test_ok. cbv zeta.
  set (noted := if bool_decide (_StatusOfTest self (m_group1 results) ≠ "started")
                then _ else self).
  assert (well_formed noted) as Hn by (unfold noted; by case_bool_decide).
  apply well_formed_set_current_test; [|by left].
  apply well_formed_reset.
  destruct (retrying_failed noted).
  - apply well_formed_insert; [done|in_list].
  - apply well_formed_store_new; [done|in_list|done|done].
Qed.

Lemma on_test_fail_well_formed line results self :
  well_formed self → well_formed (on_test_fail line results self).
Proof.
  intros Hwf. unfold on_test_fail. cbv zeta.
  set (noted := if bool_decide (_StatusOfTest self (m_group1 results)
                                  ∉ ["started"; "failed"; "timeout"])
                then _ else self).
  assert (well_formed noted) as Hn by (unfold noted; by case_bool_decide).
  apply well_formed_set_current_test; [|by left].
  apply well_formed_reset.
  case_bool_decide; [|done].
  apply well_formed_insert; [done|in_list].
Qed.

Lemma on_test_timeout_well_formed line results self :
  well_formed self → well_formed (on_test_timeout line results self).
Proof.
  intros Hwf. unfold on_test_timeout. cbv zeta.
  set (noted := if bool_decide (_StatusOfTest self (m_group1 results)
                                  ∉ ["started"; "failed"])
                then _ else self).
  assert (well_formed noted) as Hn by (unfold noted; by case_bool_decide).
  apply well_formed_set_current_test; [|by left].
  apply well_formed_reset.
  apply well_formed_store_new; [done|in_list|done|done].
Qed.

Lemma on_suppression_start_well_formed line results self :
  well_formed self → well_formed (on_suppression_start line results self).
Proof. intros Hwf. unfold on_suppression_start. by case_bool_decide. Qed.

Lemma on_failing_tests_list_well_formed line self :
  well_formed self → well_formed (on_failing_tests_list line self).
Proof.
  intros Hwf. unfold on_failing_tests_list.
  repeat case_match; try done.
  apply well_formed_store_new; [done|in_list|done|done].
Qed.

Lemma on_other_line_well_formed line self :
  well_formed self → well_formed (on_other_line line self).
Proof.
  intros Hwf. unfold on_other_line.
  case_bool_decide; [done|]. apply on_failing_tests_list_well_formed.
  case_bool_decide; [|done]. by apply well_formed_extend.
Qed.

Lemma read_master_name_well_formed line self :
  well_formed self → well_formed (read_master_name line self).
Proof.
  intros Hwf. destruct (read_master_name_shape line self) as [v ->]. exact Hwf.
Qed.

Lemma _ProcessLine_well_formed self line :
  well_formed self →
  ∃ self', _ProcessLine maxint self line = Some self' ∧ well_formed self'.
Proof.
  rewrite _ProcessLine_by_kind. cbv zeta.
  intros Hwf%(read_master_name_well_formed line).
  revert Hwf. generalize (read_master_name line self). clear self. intros self Hwf.
  destruct (kind_of line); repeat case_match;
    eauto using on_run_test_cases_line_well_formed, on_test_start_well_formed,
      on_test_ok_well_formed, on_test_fail_well_formed, on_test_timeout_well_formed,
      on_suppression_start_well_formed, on_other_line_well_formed.
  - eexists. split; [done|].
    apply (well_formed_set_current_test "" (set_completed true self)); auto.
  - eexists. split; [done|]. unfold on_disabled. by case_match.
  - eexists. split; [done|]. unfold on_flaky. by case_match.
Qed.

Lemma ProcessLine_well_formed self line :
  well_formed self →
  ∃ self', ProcessLine maxint self line = Some self' ∧ well_formed self'.
Proof.
  unfold ProcessLine. intros Hwf.
  assert (well_formed (set_line_number (S (_line_number self)) self)) as Hwf'
    by exact Hwf.
  revert Hwf'. generalize (set_line_number (S (_line_number self)) self).
  clear. intros self Hwf.
  repeat case_match; try by apply _ProcessLine_well_formed.
  destruct (_ProcessLine_well_formed self (take_str (m_start m) line) Hwf)
    as (mid & -> & Hmid).
  by apply _ProcessLine_well_formed.
Qed.

Lemma ProcessLines_well_formed lines : ∀ self,
  well_formed self →
  ∃ self', ProcessLines maxint self lines = Some self' ∧ well_formed self'.
Proof.
  induction lines as [|line lines IH]; intros self Hwf; simpl.
  - eauto.
  - destruct (ProcessLine_well_formed self line Hwf) as (mid & -> & Hmid).
    by apply IH.
Qed.

Lemma init_well_formed : well_formed init.
Proof.
  split_and!; simpl; [lia|by left|].
  intros t status l Hl. by rewrite lookup_empty in Hl.
Qed.

Lemma run_log_spec lines :
  ProcessLines maxint init lines = Some (run_log maxint lines) ∧
  well_formed (run_log maxint lines).
Proof.
  destruct (ProcessLines_well_formed lines init init_well_formed) as (self' & H & Hwf).
  unfold run_log. rewrite H. done.
Qed.

End LineFacts.


(** ** Which test a line passes *)

Lemma bracket_word_shape c w r s :
  space c = false →
  run (bracket_word c w r) (start_cursor s) ≠ [] →
  ∃ a s1 t, s = String "[" (String a s1) ∧ space a = true ∧
    rest (skip space (advance (advance (start_cursor s) (String a s1)) s1) s1)
      = String c t.
Proof.
  intros Hc Hm. unfold bracket_word in Hm.
  apply nonempty_cat_chr in Hm as (s0 & Hs & Hm). simpl in Hs. subst s.
  apply nonempty_cat_plus in Hm as (a & s1 & Hs & Ha & Hm);
    [|by apply guard_cat_lit].
  simpl in Hs. subst s0.
  apply nonempty_cat_lit in Hm as (y & Hy & _).
  apply read_lit_first in Hy as (t & Ht). eauto 8.
Qed.

Lemma bracket_word_distinct c w r c' w' r' s :
  space c = false → space c' = false → c ≠ c' →
  run (bracket_word c w r) (start_cursor s) ≠ [] →
  run (bracket_word c' w' r') (start_cursor s) = [].
Proof.
  intros Hc Hc' Hne (a & s1 & t & -> & Ha & Ht)%bracket_word_shape; [|done].
  destruct (run (bracket_word c' w' r') _) eqn:Hrun; [done|exfalso].
  assert (run (bracket_word c' w' r') (start_cursor (String "[" (String a s1))) ≠ [])
    as (a' & s1' & t' & Hs & _ & Ht')%bracket_word_shape by congruence; [|done].
  injection Hs as <- <-. rewrite Ht in Ht'. congruence.
Qed.

Lemma bracket_word_not_run_test_cases c w r s :
  space c = false → digit c = false →
  run (bracket_word c w r) (start_cursor s) ≠ [] →
  run _run_test_cases_line (start_cursor s) = [].
Proof.
  intros Hc Hd (a & s1 & t & -> & Ha & Ht)%bracket_word_shape; [|done].
  destruct (run _run_test_cases_line _) eqn:Hrun; [done|exfalso].
  assert (run _run_test_cases_line (start_cursor (String "[" (String a s1))) ≠ [])
    as Hne by congruence.
  clear Hrun. unfold _run_test_cases_line in Hne. cbn [cat] in Hne.
  apply nonempty_cat_chr in Hne as (s0 & Hs & Hne). simpl in Hs.
  injection Hs as <-.
  apply nonempty_cat_many in Hne;
    [|apply guard_cat_plus, digit_not_space].
  cbn [rest advance] in Hne. rewrite skip_cons, Ha in Hne.
  apply nonempty_cat_plus in Hne as (d & s' & Hs & Hd' & _);
    [|by apply guard_cat_chr].
  rewrite Ht in Hs. injection Hs as <- <-. congruence.
Qed.

Lemma rmatch_nonempty r s m : rmatch r s = Some m → run r (start_cursor s) ≠ [].
Proof. apply rmatch_Some. Qed.

Lemma rmatch_empty r s : run r (start_cursor s) = [] → rmatch r s = None.
Proof. apply rmatch_None. Qed.

Lemma bracket_word_not_banner c w r w' s :
  run (bracket_word c w r) (start_cursor s) ≠ [] →
  run (cat [Many space; lit "YOU HAVE "; Grp (plus digit); lit w']) (start_cursor s) = [].
Proof.
  unfold bracket_word. intros (s0 & Hs & _)%nonempty_cat_chr. simpl in Hs. subst s.
  apply bracket_not_banner.
Qed.

Lemma kind_of_start line results :
  rmatch _test_start line = Some results → kind_of line = IsStart results.
Proof.
  intros Hm. unfold kind_of.
  by rewrite (test_start_not_run_test_cases _ _ Hm), (test_start_not_passed _ _ Hm),
    (test_start_not_disabled _ _ Hm), (test_start_not_flaky _ _ Hm), Hm.
Qed.

Lemma kind_of_passed line m : rmatch _test_passed line = Some m → kind_of line = IsPassed.
Proof.
  intros Hm. pose proof (rmatch_nonempty _ _ _ Hm) as Hne.
  unfold kind_of.
  rewrite (rmatch_empty _run_test_cases_line line), Hm; [done|].
  eapply (bracket_word_not_run_test_cases "P" "ASSED"); [done..|exact Hne].
Qed.

Lemma kind_of_ok line results :
  rmatch _test_ok line = Some results → kind_of line = IsOk results.
Proof.
  intros Hm. pose proof (rmatch_nonempty _ _ _ Hm) as Hne.
  unfold kind_of.
  rewrite (rmatch_empty _run_test_cases_line line)
    by (eapply (bracket_word_not_run_test_cases "O" "K"); [done..|exact Hne]).
  rewrite (rmatch_empty _test_passed line)
    by (eapply (bracket_word_distinct "O" "K" _ "P" "ASSED"); [done..|exact Hne]).
  rewrite (rmatch_empty _disabled line)
    by (eapply (bracket_word_not_banner "O" "K"); [done..|exact Hne]).
  rewrite (rmatch_empty _flaky line)
    by (eapply (bracket_word_not_banner "O" "K"); [done..|exact Hne]).
  rewrite (rmatch_empty _test_start line)
    by (eapply (bracket_word_distinct "O" "K" _ "R" "UN"); [done..|exact Hne]).
  by rewrite Hm.
Qed.

Lemma kind_of_fail line results :
  rmatch _test_fail line = Some results → kind_of line = IsFail results.
Proof.
  intros Hm. pose proof (rmatch_nonempty _ _ _ Hm) as Hne.
  unfold kind_of.
  rewrite (rmatch_empty _run_test_cases_line line)
    by (eapply (bracket_word_not_run_test_cases "F" "AILED"); [done..|exact Hne]).
  rewrite (rmatch_empty _test_passed line)
    by (eapply (bracket_word_distinct "F" "AILED" _ "P" "ASSED"); [done..|exact Hne]).
  rewrite (rmatch_empty _disabled line)
    by (eapply (bracket_word_not_banner "F" "AILED"); [done..|exact Hne]).
  rewrite (rmatch_empty _flaky line)
    by (eapply (bracket_word_not_banner "F" "AILED"); [done..|exact Hne]).
  rewrite (rmatch_empty _test_start line)
    by (eapply (bracket_word_distinct "F" "AILED" _ "R" "UN"); [done..|exact Hne]).
  rewrite (rmatch_empty _test_ok line)
    by (eapply (bracket_word_distinct "F" "AILED" _ "O" "K"); [done..|exact Hne]).
  by rewrite Hm.
Qed.

(** ** Descriptions in the store *)

(** A new empty list at the end of the store changes no description. *)
Lemma lookup_snoc_nil (h : list (list string)) (l : nat) :
  default [] ((h ++ [[]]) !! l) = default [] (h !! l).
Proof.
  destruct (decide (l < length h)) as [Hl|Hl].
  - by rewrite lookup_app_l.
  - rewrite lookup_app_r, (lookup_ge_None_2 h l) by lia.
    by destruct (l - length h) as [|[|n]].
Qed.

Lemma lookup_end_nil (h : list (list string)) : default [] (h !! length h) = [].
Proof. by rewrite lookup_ge_None_2. Qed.

End GTestReportFacts.
(** * What a match captures *)
Module ReCaptureFacts.
Import Re ReFacts GTest.

Lemma drop_str_S n : ∀ s a s', drop_str n s = String a s' → drop_str (S n) s = s'.
Proof.
  induction n as [|n IH]; intros [|b s] a s' H; simplify_eq/=; eauto.
Qed.

Lemma drop_str_add k : ∀ n s, drop_str k (drop_str n s) = drop_str (n + k) s.
Proof.
  intros n. revert k. induction n as [|n IH]; intros k s; [done|].
  destruct s as [|a s]; simpl; [by destruct k|apply IH].
Qed.

Lemma substring_take_drop b : ∀ k s, substring b k s = take_str k (drop_str b s).
Proof.
  induction b as [|b IH]; intros k s.
  - simpl. revert s. induction k as [|k IHk]; intros [|a s]; simpl; f_equal; auto.
  - destruct s as [|a s]; simpl; [by destruct k|apply IH].
Qed.

Lemma take_str_length k : ∀ s, k ≤ String.length s → String.length (take_str k s) = k.
Proof.
  induction k as [|k IH]; intros [|a s] Hk; simpl in *; try done; try lia.
  rewrite IH; lia.
Qed.

Lemma consistent_advance s x a s' :
  consistent s x → rest x = String a s' → consistent s (advance x s').
Proof.
  unfold consistent. intros Hx Hr. simpl. symmetry. apply (drop_str_S _ _ a).
  by rewrite <-Hx.
Qed.

(** Where a greedy repetition can stop. *)
Lemma many_span p s' : ∀ x y,
  rest x = s' → y ∈ many p x s' →
  ∃ k, pos y = pos x + k ∧ rest y = drop_str k s' ∧ k ≤ String.length s' ∧
       all_chars p (take_str k s') = true ∧ grp1 y = grp1 x.
Proof.
  induction s' as [|a s' IH]; intros x y Hx Hy; simpl in Hy.
  - apply list_elem_of_singleton in Hy. subst y.
    exists 0. split_and!; simpl; try done; lia.
  - destruct (p a) eqn:Hp.
    + apply elem_of_app in Hy as [Hy|Hy].
      * destruct (IH (advance x s') y eq_refl Hy) as (k & Hk1 & Hk2 & Hk3 & Hk4 & Hk5).
        exists (S k). simpl in *. split_and!; [lia|done|lia| |done].
        unfold all_chars in *. simpl. by rewrite Hp.
      * apply list_elem_of_singleton in Hy. subst y.
        exists 0. split_and!; simpl; try done; lia.
    + apply list_elem_of_singleton in Hy. subst y.
      exists 0. split_and!; simpl; try done; lia.
Qed.

Lemma many_consistent p s x y :
  consistent s x → y ∈ many p x (rest x) → consistent s y ∧ grp1 y = grp1 x.
Proof.
  intros Hx (k & Hk1 & Hk2 & _ & _ & Hk5)%many_span; [|done]. split; [|done].
  unfold consistent in *. by rewrite Hk2, Hx, drop_str_add, Hk1.
Qed.

Lemma read_lit_consistent w s : ∀ x y,
  consistent s x → read_lit w x = Some y → consistent s y ∧ grp1 y = grp1 x.
Proof.
  induction w as [|c w IH]; intros x y Hx H; simpl in H.
  - by simplify_eq.
  - destruct (rest x) as [|a s'] eqn:Hr; [done|].
    destruct (Ascii.eqb a c); [|done].
    apply IH in H as [? ?]; [done|]. by apply (consistent_advance _ _ a).
Qed.

(** What [Grp (plus p)] captures: a run of characters of the class that
    is not empty. *)
Lemma group_plus_capture p s x y :
  consistent s x → y ∈ run (Grp (plus p)) x →
  consistent s y ∧
  ∃ k, grp1 y = Some (pos x, pos x + k) ∧ 0 < k ∧
       String.length (take_str k (drop_str (pos x) s)) = k ∧
       all_chars p (take_str k (drop_str (pos x) s)) = true.
Proof.
  intros Hx Hy. cbn [run] in Hy. apply list_elem_of_fmap in Hy as (z & -> & Hz).
  unfold plus in Hz. simpl in Hz.
  apply list_elem_of_bind in Hz as (x1 & Hz & Hx1).
  destruct (rest x) as [|a s'] eqn:Hr; [by apply elem_of_nil in Hx1|].
  destruct (p a) eqn:Hp; [|by apply elem_of_nil in Hx1].
  apply list_elem_of_singleton in Hx1. subst x1.
  destruct (many_span _ _ _ _ eq_refl Hz) as (k & Hk1 & Hk2 & Hk3 & Hk4 & Hk5).
  assert (drop_str (pos x) s = String a s') as Hd by (by rewrite <-Hr).
  simpl in *. split.
  - unfold consistent. simpl.
    by rewrite Hk2, Hk1, <-(drop_str_S _ _ _ _ Hd), drop_str_add.
  - exists (S k). rewrite Hd. simpl. rewrite take_str_length by done.
    split_and!; [f_equal; f_equal; lia|lia|done|].
    unfold all_chars in *. simpl. by rewrite Hp.
Qed.

(** The match object of an expression of the shape
    blanks, a word, a captured run of a class, a word. *)
Lemma rmatch_elem r s m :
  rmatch r s = Some m →
  ∃ x, x ∈ run r (start_cursor s) ∧
       m_group1 m = match grp1 x with
                    | Some (b, e) => substring b (e - b) s
                    | None => ""
                    end.
Proof.
  unfold rmatch, match_at, start_cursor. simpl.
  destruct (run r _) as [|x l]; intros H; simplify_eq/=.
  exists x. split; [left|done].
Qed.

Lemma captured_run p s x k :
  grp1 x = Some (k.1, k.1 + k.2) →
  String.length (take_str k.2 (drop_str k.1 s)) = k.2 → 0 < k.2 →
  all_chars p (take_str k.2 (drop_str k.1 s)) = true →
  ∀ m, m_group1 m = match grp1 x with
                    | Some (b, e) => substring b (e - b) s
                    | None => ""
                    end →
  m_group1 m ≠ "" ∧ all_chars p (m_group1 m) = true.
Proof.
  destruct k as [b k]. simpl. intros -> Hlen Hk Hall m ->.
  replace (b + k - b) with k by lia. rewrite substring_take_drop.
  split; [|done]. intros E. rewrite E in Hlen. simpl in Hlen. lia.
Qed.

Lemma word_group_word_capture w1 p w2 s x y :
  consistent s x → y ∈ run (Cat (lit w1) (Cat (Grp (plus p)) (lit w2))) x →
  ∃ k, grp1 y = Some (k.1, k.1 + k.2) ∧
       String.length (take_str k.2 (drop_str k.1 s)) = k.2 ∧ 0 < k.2 ∧
       all_chars p (take_str k.2 (drop_str k.1 s)) = true.
Proof.
  intros Hx Hy. rewrite run_cat_lit in Hy.
  destruct (read_lit w1 x) as [x1|] eqn:H1; [|by apply elem_of_nil in Hy].
  apply read_lit_consistent with (s := s) in H1 as [Hx1 _]; [|done].
  cbn [run] in Hy. apply list_elem_of_bind in Hy as (x2 & Hy & Hx2).
  apply (group_plus_capture p s) in Hx2 as (Hc & k & Hg & Hk & Hlen & Hall); [|done].
  rewrite run_lit in Hy.
  destruct (read_lit w2 x2) as [x3|] eqn:H3; [|by apply elem_of_nil in Hy].
  apply list_elem_of_singleton in Hy. subst y.
  apply read_lit_consistent with (s := s) in H3 as [_ Hg3]; [|done].
  exists (pos x1, k). simpl. rewrite Hg3. auto.
Qed.

Lemma start_cursor_consistent s : consistent s (start_cursor s).
Proof. done. Qed.

(** The count of a banner is a run of digits that is not empty. *)
Lemma banner_count w s m :
  rmatch (cat [Many space; lit "YOU HAVE "; Grp (plus digit); lit w]) s = Some m →
  m_group1 m ≠ "" ∧ all_chars digit (m_group1 m) = true.
Proof.
  intros (x & Hx & Hm)%rmatch_elem. cbn [cat] in Hx.
  change (x ∈ y ← run (Many space) (start_cursor s);
              run (Cat (lit "YOU HAVE ") (Cat (Grp (plus digit)) (lit w))) y) in Hx.
  apply list_elem_of_bind in Hx as (y & Hx & Hy).
  apply (many_consistent _ s) in Hy as [Hy _]; [|done].
  destruct (word_group_word_capture _ _ _ _ _ _ Hy Hx) as (k & Hg & Hlen & Hk & Hall).
  by apply (captured_run digit s x k).
Qed.

(** The hash of a suppression is not empty. *)
Lemma suppression_hash s m :
  rmatch _suppression_start s = Some m → m_group1 m ≠ "".
Proof.
  intros (x & Hx & Hm)%rmatch_elem. unfold _suppression_start in Hx. cbn [cat] in Hx.
  destruct (word_group_word_capture _ _ _ _ _ _ (start_cursor_consistent s) Hx)
    as (k & Hg & Hlen & Hk & Hall).
  by eapply (captured_run _ s x k).
Qed.

End ReCaptureFacts.

(** * A match found further into the line *)
Module ReShiftFacts.
Import Re ReFacts ReCaptureFacts GTest.

Lemma fmap_bind_list {A B C} (f : B → C) (g : A → list B) (l : list A) :
  f <$> (l ≫= g) = l ≫= (λ x, f <$> g x).
Proof.
  induction l as [|x l IH]; [done|].
  rewrite !bind_cons, fmap_app. by f_equal.
Qed.

Lemma bind_ext_list {A B} (g h : A → list B) (l : list A) :
  (∀ x, g x = h x) → l ≫= g = l ≫= h.
Proof.
  intros Hgh. induction l as [|x l IH]; [done|]. by rewrite !bind_cons, Hgh, IH.
Qed.

Lemma many_shift p k s : ∀ x, many p (shift k x) s = shift k <$> many p x s.
Proof.
  induction s as [|a s IH]; intros x; simpl; [done|].
  destruct (p a); [|done]. rewrite fmap_app. simpl. f_equal. apply (IH (advance x s)).
Qed.

Lemma run_shift r k : ∀ x, no_bol r = true → run r (shift k x) = shift k <$> run r x.
Proof.
  induction r as [| | |c|p|p|r IH|r1 IH1 r2 IH2|r IH]; intros x Hr; simpl in *.
  - done.
  - done.
  - by case_bool_decide.
  - destruct (rest x) as [|a s']; [done|]. by destruct (Ascii.eqb a c).
  - destruct (rest x) as [|a s']; [done|]. by destruct (p a).
  - apply many_shift.
  - rewrite fmap_app, IH by done. done.
  - apply andb_true_iff in Hr as [Hr1 Hr2].
    rewrite IH1, list_fmap_bind, fmap_bind_list by done.
    apply bind_ext_list. intros y. simpl. by apply IH2.
  - rewrite IH by done. rewrite <-!list_fmap_compose. done.
Qed.

Lemma substring_shift b n k s :
  substring (b + k) n s = substring b n (drop_str k s).
Proof.
  rewrite !substring_take_drop, drop_str_add. do 2 f_equal. lia.
Qed.

(** A match at offset [k] is a match at the start of what is left of the
    line there, with the same text in the group. *)
Lemma match_at_suffix r k s m :
  no_bol r = true → match_at r k s = Some m →
  m_start m = k ∧
  rmatch r (drop_str k s) = Some {| m_start := 0; m_group1 := m_group1 m |}.
Proof.
  intros Hr. unfold rmatch, match_at. simpl.
  change {| pos := k; rest := drop_str k s; grp1 := None |}
    with (shift k (start_cursor (drop_str k s))).
  rewrite run_shift by done. unfold start_cursor.
  destruct (run r _) as [|x l]; simpl; [done|].
  intros [= <-]. simpl. split; [done|]. do 2 f_equal.
  destruct (grp1 x) as [[b e]|]; simpl; [|done].
  replace (e + k - (b + k)) with (e - b) by lia. symmetry. apply substring_shift.
Qed.

Lemma search_from_Some r s fuel : ∀ i m,
  search_from r s i fuel = Some m → ∃ k, match_at r k s = Some m.
Proof.
  induction fuel as [|fuel IH]; intros i m H; simpl in H.
  - destruct (match_at r i s) eqn:Hi; [|done]. simplify_eq. eauto.
  - destruct (match_at r i s) eqn:Hi; [simplify_eq; eauto|]. by eapply IH.
Qed.

Lemma search_suffix r s m :
  no_bol r = true → search r s = Some m →
  rmatch r (drop_str (m_start m) s) = Some {| m_start := 0; m_group1 := m_group1 m |}.
Proof.
  intros Hr [k Hk]%search_from_Some.
  by destruct (match_at_suffix r k s m Hr Hk) as [-> ?].
Qed.

Lemma first_search_elem regexps line m :
  first_search regexps line = Some m → ∃ r, r ∈ regexps ∧ search r line = Some m.
Proof.
  induction regexps as [|r regexps IH]; simpl; [done|].
  destruct (search r line) eqn:Hr.
  - intros [= <-]. exists r. split; [left|done].
  - intros (r' & Hin & Hr')%IH. exists r'. split; [by right|done].
Qed.

Lemma take_drop_str k : ∀ s, take_str k s +:+ drop_str k s = s.
Proof.
  induction k as [|k IH]; intros [|a s]; try done.
  change (String a (take_str k s +:+ drop_str k s) = String a s). f_equal. apply IH.
Qed.

End ReShiftFacts.

(** * Facts about counts and suppressions *)
Module GTestCountFacts.
Import Re ReFacts ReCaptureFacts GTest GTestFacts GTestReportFacts.

Lemma forallb_rev {A} (p : A → bool) (l : list A) : forallb p (rev l) = forallb p l.
Proof.
  induction l as [|a l IH]; [done|].
  simpl. rewrite forallb_app, IH. simpl. rewrite andb_true_r. apply andb_comm.
Qed.

Lemma all_chars_reverse p s : all_chars p (reverse_str s) = all_chars p s.
Proof.
  unfold all_chars, reverse_str.
  by rewrite list_ascii_of_string_of_list_ascii, forallb_rev.
Qed.

Lemma reverse_str_involutive s : reverse_str (reverse_str s) = s.
Proof.
  unfold reverse_str.
  by rewrite list_ascii_of_string_of_list_ascii, rev_involutive,
    string_of_list_ascii_of_string.
Qed.

Lemma lstrip_digits s : all_chars digit s = true → lstrip s = s.
Proof.
  destruct s as [|a s]; [done|]. unfold all_chars. simpl.
  intros [Ha _]%andb_true_iff. by rewrite (digit_not_space a Ha).
Qed.

Lemma strip_digits s : all_chars digit s = true → strip s = s.
Proof.
  intros Hs. unfold strip.
  rewrite (lstrip_digits s Hs), lstrip_digits by by rewrite all_chars_reverse.
  apply reverse_str_involutive.
Qed.

Lemma digit_value a : digit a = true → (0 ≤ Z.of_N (N_of_ascii a) - 48)%Z.
Proof.
  unfold digit, in_range. intros [H _]%andb_true_iff.
  apply N.leb_le in H. lia.
Qed.

Lemma digits_val_digits s : ∀ acc,
  all_chars digit s = true → (0 ≤ acc)%Z →
  ∃ n, (0 ≤ n)%Z ∧ digits_val acc s = Some n.
Proof.
  induction s as [|a s IH]; intros acc Hs Hacc; simpl; [eauto|].
  unfold all_chars in Hs. simpl in Hs. apply andb_true_iff in Hs as [Ha Hs].
  rewrite Ha. apply IH; [done|]. pose proof (digit_value a Ha). lia.
Qed.

Lemma digit_not_sign a : digit a = true → a ≠ "-"%char ∧ a ≠ "+"%char.
Proof. split; intros ->; by vm_compute in H. Qed.

Section Counts.
Variable maxint : Z.

(** What [int()] returns for [n]. *)
Lemma py_int_digits s :
  s ≠ "" → all_chars digit s = true →
  ∃ n, (0 ≤ n)%Z ∧ digits_val 0 s = Some n ∧
       py_int maxint s
       = Some (if bool_decide (- maxint - 1 ≤ n ≤ maxint)%Z then PyInt n else PyLong n).
Proof.
  intros Hne Hs. destruct (digits_val_digits s 0 Hs) as (n & Hn & Hval); [done|].
  exists n. split; [done|]. split; [done|].
  unfold py_int. rewrite (strip_digits s Hs).
  destruct s as [|a t]; [done|].
  assert (digit a = true) as Ha.
  { unfold all_chars in Hs. simpl in Hs. by apply andb_true_iff in Hs as [? _]. }
  destruct (digit_not_sign a Ha) as [Hminus Hplus].
  assert ((match String a t with
           | String "-" t' => (true, t')
           | String "+" t' => (false, t')
           | _ => (false, String a t)
           end) = (false, String a t)) as ->.
  { destruct a as [[] [] [] [] [] [] [] []]; done. }
  by rewrite Hval.
Qed.

End Counts.

End GTestCountFacts.

(** * The claim about the banner counts *)
Module GTestBannerClaims.
Import Re ReFacts ReCaptureFacts GTest GTestFacts GTestReportFacts GTestCountFacts.

(** A line that is no banner leaves both counts as they are. *)
Lemma no_banner_same_counts maxint self line self' :
  rmatch _disabled line = None → rmatch _flaky line = None →
  _ProcessLine maxint self line = Some self' → same_counts self self'.
Proof.
  intros Hd Hf. unfold _ProcessLine. rewrite Hd, Hf.
  destruct (read_master_name_spec line self) as [v ->].
  assert (same_counts (set_master_name v self) self' → same_counts self self')
    as Hv by done.
  intros H. apply Hv. clear Hv. revert H.
  generalize (set_master_name v self). clear self. intros self H.
  repeat case_match; simplify_eq;
    eauto using on_run_test_cases_line_counts, on_test_start_counts,
      on_test_ok_counts, on_test_fail_counts, on_test_timeout_counts,
      on_suppression_start_counts, on_other_line_counts;
    done.
Qed.

(** C4, as amended: the count of a line that the parser takes for a
    disabled-tests banner is a run of digits, which [int()] always reads
    (as a [long] beyond [sys.maxint]).  When the count is positive,
    [DisabledTests] is that number as long as the stored count is still an
    [int], and the string 'some' when it is no [int] any more; when the
    count is zero, [DisabledTests] is 'some'.  The flaky-tests banner and
    [FlakyTests] follow the same rule, and neither banner touches the other
    count.  A line that matches neither banner pattern, such as a banner
    whose count is no number, leaves both counts as they are. *)
Theorem banner_count_policy (maxint : Z) (self : GTestLogParser) (line : string)
    (results : match_obj) :
  (rmatch _disabled line = Some results →
   ∃ n self',
     (0 ≤ n)%Z ∧ digits_val 0 (m_group1 results) = Some n ∧
     py_int maxint (m_group1 results)
       = Some (if bool_decide (- maxint - 1 ≤ n ≤ maxint)%Z then PyInt n else PyLong n) ∧
     _ProcessLine maxint self line = Some self' ∧
     FlakyTests self' = FlakyTests self ∧
     ((0 < n)%Z → is_int (DisabledTests self) = true →
      DisabledTests self'
        = if bool_decide (- maxint - 1 ≤ n ≤ maxint)%Z then PyInt n else PyLong n) ∧
     ((0 < n)%Z → is_int (DisabledTests self) = false →
      DisabledTests self' = PyStr "some") ∧
     (n = 0%Z → DisabledTests self' = PyStr "some")) ∧
  (rmatch _flaky line = Some results →
   ∃ n self',
     (0 ≤ n)%Z ∧ digits_val 0 (m_group1 results) = Some n ∧
     py_int maxint (m_group1 results)
       = Some (if bool_decide (- maxint - 1 ≤ n ≤ maxint)%Z then PyInt n else PyLong n) ∧
     _ProcessLine maxint self line = Some self' ∧
     DisabledTests self' = DisabledTests self ∧
     ((0 < n)%Z → is_int (FlakyTests self) = true →
      FlakyTests self'
        = if bool_decide (- maxint - 1 ≤ n ≤ maxint)%Z then PyInt n else PyLong n) ∧
     ((0 < n)%Z → is_int (FlakyTests self) = false →
      FlakyTests self' = PyStr "some") ∧
     (n = 0%Z → FlakyTests self' = PyStr "some")) ∧
  (rmatch _disabled line = None → rmatch _flaky line = None →
   ∀ self', _ProcessLine maxint self line = Some self' →
     DisabledTests self' = DisabledTests self ∧ FlakyTests self' = FlakyTests self).
Proof.
  split_and!.
  - intros Hm. destruct (banner_count _ _ _ Hm) as [Hne Hdigits].
    destruct (py_int_digits maxint _ Hne Hdigits) as (n & Hn & Hval & Hint).
    assert (positive (if bool_decide (- maxint - 1 ≤ n ≤ maxint)%Z
                      then PyInt n else PyLong n) = bool_decide (0 < n)%Z)
      as Hpositive by by case_bool_decide.
    exists n. eexists. split_and!; [done..|by apply process_disabled| | | |];
      destruct (read_master_name_shape line self) as [v ->];
      unfold DisabledTests, FlakyTests, on_disabled; rewrite Hint; simpl.
    + by destruct (_ && _).
    + intros Hpos Hi. rewrite Hi, Hpositive, bool_decide_eq_true_2 by done. done.
    + intros Hpos Hi. by rewrite Hi, andb_false_r.
    + intros ->. by rewrite Hpositive.
  - intros Hm. destruct (banner_count _ _ _ Hm) as [Hne Hdigits].
    destruct (py_int_digits maxint _ Hne Hdigits) as (n & Hn & Hval & Hint).
    assert (positive (if bool_decide (- maxint - 1 ≤ n ≤ maxint)%Z
                      then PyInt n else PyLong n) = bool_decide (0 < n)%Z)
      as Hpositive by by case_bool_decide.
    exists n. eexists. split_and!; [done..|by apply process_flaky| | | |];
      destruct (read_master_name_shape line self) as [v ->];
      unfold DisabledTests, FlakyTests, on_flaky; rewrite Hint; simpl.
    + by destruct (_ && _).
    + intros Hpos Hi. rewrite Hi, Hpositive, bool_decide_eq_true_2 by done. done.
    + intros Hpos Hi. by rewrite Hi, andb_false_r.
    + intros ->. by rewrite Hpositive.
  - intros Hd Hf self' H.
    by destruct (no_banner_same_counts maxint self line self' Hd Hf H).
Qed.

Lemma banner_count_policy_witness :
  (∃ self', _ProcessLine maxint64 init "YOU HAVE 3 DISABLED TESTS" = Some self' ∧
            DisabledTests self' = PyInt 3 ∧ FlakyTests self' = PyInt 0) ∧
  (∃ self', _ProcessLine maxint64 init "YOU HAVE 0 FLAKY TESTS" = Some self' ∧
            FlakyTests self' = PyStr "some") ∧
  (∃ self', _ProcessLine maxint64 (run_log maxint64 ["YOU HAVE 0 DISABLED TESTS"])
              "YOU HAVE 3 DISABLED TESTS" = Some self' ∧
            DisabledTests self' = PyStr "some") ∧
  (∃ self', _ProcessLine maxint64 init "YOU HAVE abc DISABLED TESTS" = Some self' ∧
            DisabledTests self' = PyInt 0).
Proof.
  split_and!.
  - destruct (banner_count_policy maxint64 init "YOU HAVE 3 DISABLED TESTS"
                {| m_start := 0; m_group1 := "3" |}) as (Hd & _ & _).
    destruct Hd as (n & self' & _ & Hval & _ & H & Hf & Hpos & _);
      [vm_compute; reflexivity|].
    vm_compute in Hval. injection Hval as <-.
    exists self'. split; [exact H|]. split; [|exact Hf].
    rewrite Hpos; [vm_compute; reflexivity|lia|reflexivity].
  - destruct (banner_count_policy maxint64 init "YOU HAVE 0 FLAKY TESTS"
                {| m_start := 0; m_group1 := "0" |}) as (_ & Hf & _).
    destruct Hf as (n & self' & _ & Hval & _ & H & _ & _ & _ & Hzero);
      [vm_compute; reflexivity|].
    vm_compute in Hval. injection Hval as <-.
    exists self'. split; [exact H|]. by apply Hzero.
  - destruct (banner_count_policy maxint64
                (run_log maxint64 ["YOU HAVE 0 DISABLED TESTS"])
                "YOU HAVE 3 DISABLED TESTS"
                {| m_start := 0; m_group1 := "3" |}) as (Hd & _ & _).
    destruct Hd as (n & self' & _ & Hval & _ & H & _ & _ & Hsome & _);
      [vm_compute; reflexivity|].
    vm_compute in Hval. injection Hval as <-.
    exists self'. split; [exact H|]. apply Hsome; [lia|vm_compute; reflexivity].
  - destruct (banner_count_policy maxint64 init "YOU HAVE abc DISABLED TESTS"
                {| m_start := 0; m_group1 := "" |}) as (_ & _ & Hother).
    assert (∃ self', _ProcessLine maxint64 init "YOU HAVE abc DISABLED TESTS"
                     = Some self') as [self' H]
      by (eexists; vm_compute; reflexivity).
    exists self'. split; [exact H|].
    destruct (Hother eq_refl eq_refl self' H) as [-> _]. reflexivity.
Defined.

End GTestBannerClaims.

Module GTestSuppressionFacts.
Import Re ReFacts ReCaptureFacts GTest GTestFacts GTestReportFacts.

Lemma elem_of_SuppressionHashes self h :
  h ∈ SuppressionHashes self ↔ is_Some (_suppressions self !! h).
Proof.
  unfold SuppressionHashes. rewrite list_elem_of_fmap. split.
  - intros ([h' v] & -> & Hin%elem_of_map_to_list). by exists v.
  - intros [v Hv]. exists (h, v). split; [done|]. by apply elem_of_map_to_list.
Qed.

Lemma kind_of_suppression_start line results :
  kind_of line = IsSuppressionStart results →
  rmatch _suppression_start line = Some results.
Proof. unfold kind_of. intros H. repeat case_match; congruence. Qed.

Section Suppressions.
Variable maxint : Z.

Lemma ProcessLine_in_one_piece self line :
  in_one_piece line = true →
  ProcessLine maxint self line
  = _ProcessLine maxint (set_line_number (S (_line_number self)) self) line.
Proof.
  unfold ProcessLine, in_one_piece.
  destruct (first_search gtest_regexps line) as [m|]; [|done]. by intros ->.
Qed.

Lemma ProcessLines_app lines1 lines2 : ∀ self,
  ProcessLines maxint self (lines1 ++ lines2)
  = self ← ProcessLines maxint self lines1; ProcessLines maxint self lines2.
Proof.
  induction lines1 as [|line lines1 IH]; intros self; simpl; [done|].
  destruct (ProcessLine maxint self line); simpl; [apply IH|done].
Qed.

(** The lines of a suppression are gathered, and nothing else changes. *)
Lemma suppression_body body : ∀ self,
  _current_suppression_hash self ≠ "" →
  Forall (λ l, kind_of l = IsOther ∧ in_one_piece l = true) body →
  ∃ self', ProcessLines maxint self body = Some self' ∧
    _current_suppression_hash self' = _current_suppression_hash self ∧
    _current_suppression self' = _current_suppression self ++ body ∧
    _suppressions self' = _suppressions self ∧
    _test_status self' = _test_status self ∧ heap self' = heap self ∧
    _internal_error_lines self' = _internal_error_lines self ∧
    _line_number self' = _line_number self + length body.
Proof.
  induction body as [|line body IH]; intros self Hh Hbody; simpl.
  - eexists. split; [done|]. by rewrite app_nil_r, Nat.add_0_r.
  - apply Forall_cons in Hbody as [[Hk Hp] Hbody].
    rewrite (ProcessLine_in_one_piece _ _ Hp), _ProcessLine_by_kind, Hk. cbv zeta.
    destruct (read_master_name_shape line (set_line_number (S (_line_number self)) self))
      as [v ->].
    unfold on_other_line. simpl.
    rewrite bool_decide_eq_true_2 by done. simpl.
    edestruct IH as (self' & -> & H1 & H2 & H3 & H4 & H5 & H6 & H7); [|exact Hbody|].
    { simpl. exact Hh. }
    eexists. split; [done|]. simpl in *.
    rewrite H1, H2, H3, H4, H5, H6, H7, <-app_assoc. split_and!; try done; lia.
Qed.

End Suppressions.

End GTestSuppressionFacts.

Module GTestSuppressions.
Import Re ReFacts ReCaptureFacts GTest GTestFacts GTestReportFacts GTestSuppressionFacts.

(** X13: a suppression is recorded whole.  After the line that starts the
    suppression of a hash, lines that [_ProcessLine] does not recognise, and
    the closing brace, [Suppression] returns for the hash the lines from the
    first to the last, the hash is among [SuppressionHashes], and no test
    has changed.  A hash that was already known is recorded as a parsing
    error, with the number of the first line. *)
Theorem suppression_is_collected (maxint : Z) (self : GTestLogParser)
    (start : string) (results : match_obj) (body : list string) (stop : string) :
  kind_of start = IsSuppressionStart results → in_one_piece start = true →
  Forall (λ l, kind_of l = IsOther ∧ in_one_piece l = true) body →
  kind_of stop = IsSuppressionEnd → in_one_piece stop = true →
  ∃ self', ProcessLines maxint self (start :: body ++ [stop]) = Some self' ∧
    Suppression self' (m_group1 results) = start :: body ++ [stop] ∧
    m_group1 results ∈ SuppressionHashes self' ∧
    (∀ t, _StatusOfTest self' t = _StatusOfTest self t ∧
          FailureDescription self' t = FailureDescription self t) ∧
    ParsingErrors self'
      = ParsingErrors self ++
        (if bool_decide (m_group1 results ∈ SuppressionHashes self)
         then [str_of_nat (S (_line_number self)) +:+ ": " +:+ strip start +:+
               " [suppression reported more than once]"]
         else []).
Proof.
  intros Hstart Hp Hbody Hstop Hp'.
  pose proof (suppression_hash _ _ (kind_of_suppression_start _ _ Hstart)) as Hne.
  cbn [ProcessLines].
  rewrite (ProcessLine_in_one_piece _ _ _ Hp), _ProcessLine_by_kind, Hstart. cbv zeta.
  destruct (read_master_name_shape start (set_line_number (S (_line_number self)) self))
    as [v ->].
  simpl.
  set (started := on_suppression_start start results _).
  assert (_current_suppression_hash started = m_group1 results ∧
          _current_suppression started = [start] ∧
          _suppressions started = <[m_group1 results := []]> (_suppressions self) ∧
          _test_status started = _test_status self ∧ heap started = heap self ∧
          _internal_error_lines started
          = _internal_error_lines self ++
            (if bool_decide (m_group1 results ∈ SuppressionHashes self)
             then [str_of_nat (S (_line_number self)) +:+ ": " +:+ strip start +:+
                   " [suppression reported more than once]"]
             else [])) as (S1 & S2 & S3 & S4 & S5 & S6).
  { unfold started, on_suppression_start, _RecordError. simpl.
    rewrite (bool_decide_ext _ _ (elem_of_SuppressionHashes self (m_group1 results))).
    case_bool_decide; simpl; rewrite ?app_nil_r; done. }
  clearbody started.
  rewrite ProcessLines_app.
  destruct (suppression_body maxint body started) as
    (mid & -> & M1 & M2 & M3 & M4 & M5 & M6 & _); [by rewrite S1|done|].
  simpl.
  rewrite (ProcessLine_in_one_piece _ _ _ Hp'), _ProcessLine_by_kind, Hstop. cbv zeta.
  destruct (read_master_name_shape stop (set_line_number (S (_line_number mid)) mid))
    as [v' ->].
  simpl. rewrite bool_decide_eq_true_2 by (by rewrite M1, S1). simpl.
  eexists. split; [done|].
  unfold Suppression, on_suppression_end, ParsingErrors, _StatusOfTest,
    FailureDescription, deref. simpl.
  rewrite M1, M2, M3, M4, M5, M6, S1, S2, S3, S4, S5, S6.
  split_and!; try done.
  - by rewrite lookup_insert_eq.
  - apply elem_of_SuppressionHashes. simpl. rewrite lookup_insert_eq. by eexists.
Qed.

Lemma suppression_is_collected_witness :
  ∃ self',
    ProcessLines maxint64 init
      ("Suppression (error hash=#0123ABCD#):" ::
       ["{"; "   <insert_a_suppression_name_here>"; "   Memcheck:Leak"; "   fun:malloc"] ++
       ["}"]) = Some self' ∧
    Suppression self' "0123ABCD"
      = ["Suppression (error hash=#0123ABCD#):"; "{";
         "   <insert_a_suppression_name_here>"; "   Memcheck:Leak"; "   fun:malloc"; "}"] ∧
    "0123ABCD" ∈ SuppressionHashes self'.
Proof.
  destruct (suppression_is_collected maxint64 init
              "Suppression (error hash=#0123ABCD#):"
              {| m_start := 0; m_group1 := "0123ABCD" |}
              ["{"; "   <insert_a_suppression_name_here>"; "   Memcheck:Leak"; "   fun:malloc"]
              "}")
    as (self' & Hrun & Hs & Hin & _).
  - vm_compute. reflexivity.
  - vm_compute. reflexivity.
  - repeat constructor.
  - vm_compute. reflexivity.
  - vm_compute. reflexivity.
  - exists self'. split; [exact Hrun|]. split; [exact Hs|exact Hin].
Defined.

End GTestSuppressions.
(** * More facts about the step engine *)
Module EngineFacts.
Import Py Properties AnnotatedRun AnnotatedRunFacts PropertiesFacts.

Lemma ensure_generator_app good : ∀ more,
  Forall (λ i, (ensure_sequence_of_steps i).2 = None) good →
  ensure_sequence_of_steps (Generator (good ++ more))
  = (flat_map (λ i, (ensure_sequence_of_steps i).1) good
       ++ (ensure_sequence_of_steps (Generator more)).1,
     (ensure_sequence_of_steps (Generator more)).2).
Proof.
  induction good as [|i good IH]; intros more Hgood.
  - change ([] ++ more) with more. cbn [flat_map app].
    by destruct (ensure_sequence_of_steps (Generator more)).
  - apply Forall_cons in Hgood as [Hi Hgood]. specialize (IH more Hgood).
    change (ensure_sequence_of_steps (Generator ((i :: good) ++ more)))
      with (match ensure_sequence_of_steps i with
            | (steps, Some e) => (steps, Some e)
            | (steps, None) =>
                let '(steps', e) := ensure_sequence_of_steps (Generator (good ++ more)) in
                (steps ++ steps', e)
            end).
    rewrite IH. cbn [flat_map].
    destruct (ensure_sequence_of_steps i) as [steps [e|]]; simpl in *; [done|].
    by rewrite app_assoc.
Qed.

Lemma well_shaped_ensure src :
  well_shaped src = true → (ensure_sequence_of_steps src).2 = None.
Proof. intros H. by apply ensure_well_shaped. Qed.

Lemma ill_shaped_ensure src :
  well_shaped src = false → ∃ e, (ensure_sequence_of_steps src).2 = Some e.
Proof.
  induction src as [s|items|yields IH|] using source_induction; [done|done| |by eexists].
  intros Hbad. change (forallb well_shaped yields = false) in Hbad.
  induction IH as [|i yields Hi _ IHyields]; [done|].
  change (ensure_sequence_of_steps (Generator (i :: yields)))
    with (match ensure_sequence_of_steps i with
          | (steps, Some e) => (steps, Some e)
          | (steps, None) =>
              let '(steps', e) := ensure_sequence_of_steps (Generator yields) in
              (steps ++ steps', e)
          end).
  simpl in Hbad. destruct (well_shaped i) eqn:Hshape.
  - rewrite (surjective_pairing (ensure_sequence_of_steps i)), (well_shaped_ensure i Hshape).
    destruct (IHyields Hbad) as [e He]. exists e.
    by destruct (ensure_sequence_of_steps (Generator yields)).
  - destruct (Hi eq_refl) as [e He]. exists e.
    destruct (ensure_sequence_of_steps i) as [steps stop]. simpl in He. by subst.
Qed.

Lemma finalize_no_verdict (a : annotation) :
  (∀ text, a ≠ ann_step_text text) → (∀ text, a ≠ ann_step_summary_text text) →
  (∀ n lines perf, a ≠ write_log_lines n lines perf) →
  ∀ (text summary : list annotation) (logs perf : list (string * list string)) verdict,
    (∀ x, x ∈ text → ∃ t, x = ann_step_text t) →
    (∀ x, x ∈ summary → ∃ t, x = ann_step_summary_text t) →
    (a ∈ text ++ summary ++ ((λ kv, write_log_lines kv.1 kv.2 false) <$> logs) ++
           ((λ kv, write_log_lines kv.1 kv.2 true) <$> perf) ++ verdict ↔ a ∈ verdict).
Proof.
  intros H1 H2 H3 text summary logs perf verdict Ht Hs.
  rewrite !elem_of_app, !list_elem_of_fmap. split; [|auto].
  intros [Hin|[Hin|[(kv & -> & _)|[(kv & -> & _)|Hin]]]]; [| | | |done].
  - destruct (Ht _ Hin) as [t ->]. by destruct (H1 t).
  - destruct (Hs _ Hin) as [t ->]. by destruct (H2 t).
  - by destruct (H3 kv.1 kv.2 false).
  - by destruct (H3 kv.1 kv.2 true).
Qed.

(** [render_cmd] with the placeholders found so far. *)
Lemma render_cmd_spec td cmd : ∀ phs,
  NoDup phs.*1 →
  (render_cmd cmd td phs).1 = flat_map (rendered_item td) cmd ∧
  NoDup (render_cmd cmd td phs).2.*1 ∧
  ∀ api, default [] (dict_get api (render_cmd cmd td phs).2)
         = default [] (dict_get api phs) ++ filter (λ p, api_name p = api) (holes cmd).
Proof.
  induction cmd as [|item cmd IH]; intros phs Hphs; simpl.
  - split_and!; [done..|]. intros api. by rewrite app_nil_r.
  - destruct item as [a|p].
    + destruct (IH phs Hphs) as (H1 & H2 & H3).
      destruct (render_cmd cmd td phs) as [new_cmd phs']. simpl in *.
      split_and!; [by f_equal|done|done].
    + set (phs1 := dict_set (api_name p)
                     (default [] (dict_get (api_name p) phs) ++ [p]) phs).
      destruct (IH phs1) as (H1 & H2 & H3); [by apply dict_set_keys_NoDup|].
      destruct (render_cmd cmd td phs1) as [new_cmd phs']. simpl in *.
      split_and!; [by f_equal|done|].
      intros api. rewrite H3. unfold phs1. rewrite dict_get_set.
      rewrite filter_cons. case_bool_decide as Hapi; case_decide; try done.
      subst api. simpl. by rewrite <-app_assoc.
Qed.


(** ** finalize *)

Lemma finalize_told p σ :
  valid_presentation σ p →
  (finalize p σ).2 =
    (if truthy (_step_text p) then [ann_step_text (default "" (_step_text p))] else []) ++
    (if truthy (_step_summary_text p)
     then [ann_step_summary_text (default "" (_step_summary_text p))] else []) ++
    ((λ kv, write_log_lines kv.1 kv.2 false) <$> snapshot σ (_logs p)) ++
    ((λ kv, write_log_lines kv.1 kv.2 true) <$> snapshot σ (_perf_logs p)) ++
    match _status p with
    | Some "WARNING" => [step_warnings]
    | Some "FAILURE" => [step_failure]
    | Some "EXCEPTION" => [step_exception]
    | _ => []
    end.
Proof.
  intros [Hl Hp]. unfold finalize, logs, perf_logs, step_text, step_summary_text, status.
  simpl.
  destruct (deepcopy (_logs p) σ) as [d1 σ1] eqn:Hc1.
  destruct (deepcopy_spec _ _ _ _ Hl Hc1) as (Hk1 & _ & Hs1).
  assert (valid_dict σ1 (_perf_logs p)) as Hp1 by (by eapply valid_dict_prefix_kept).
  destruct (deepcopy (_perf_logs p) σ1) as [d2 σ2] eqn:Hc2.
  destruct (deepcopy_spec _ _ _ _ Hp1 Hc2) as (Hk2 & _ & Hs2).
  simpl. rewrite Hs1, Hs2.
  by rewrite (snapshot_prefix_kept σ σ1 (_perf_logs p)).
Qed.

(** The status of a presentation is None or one of STATUSES. *)
Lemma act_status a p σ p' σ' :
  act a p σ = Ok (p', σ') →
  _status p ∈ None :: (Some <$> STATUSES) → _status p' ∈ None :: (Some <$> STATUSES).
Proof.
  destruct a as [val|val|val|m|m]; simpl; intros H Hst.
  - unfold set_status, assert in H.
    destruct (negb (_finalized p)); [|done]. simpl in H.
    case_bool_decide; [|done]. simplify_eq/=.
    right. by apply (list_elem_of_fmap_2 Some STATUSES val).
  - unfold set_step_text, assert in H.
    destruct (negb (_finalized p)); by simplify_eq/=.
  - unfold set_step_summary_text, assert in H.
    destruct (negb (_finalized p)); by simplify_eq/=.
  - destruct (logs p σ). by simplify_eq.
  - destruct (perf_logs p σ). by simplify_eq.
Qed.

Lemma act_all_status acts : ∀ p σ p' σ',
  act_all acts p σ = Ok (p', σ') →
  _status p ∈ None :: (Some <$> STATUSES) → _status p' ∈ None :: (Some <$> STATUSES).
Proof.
  induction acts as [|a acts IH]; intros p σ p' σ' H Hst; simpl in H.
  - by simplify_eq.
  - destruct (act a p σ) as [[p1 σ1]|e] eqn:Ha; [|done]. simpl in H.
    eapply IH; [done|]. by eapply act_status.
Qed.

Lemma verdict_of_status st :
  st ∈ None :: (Some <$> STATUSES) →
  let verdict := match st with
                 | Some "WARNING" => [step_warnings]
                 | Some "FAILURE" => [step_failure]
                 | Some "EXCEPTION" => [step_exception]
                 | _ => []
                 end in
  (step_failure ∈ verdict ↔ st = Some "FAILURE") ∧
  (step_warnings ∈ verdict ↔ st = Some "WARNING") ∧
  (step_exception ∈ verdict ↔ st = Some "EXCEPTION").
Proof.
  unfold STATUSES. simpl. rewrite !elem_of_cons, elem_of_nil.
  intros [->|[->|[->|[->|[->|[]]]]]]; simpl;
    rewrite ?list_elem_of_singleton, ?elem_of_nil; split_and!; split; done.
Qed.


(** ** step_callback *)

Lemma step_callback_trace s followup placeholders tdi retcode w r w' :
  step_callback s followup placeholders tdi retcode w = Ok (r, w') →
  ∃ p σ,
    valid_presentation σ p ∧ _status p ∈ None :: (Some <$> STATUSES) ∧
    _status (_presentation r) = _status p ∧
    trace w' =
      trace w ++ [step_cursor (name s)] ++
      (if tdi is None
       then [emit ("step returned non-zero exit code: " +:+ str_of_Z retcode)]
       else []) ++
      (finalize p σ).2.
Proof.
  unfold step_callback. intros H.
  destruct (StepPresentation_init_valid (objects w)) as (Hv0 & Hf0 & Hs0).
  destruct (StepPresentation_init (objects w)) as [p0 σ0]. simpl in *.
  assert (∃ p1, (if bool_decide (retcode > 0)%Z then set_status "FAILURE" p0 else Ok p0)
                  = Ok p1 ∧ valid_presentation σ0 p1 ∧
                _status p1 ∈ None :: (Some <$> STATUSES)) as (p1 & Hp1 & Hv1 & Hs1).
  { case_bool_decide.
    - unfold set_status. rewrite Hf0. simpl. eexists. split_and!; [done..|].
      simpl. apply (bool_decide_unpack _). by vm_compute.
    - eexists. split_and!; [done..|]. rewrite Hs0. left. }
  rewrite Hp1 in H. simpl in H.
  destruct (call_placeholders placeholders tdi p1 σ0) as [[[p2 σ2] added]|e] eqn:Hc;
    [|done]. simpl in H.
  apply call_placeholders_acts in Hc.
  destruct (act_all_spec _ _ _ _ _ Hv1 Hc) as (Hv2 & _ & _).
  pose proof (act_all_status _ _ _ _ _ Hc Hs1) as Hs2.
  set (given := {| _retcode := retcode; _step := s; _presentation := p2;
                   additions := added |}) in *.
  assert (∃ p3 σ3, (if followup is Some f then act_all (f given) p2 σ2 else Ok (p2, σ2))
                     = Ok (p3, σ3) ∧ valid_presentation σ3 p3 ∧
                   _status p3 ∈ None :: (Some <$> STATUSES))
    as (p3 & σ3 & Hp3 & Hv3 & Hs3).
  { destruct followup as [f|].
    - destruct (act_all (f given) p2 σ2) as [[p3 σ3]|e] eqn:Ha; [|done].
      destruct (act_all_spec _ _ _ _ _ Hv2 Ha) as (Hv3 & _ & _).
      pose proof (act_all_status _ _ _ _ _ Ha Hs2). eauto 6.
    - eauto 6. }
  rewrite Hp3 in H. simpl in H.
  exists p3, σ3.
  destruct (finalize_spec p3 σ3) as (_ & Hst & _).
  destruct (finalize p3 σ3) as [[p4 σ4] told]. simpl in *.
  injection H as <- <-. simpl. split_and!; [done..|].
  by rewrite <-!app_assoc.
Qed.

(** ** The loop of run_steps *)

Lemma dict_has_keys {A} (k : string) (d : list (string * A)) :
  dict_has k d = true ↔ k ∈ d.*1.
Proof.
  unfold dict_has. rewrite bool_decide_eq_true.
  induction d as [|[k' v] d IH]; simpl.
  - split; [by intros [? ?]|by intros ?%elem_of_nil].
  - rewrite elem_of_cons. case_bool_decide; [|rewrite IH].
    + split; [by left|by eexists].
    + split; [by right|]. intros [?|?]; [congruence|done].
Qed.

Lemma dict_del_keys {A} (k k0 : string) (d : list (string * A)) :
  k ∈ (dict_del k0 d).*1 ↔ k ≠ k0 ∧ k ∈ d.*1.
Proof.
  unfold dict_del. rewrite !list_elem_of_fmap. split.
  - intros ([k' v] & -> & [Hne Hin]%list_elem_of_filter). simpl in *.
    split; [done|]. by exists (k', v).
  - intros (Hne & [k' v] & -> & Hin). exists (k', v). split; [done|].
    by apply list_elem_of_filter.
Qed.

Section Runs.
Variable run_command : step_dict → Z.
Variable update_build_failure : bool → Z → step_dict → bool.
Variable stream_lines : list annotation → list string.
Variable iteritems : list (string * list Placeholder) → list (string * list Placeholder).

Lemma run_step_test_data s st st' :
  run_step run_command update_build_failure stream_lines iteritems s st = Ok st' →
  pending_test_data st' = dict_del (step_name s) <$> pending_test_data st.
Proof.
  unfold run_step. intros H.
  destruct (render_step _ _) as [rendered phs]. simpl in H.
  destruct (assert _ _); [|done]. simpl in H.
  destruct (pending_test_data st) as [td|]; simpl in H.
  - destruct (step_callback _ _ _ _ _ _) as [[r w']|e]; [|done]. simpl in H.
    case_bool_decide; by simplify_eq/=.
  - destruct (step_callback _ _ _ _ _ _) as [[r w']|e]; [|done]. by simplify_eq/=.
Qed.

Lemma run_loop_test_data steps : ∀ st st',
  run_loop run_command update_build_failure stream_lines iteritems steps st = Ok st' →
  pending_test_data st'
  = (λ td, foldl (λ td s, dict_del (step_name s) td) td steps) <$> pending_test_data st.
Proof.
  induction steps as [|s steps IH]; intros st st' H; simpl in H.
  - simplify_eq. by destruct (pending_test_data st').
  - destruct (run_step _ _ _ _ s st) as [st1|e] eqn:Hs; [|done]. simpl in H.
    apply run_step_test_data in Hs. rewrite (IH _ _ H), Hs.
    by destruct (pending_test_data st).
Qed.

Lemma left_over_test_data steps : ∀ (td : list (string * test_item)) k,
  k ∈ td.*1 → k ∉ step_name <$> steps →
  k ∈ (foldl (λ td s, dict_del (step_name s) td) td steps).*1.
Proof.
  induction steps as [|s steps IH]; intros td k Hin Hout; simpl; [done|].
  apply not_elem_of_cons in Hout as [Hne Hout].
  apply IH; [|done]. by apply dict_del_keys.
Qed.

Lemma run_loop_NoDup steps : ∀ st st',
  run_loop run_command update_build_failure stream_lines iteritems steps st = Ok st' →
  NoDup (step_history (shared st)).*1 → NoDup (step_history (shared st')).*1.
Proof.
  induction steps as [|s steps IH]; intros st st' H Hnd; simpl in H.
  - by simplify_eq.
  - destruct (run_step _ _ _ _ s st) as [st1|e] eqn:Hs; [|done]. simpl in H.
    apply run_step_Ok in Hs as (Hnew & r & Hh & _).
    apply (IH _ _ H). rewrite Hh, fmap_app. simpl.
    apply NoDup_app. split_and!; [done| |apply NoDup_singleton].
    intros k Hk ->%list_elem_of_singleton.
    apply dict_has_keys in Hk. congruence.
Qed.

End Runs.

End EngineFacts.

(** * More facts about the property bag *)
Module FreezeFacts.
Import Py Properties PropertiesFacts.

Lemma mapM_Ok_Forall2 {A B} (f : A → result B) l : ∀ l',
  mapM f l = Ok l' ↔ Forall2 (λ x y, f x = Ok y) l l'.
Proof.
  induction l as [|x l IH]; intros l'.
  - simpl. split; [intros [= <-]; constructor|by intros ->%Forall2_nil_inv_l].
  - rewrite mapM_cons. split.
    + intros H. destruct (f x) as [y|e] eqn:Hx; [|done]. simpl in H.
      destruct (mapM f l) as [rest|e] eqn:Hrest; [|done]. simpl in H.
      simplify_eq. constructor; [done|]. by apply IH.
    + intros (y & rest & Hy & Hrest & ->)%Forall2_cons_inv_l.
      rewrite Hy. simpl. apply IH in Hrest. by rewrite Hrest.
Qed.

Lemma mapM_values_Ok {A B} (f : A → result B) items data :
  mapM_values f items = Ok data ↔
  Forall2 (λ kv kv', kv'.1 = kv.1 ∧ f kv.2 = Ok kv'.2) items data.
Proof.
  unfold mapM_values. rewrite mapM_Ok_Forall2. split; intros H.
  - eapply Forall2_impl; [exact H|]. intros [k v] [k' v'] Hkv. simpl in *.
    destruct (f v); by simplify_eq/=.
  - eapply Forall2_impl; [exact H|]. intros [k v] [k' v'] [Hk Hv]. simpl in *.
    by rewrite Hv, Hk.
Qed.

Lemma mapM_values_keys {A B} (f : A → result B) items data :
  mapM_values f items = Ok data → data.*1 = items.*1.
Proof.
  rewrite mapM_values_Ok. induction 1 as [|[k v] [k' v'] items data [Hk _] _ IH]; [done|].
  simpl in *. by f_equal.
Qed.

Lemma freeze_mapping items v' :
  freeze (PDict items) = Ok v' →
  ∃ data, v' = PImmutibleMapping data ∧ mapM_values freeze items = Ok data ∧
          forallb (λ kv, Hashable kv.2) data = true.
Proof.
  simpl. intros H. destruct (mapM_values freeze items) as [data|e]; [|done].
  simpl in H. unfold ImmutibleMapping, assert in H.
  destruct (forallb (λ kv, Hashable kv.2) data) eqn:Hh; [|done].
  simpl in H. simplify_eq. eauto.
Qed.

Lemma freeze_dict_is_mapping v v' :
  is_dict v = true → freeze v = Ok v' → Hashable v' = false.
Proof.
  destruct v as [| | | | |items| |items|]; try done; intros _ H.
  - by apply freeze_mapping in H as (data & -> & _).
  - change (freeze (PDict items) = Ok v') in H.
    by apply freeze_mapping in H as (data & -> & _).
Qed.

Lemma freeze_idempotent v : ∀ v', freeze v = Ok v' → freeze v' = Ok v'.
Proof.
  assert (∀ items,
            Forall (λ kv : string * pyobj, ∀ v', freeze kv.2 = Ok v' → freeze v' = Ok v') items →
            ∀ v', freeze (PDict items) = Ok v' → freeze v' = Ok v') as Hdict.
  { intros items IH v' (data & -> & Hdata & Hhash)%freeze_mapping.
    change (freeze (PDict data) = Ok (PImmutibleMapping data)).
    assert (mapM_values freeze data = Ok data) as Hagain.
    { apply mapM_values_Ok in Hdata. apply mapM_values_Ok.
      clear Hhash. induction Hdata as [|[k x] [k' x'] items data [Hk Hx] _ IHd].
      - constructor.
      - apply Forall_cons in IH as [Hfirst IH]. constructor; [|by apply IHd].
        split; [done|]. by apply Hfirst. }
    simpl. rewrite Hagain. simpl. unfold ImmutibleMapping. by rewrite Hhash. }
  induction v as [|b|n|s|items IH|items IH|items IH|items IH|h r]
    using pyobj_induction; intros v' H; try (by simpl in H; simplify_eq).
  - simpl in H. destruct (mapM freeze items) as [frozen|e]; [|done].
    by simplify_eq/=.
  - by apply (Hdict items).
  - by apply (Hdict items).
  - simpl in H. by destruct h; simplify_eq.
Qed.

Lemma mapM_values_elem {A B} (f : A → result B) items data k v :
  mapM_values f items = Ok data → (k, v) ∈ items →
  ∃ v', f v = Ok v' ∧ (k, v') ∈ data.
Proof.
  rewrite mapM_values_Ok. induction 1 as [|[k0 x] [k0' x'] items data [Hk Hx] _ IH].
  - by intros ?%elem_of_nil.
  - simpl in *. intros [?|Hin]%elem_of_cons.
    + simplify_eq. exists x'. split; [done|]. left.
    + destruct (IH Hin) as (v' & Hv' & Hin'). exists v'. split; [done|]. by right.
Qed.

Lemma freeze_dict_value items k v :
  (k, v) ∈ items → is_dict v = true → ∃ e, freeze (PDict items) = Raise e.
Proof.
  intros Hin Hv. destruct (freeze (PDict items)) as [v'|e] eqn:Hf; [exfalso|by eexists].
  apply freeze_mapping in Hf as (data & _ & Hdata & Hhash).
  destruct (mapM_values_elem _ _ _ _ _ Hdata Hin) as (x' & Hx' & Hin').
  rewrite forallb_forall in Hhash.
  apply list_elem_of_In, Hhash in Hin'. simpl in Hin'.
  by rewrite (freeze_dict_is_mapping v x' Hv Hx') in Hin'.
Qed.

End FreezeFacts.

(** * Properties of the property bag *)
Module FreezeProperties.
Import Py Properties PropertiesFacts FreezeFacts.

(** X21: [freeze] is idempotent: freezing what [freeze] returned gives it
    back unchanged. *)
Theorem freeze_is_idempotent (v v' : pyobj) :
  freeze v = Ok v' → freeze v' = Ok v'.
Proof. apply freeze_idempotent. Qed.

Lemma freeze_is_idempotent_witness :
  freeze (PList [PStr "a"; PDict [("k", PList [PInt 1])]])
    = Ok (PTuple [PStr "a"; PImmutibleMapping [("k", PTuple [PInt 1])]]) ∧
  freeze (PTuple [PStr "a"; PImmutibleMapping [("k", PTuple [PInt 1])]])
    = Ok (PTuple [PStr "a"; PImmutibleMapping [("k", PTuple [PInt 1])]]).
Proof.
  split; [reflexivity|].
  apply (freeze_is_idempotent (PList [PStr "a"; PDict [("k", PList [PInt 1])]])).
  reflexivity.
Defined.

(** X22: a dict that holds a dict as the value of a key cannot be frozen:
    the inner dict becomes an ImmutibleMapping, which is a dict without a
    __hash__ and so fails the Hashable test of ImmutibleMapping.__init__;
    [freeze] and with it the constructor of PropertiesApi raise. *)
Theorem dict_valued_item_cannot_be_frozen (items : list (string * pyobj))
    (k : string) (v : pyobj) :
  (k, v) ∈ items → is_dict v = true →
  (∃ e, freeze (PDict items) = Raise e) ∧
  (∃ e, PropertiesApi_init items = Raise e).
Proof.
  intros Hin Hv. destruct (freeze_dict_value items k v Hin Hv) as [e He].
  split; [by exists e|]. exists e. unfold PropertiesApi_init. by rewrite He.
Qed.

Lemma dict_valued_item_cannot_be_frozen_witness :
  PropertiesApi_init [("recipe", PStr "r"); ("env", PDict [])]
  = Raise (AssertionError
             "all(isinstance(v, collections.Hashable) for v in self.itervalues())").
Proof.
  destruct (dict_valued_item_cannot_be_frozen
              [("recipe", PStr "r"); ("env", PDict [])] "env" (PDict []))
    as [_ [e He]].
  - right. left.
  - reflexivity.
  - rewrite He. vm_compute in He. by injection He as <-.
Defined.

(** X23: the frozen view has the keys of the dict it is made from, no more
    and no fewer: iterating it gives these keys, its length is their
    number, the value of a key is the frozen value of the dict, and a key
    that is not there raises KeyError. *)
Theorem view_has_the_keys_of_the_properties (properties : list (string * pyobj))
    (api : PropertiesApi) :
  PropertiesApi_init properties = Ok api →
  (∀ k, k ∈ iter api ↔ k ∈ properties.*1) ∧
  len api = length properties ∧
  (∀ k v, dict_get k properties = Some v →
          ∃ v', freeze v = Ok v' ∧ getitem api k = Ok v') ∧
  (∀ k, k ∉ properties.*1 → getitem api k = Raise (KeyError k)).
Proof.
  unfold PropertiesApi_init. intros H.
  destruct (freeze (PDict properties)) as [frozen|e] eqn:Hf; [|done].
  simpl in H. simplify_eq.
  apply freeze_mapping in Hf as (data & -> & Hdata & _).
  pose proof (mapM_values_keys _ _ _ Hdata) as Hkeys.
  unfold iter, len, getitem. simpl. split_and!.
  - intros k. by rewrite Hkeys.
  - by rewrite <-(length_fmap fst data), Hkeys, length_fmap.
  - intros k v Hget.
    destruct (mapM_values_get _ _ _ _ _ Hdata Hget) as (v' & Hv' & Hget').
    exists v'. by rewrite Hget'.
  - intros k Hk. rewrite dict_get_None; [done|]. by rewrite Hkeys.
Qed.

Lemma view_has_the_keys_of_the_properties_witness :
  ∃ api,
    PropertiesApi_init [("recipe", PStr "r"); ("tags", PList [PStr "x"])] = Ok api ∧
    len api = 2 ∧ getitem api "tags" = Ok (PTuple [PStr "x"]) ∧
    getitem api "branch" = Raise (KeyError "branch").
Proof.
  destruct (PropertiesApi_init [("recipe", PStr "r"); ("tags", PList [PStr "x"])])
    as [api|e] eqn:Hinit; [|by vm_compute in Hinit].
  destruct (view_has_the_keys_of_the_properties _ _ Hinit)
    as (_ & Hlen & Hget & Hmissing).
  exists api. split; [done|]. split; [exact Hlen|]. split.
  - destruct (Hget "tags" (PList [PStr "x"]) eq_refl) as (v' & Hv' & ->).
    vm_compute in Hv'. by injection Hv' as <-.
  - apply Hmissing. intros Hin. simpl in Hin.
    repeat (apply elem_of_cons in Hin as [Hin|Hin]; [done|]).
    by apply elem_of_nil in Hin.
Defined.

End FreezeProperties.

(** * Properties of the gtest log classifier *)
Module GTestReports.
Import Re ReFacts GTest GTestFacts GTestReportFacts.

(** X1: [FailedTests] lists no test twice, and it lists exactly the tests
    that timed out or are still running, and the tests that failed or only
    passed in the retry, the latter two without the tests whose name holds
    FAILS_ or FLAKY_ unless the caller asks for them. *)
Theorem FailedTests_lists_each_failure_once (self : GTestLogParser)
    (include_fails include_flaky : bool) :
  NoDup (FailedTests self include_fails include_flaky) ∧
  ∀ t, t ∈ FailedTests self include_fails include_flaky ↔
       _StatusOfTest self t ∈ ["timeout"; "started"] ∨
       _StatusOfTest self t ∈ ["failed"; "warning"] ∧
       (include_fails = true ∨ find "FAILS_" t = (-1)%Z) ∧
       (include_flaky = true ∨ find "FLAKY_" t = (-1)%Z).
Proof.
  split; [apply NoDup_FailedTests|]. intros t. apply elem_of_FailedTests.
Qed.

(** X2: [CompletedWithoutFailure] holds exactly when the log has declared
    all tests passed, no test timed out or is still running, and every test
    that failed or only passed in the retry carries FAILS_ or FLAKY_ in its
    name. *)
Theorem CompletedWithoutFailure_spec (self : GTestLogParser) :
  CompletedWithoutFailure self = true ↔
  completed self = true ∧
  ∀ t, (_StatusOfTest self t ∉ ["timeout"; "started"]) ∧
       (_StatusOfTest self t ∈ ["failed"; "warning"] →
        marked "FAILS_" t ∨ marked "FLAKY_" t).
Proof.
  unfold CompletedWithoutFailure. rewrite andb_true_iff.
  apply and_iff_compat_l. unfold marked. split.
  - intros Hnone t.
    assert (t ∉ FailedTests self false false) as Hout
      by (destruct (FailedTests self false false); [apply not_elem_of_nil|done]).
    rewrite elem_of_FailedTests in Hout. split.
    + intros Hin. apply Hout. by left.
    + intros Hin.
      destruct (decide (find "FAILS_" t = (-1)%Z)) as [Hfails|]; [|by left].
      destruct (decide (find "FLAKY_" t = (-1)%Z)) as [Hflaky|]; [|by right].
      destruct Hout. right. auto.
  - intros Hall.
    destruct (FailedTests self false false) as [|t l] eqn:Hlist; [done|exfalso].
    assert (t ∈ FailedTests self false false) as Hin by (rewrite Hlist; left).
    destruct (Hall t) as [Hrun Hfail].
    apply elem_of_FailedTests in Hin as [Hin|(Hin & [?|Hfails] & [?|Hflaky])];
      try done.
    destruct (Hfail Hin); done.
Qed.

(** X3: a new parser reads every log without raising (the subscript
    [self._test_status[self._current_test]] always finds its key); it has
    then counted each line once, and the status of every test is 'not
    known' or one of the five statuses that __init__ lists. *)
Theorem log_is_read_without_error (maxint : Z) (lines : list string) :
  ProcessLines maxint init lines = Some (run_log maxint lines) ∧
  _line_number (run_log maxint lines) = length lines ∧
  ∀ t, _StatusOfTest (run_log maxint lines) t ∈ "not known" :: statuses.
Proof.
  destruct (run_log_spec maxint lines) as [Hrun (_ & _ & He)].
  split; [done|]. split.
  - by apply ProcessLines_extends in Hrun as (_ & -> & _).
  - intros t. unfold _StatusOfTest.
    destruct (_test_status (run_log maxint lines) !! t) as [[status l]|] eqn:Ht.
    + right. by destruct (He t status l Ht) as (_ & ? & _).
    + left.
Qed.

(** X4: after any log, a test whose status is 'OK' has an empty failure
    description: [FailureDescription] returns the line with its name and
    nothing else. *)
Theorem passed_test_has_no_description (maxint : Z) (lines : list string) (t : string) :
  _StatusOfTest (run_log maxint lines) t = "OK" →
  FailureDescription (run_log maxint lines) t = [t +:+ ": "].
Proof.
  destruct (run_log_spec maxint lines) as [_ (_ & _ & He)].
  unfold _StatusOfTest, FailureDescription.
  destruct (_test_status (run_log maxint lines) !! t) as [[status l]|] eqn:Ht;
    [|done].
  intros ->. destruct (He t "OK" l Ht) as (_ & _ & Hok & _).
  destruct Hok as [-> _]; done.
Qed.

Lemma passed_test_has_no_description_witness :
  _StatusOfTest
    (run_log maxint64 ["[ RUN      ] Foo.Bar"; "some output"; "[       OK ] Foo.Bar (1 ms)"])
    "Foo.Bar" = "OK" ∧
  FailureDescription
    (run_log maxint64 ["[ RUN      ] Foo.Bar"; "some output"; "[       OK ] Foo.Bar (1 ms)"])
    "Foo.Bar" = ["Foo.Bar: "].
Proof.
  split; [vm_compute; reflexivity|].
  apply (passed_test_has_no_description maxint64
           ["[ RUN      ] Foo.Bar"; "some output"; "[       OK ] Foo.Bar (1 ms)"] "Foo.Bar").
  vm_compute. reflexivity.
Defined.

(** X5: after any log, the failure description of a test that
    [RunningTests] lists starts, after the line with its name, with the text
    "Did not complete.". *)
Theorem running_test_did_not_complete (maxint : Z) (lines : list string) (t : string) :
  t ∈ RunningTests (run_log maxint lines) →
  ∃ more, FailureDescription (run_log maxint lines) t
          = [t +:+ ": "; "Did not complete."] ++ more.
Proof.
  destruct (run_log_spec maxint lines) as [_ (_ & _ & He)].
  unfold RunningTests. intros ([l Hl] & _)%elem_of_TestsByStatus.
  unfold FailureDescription. rewrite Hl.
  destruct (He t "started" l Hl) as (_ & _ & _ & Hst). specialize (Hst eq_refl).
  destruct (deref (run_log maxint lines) l) as [|line more]; simplify_eq/=.
  by exists more.
Qed.

Lemma running_test_did_not_complete_witness :
  "Foo.Bar" ∈ RunningTests (run_log maxint64 ["[ RUN      ] Foo.Bar"; "some output"]) ∧
  ∃ more,
    FailureDescription (run_log maxint64 ["[ RUN      ] Foo.Bar"; "some output"]) "Foo.Bar"
    = ["Foo.Bar: "; "Did not complete."] ++ more.
Proof.
  assert ("Foo.Bar" ∈ RunningTests (run_log maxint64 ["[ RUN      ] Foo.Bar"; "some output"]))
    as Hin.
  { apply elem_of_TestsByStatus. split; [|by auto].
    eexists. vm_compute. reflexivity. }
  split; [exact Hin|].
  exact (running_test_did_not_complete maxint64
           ["[ RUN      ] Foo.Bar"; "some output"] "Foo.Bar" Hin).
Defined.

(** X6: parsing errors are only ever appended: what [ParsingErrors]
    returned before a run of lines is a prefix of what it returns after; and
    after [ClearParsingErrors] the list starts with the line 'Cleared.',
    whatever is read next. *)
Theorem parsing_errors_are_appended (maxint : Z) (self self' : GTestLogParser)
    (lines : list string) :
  (ProcessLines maxint self lines = Some self' →
   ParsingErrors self `prefix_of` ParsingErrors self') ∧
  (ProcessLines maxint (ClearParsingErrors self) lines = Some self' →
   ∃ errors, ParsingErrors self' = "Cleared." :: errors).
Proof.
  split.
  - by intros (H & _)%ProcessLines_extends.
  - intros ([errors H] & _)%ProcessLines_extends. exists errors.
    unfold ParsingErrors. by rewrite H.
Qed.

Lemma parsing_errors_are_appended_witness :
  let self := run_log maxint64 ["[       OK ] Foo.Bar (1 ms)"] in
  let lines := ["[       OK ] Foo.Baz (1 ms)"] in
  let after := default init (ProcessLines maxint64 self lines) in
  let cleared := default init (ProcessLines maxint64 (ClearParsingErrors self) lines) in
  ProcessLines maxint64 self lines = Some after ∧
  ParsingErrors self `prefix_of` ParsingErrors after ∧
  ProcessLines maxint64 (ClearParsingErrors self) lines = Some cleared ∧
  ∃ errors, ParsingErrors cleared = "Cleared." :: errors.
Proof.
  intros self lines after cleared.
  assert (ProcessLines maxint64 self lines = Some after) as Hrun
    by (vm_compute; reflexivity).
  assert (ProcessLines maxint64 (ClearParsingErrors self) lines = Some cleared) as Hclr
    by (vm_compute; reflexivity).
  split; [exact Hrun|]. split.
  - exact (proj1 (parsing_errors_are_appended maxint64 self after lines) Hrun).
  - split; [exact Hclr|].
    exact (proj2 (parsing_errors_are_appended maxint64 self cleared lines) Hclr).
Defined.

(** X7: the master name, once read, and the flags [completed] and
    [retrying_failed], once set, are never changed by a later line. *)
Theorem master_name_and_flags_are_set_once (maxint : Z) (self self' : GTestLogParser)
    (lines : list string) :
  ProcessLines maxint self lines = Some self' →
  (master_name self ≠ "" → master_name self' = master_name self) ∧
  (completed self = true → completed self' = true) ∧
  (retrying_failed self = true → retrying_failed self' = true).
Proof. by intros (_ & _ & H)%ProcessLines_extends. Qed.

Lemma master_name_and_flags_are_set_once_witness :
  let named :=
    run_log maxint64
      ["[Running for master: " +:+ String dquote "chromium.win" +:+ String dquote "";
       "[  PASSED  ] 3 tests."; "RETRYING FAILED TESTS:"] in
  let lines :=
    ["[Running for master: " +:+ String dquote "other" +:+ String dquote "";
     "[ RUN      ] Foo.Bar"] in
  let final := default init (ProcessLines maxint64 named lines) in
  ProcessLines maxint64 named lines = Some final ∧
  master_name final = "chromium.win" ∧ completed final = true ∧
  retrying_failed final = true.
Proof.
  intros named lines final.
  assert (ProcessLines maxint64 named lines = Some final) as Hrun
    by (vm_compute; reflexivity).
  split; [exact Hrun|].
  destruct (master_name_and_flags_are_set_once maxint64 named final lines Hrun)
    as (Hm & Hc & Hr).
  split; [|split].
  - rewrite Hm; [vm_compute; reflexivity|]. vm_compute. intros ?. discriminate.
  - apply Hc. vm_compute. reflexivity.
  - apply Hr. vm_compute. reflexivity.
Defined.

End GTestReports.

Module GTestLines.
Import Re ReFacts GTest GTestFacts GTestReportFacts.

Local Ltac store_tac :=
  simpl; unfold loc in *;
  rewrite ?lookup_insert_eq; simpl;
  rewrite ?app_nil_r, ?lookup_snoc_nil, ?lookup_end_nil;
  split_and?; try done.

(** X8: a success line [[       OK ] T] makes T 'OK' with an empty
    description, or, while failed tests are being retried, 'warning' with
    the lines gathered so far; it ends the current test.  When T was not
    running, the line is also recorded as a parsing error, with its number.
    No other test is touched. *)
Theorem success_line_is_recorded (maxint : Z) (self : GTestLogParser) (line : string)
    (results : match_obj) :
  rmatch _test_ok line = Some results →
  ∃ self', _ProcessLine maxint self line = Some self' ∧
    GetCurrentTest self' = "" ∧
    _StatusOfTest self' (m_group1 results)
      = (if retrying_failed self then "warning" else "OK") ∧
    FailureDescription self' (m_group1 results)
      = [m_group1 results +:+ ": "] ++
        (if retrying_failed self then deref self (_failure_description self) else []) ∧
    ParsingErrors self'
      = ParsingErrors self ++
        (if bool_decide (_StatusOfTest self (m_group1 results) = "started") then []
         else [str_of_nat (_line_number self) +:+ ": " +:+ strip line +:+
               " [success while in status " +:+
               _StatusOfTest self (m_group1 results) +:+ "]"]) ∧
    ∀ t, t ≠ m_group1 results →
         _StatusOfTest self' t = _StatusOfTest self t ∧
         FailureDescription self' t = FailureDescription self t.
Proof.
  intros Hm. rewrite _ProcessLine_by_kind, (kind_of_ok _ _ Hm). cbv zeta.
  destruct (read_master_name_shape line self) as [v ->].
  eexists. split; [done|].
  unfold on_test_ok, _RecordError, store_new, reset_failure_description, alloc,
    GetCurrentTest, ParsingErrors, FailureDescription, deref.
  change (_StatusOfTest (set_master_name v self)) with (_StatusOfTest self).
  destruct (decide (_StatusOfTest self (m_group1 results) = "started")) as [Hs|Hs].
  - rewrite (bool_decide_eq_false_2 (_StatusOfTest self (m_group1 results) ≠ "started"))
      by (intros Hn; exact (Hn Hs)).
    rewrite (bool_decide_eq_true_2 _ Hs).
    unfold _StatusOfTest. simpl. destruct (retrying_failed self); store_tac.
    all: intros t Ht; rewrite !lookup_insert_ne by congruence; split; [reflexivity|].
    all: repeat case_match; simplify_eq; by rewrite ?lookup_snoc_nil.
  - rewrite (bool_decide_eq_true_2 _ Hs), (bool_decide_eq_false_2 _ Hs).
    unfold _StatusOfTest. simpl. destruct (retrying_failed self); store_tac.
    all: intros t Ht; rewrite !lookup_insert_ne by congruence; split; [reflexivity|].
    all: repeat case_match; simplify_eq; by rewrite ?lookup_snoc_nil.
Qed.

Lemma success_line_is_recorded_witness :
  ∃ self',
    _ProcessLine maxint64 (run_log maxint64 ["[       OK ] Foo.Bar (1 ms)"])
      "[       OK ] Foo.Bar (2 ms)" = Some self' ∧
    _StatusOfTest self' "Foo.Bar" = "OK" ∧
    ParsingErrors self'
      = ["1: [       OK ] Foo.Bar (1 ms) [success while in status not known]";
         "1: [       OK ] Foo.Bar (2 ms) [success while in status OK]"].
Proof.
  destruct (success_line_is_recorded maxint64
              (run_log maxint64 ["[       OK ] Foo.Bar (1 ms)"])
              "[       OK ] Foo.Bar (2 ms)" {| m_start := 0; m_group1 := "Foo.Bar" |})
    as (self' & Hrun & _ & Hs & _ & He & _); [vm_compute; reflexivity|].
  cbn [m_group1] in *. exists self'. split; [exact Hrun|]. split; [exact Hs|].
  rewrite He. vm_compute. reflexivity.
Defined.

(** X9: a failure line [[  FAILED  ] T] does not overwrite what is known of
    a test that has already failed or timed out (the summary lists the
    failing tests a second time): status and description stay.  Otherwise T
    becomes 'failed' with the lines gathered so far; a parsing error is
    recorded when T was neither running nor failed nor timed out.  No other
    test is touched. *)
Theorem failure_line_keeps_first_report (maxint : Z) (self : GTestLogParser)
    (line : string) (results : match_obj) :
  rmatch _test_fail line = Some results →
  ∃ self', _ProcessLine maxint self line = Some self' ∧
    GetCurrentTest self' = "" ∧
    _StatusOfTest self' (m_group1 results)
      = (if bool_decide (_StatusOfTest self (m_group1 results) ∈ ["failed"; "timeout"])
         then _StatusOfTest self (m_group1 results) else "failed") ∧
    FailureDescription self' (m_group1 results)
      = (if bool_decide (_StatusOfTest self (m_group1 results) ∈ ["failed"; "timeout"])
         then FailureDescription self (m_group1 results)
         else [m_group1 results +:+ ": "] ++ deref self (_failure_description self)) ∧
    ParsingErrors self'
      = ParsingErrors self ++
        (if bool_decide (_StatusOfTest self (m_group1 results)
                           ∈ ["started"; "failed"; "timeout"]) then []
         else [str_of_nat (_line_number self) +:+ ": " +:+ strip line +:+
               " [failure while in status " +:+
               _StatusOfTest self (m_group1 results) +:+ "]"]) ∧
    ∀ t, t ≠ m_group1 results →
         _StatusOfTest self' t = _StatusOfTest self t ∧
         FailureDescription self' t = FailureDescription self t.
Proof.
  intros Hm. rewrite _ProcessLine_by_kind, (kind_of_fail _ _ Hm). cbv zeta.
  destruct (read_master_name_shape line self) as [v ->].
  eexists. split; [done|].
  unfold on_test_fail, _RecordError, reset_failure_description, alloc,
    GetCurrentTest, ParsingErrors, FailureDescription, deref.
  change (_StatusOfTest (set_master_name v self)) with (_StatusOfTest self).
  rewrite !bool_decide_not.
  destruct (bool_decide (_StatusOfTest self (m_group1 results)
                           ∈ ["started"; "failed"; "timeout"]));
    destruct (bool_decide (_StatusOfTest self (m_group1 results)
                             ∈ ["failed"; "timeout"]));
    unfold _StatusOfTest; store_tac.
  all: try (repeat case_match; simplify_eq; by rewrite ?lookup_snoc_nil).
  all: intros t Ht; rewrite ?lookup_insert_ne by congruence; split; [reflexivity|].
  all: repeat case_match; simplify_eq; by rewrite ?lookup_snoc_nil.
Qed.

Lemma failure_line_keeps_first_report_witness :
  ∃ self',
    _ProcessLine maxint64
      (run_log maxint64 ["[ RUN      ] Foo.Bar"; "boom"; "[  FAILED  ] Foo.Bar (3 ms)";
                         "[ RUN      ] Foo.Baz"; "later output"])
      "[  FAILED  ] Foo.Bar" = Some self' ∧
    _StatusOfTest self' "Foo.Bar" = "failed" ∧
    FailureDescription self' "Foo.Bar" = ["Foo.Bar: "; "boom"] ∧
    ParsingErrors self' = [].
Proof.
  destruct (failure_line_keeps_first_report maxint64
              (run_log maxint64 ["[ RUN      ] Foo.Bar"; "boom"; "[  FAILED  ] Foo.Bar (3 ms)";
                                 "[ RUN      ] Foo.Baz"; "later output"])
              "[  FAILED  ] Foo.Bar" {| m_start := 0; m_group1 := "Foo.Bar" |})
    as (self' & Hrun & _ & Hs & Hd & He & _); [vm_compute; reflexivity|].
  cbn [m_group1] in *. exists self'. split; [exact Hrun|].
  split; [rewrite Hs; vm_compute; reflexivity|].
  split; [rewrite Hd; vm_compute; reflexivity|].
  rewrite He. vm_compute. reflexivity.
Defined.

(** X10: the line that declares all tests passed sets [completed] and
    forgets the current test, and changes the status of no test: a test
    that is still running stays in [FailedTests], so that
    [CompletedWithoutFailure] holds after the line exactly when
    [FailedTests] was empty before it. *)
Theorem passed_line_completes_the_run (maxint : Z) (self : GTestLogParser)
    (line : string) (results : match_obj) :
  rmatch _test_passed line = Some results →
  ∃ self', _ProcessLine maxint self line = Some self' ∧
    completed self' = true ∧ GetCurrentTest self' = "" ∧
    (∀ include_fails include_flaky,
       FailedTests self' include_fails include_flaky
       = FailedTests self include_fails include_flaky) ∧
    CompletedWithoutFailure self'
      = (if FailedTests self false false is [] then true else false).
Proof.
  intros Hm. rewrite _ProcessLine_by_kind, (kind_of_passed _ _ Hm). cbv zeta.
  destruct (read_master_name_shape line self) as [v ->].
  eexists. split; [done|]. split_and!; done.
Qed.

Lemma passed_line_completes_the_run_witness :
  ∃ self',
    _ProcessLine maxint64 (run_log maxint64 ["[ RUN      ] Foo.Bar"])
      "[  PASSED  ] 1 test." = Some self' ∧
    completed self' = true ∧ CompletedWithoutFailure self' = false.
Proof.
  destruct (passed_line_completes_the_run maxint64
              (run_log maxint64 ["[ RUN      ] Foo.Bar"])
              "[  PASSED  ] 1 test." {| m_start := 0; m_group1 := "" |})
    as (self' & Hrun & Hc & _ & _ & Hf); [vm_compute; reflexivity|].
  cbn [m_group1] in *. exists self'. split; [exact Hrun|]. split; [exact Hc|].
  rewrite Hf. vm_compute. reflexivity.
Defined.

(** X11: a line in which "Test timeout (N ms) exceeded for T" is found, and
    that passes none of the earlier tests of [_ProcessLine], makes T
    'timeout'; its description is the lines gathered so far followed by
    "Killed (timed out).".  A parsing error is recorded when T was neither
    running nor failed. *)
Theorem timeout_line_is_recorded (maxint : Z) (self : GTestLogParser)
    (line : string) (results : match_obj) :
  kind_of line = IsTimeout results →
  ∃ self', _ProcessLine maxint self line = Some self' ∧
    GetCurrentTest self' = "" ∧
    _StatusOfTest self' (m_group1 results) = "timeout" ∧
    FailureDescription self' (m_group1 results)
      = [m_group1 results +:+ ": "] ++ deref self (_failure_description self) ++
        ["Killed (timed out)."] ∧
    ParsingErrors self'
      = ParsingErrors self ++
        (if bool_decide (_StatusOfTest self (m_group1 results) ∈ ["started"; "failed"])
         then []
         else [str_of_nat (_line_number self) +:+ ": " +:+ strip line +:+
               " [timeout while in status " +:+
               _StatusOfTest self (m_group1 results) +:+ "]"]).
Proof.
  intros Hk. rewrite _ProcessLine_by_kind, Hk. cbv zeta.
  destruct (read_master_name_shape line self) as [v ->].
  eexists. split; [done|].
  unfold on_test_timeout, _RecordError, store_new, reset_failure_description, alloc,
    GetCurrentTest, ParsingErrors, FailureDescription, deref.
  change (_StatusOfTest (set_master_name v self)) with (_StatusOfTest self).
  rewrite !bool_decide_not.
  destruct (bool_decide (_StatusOfTest self (m_group1 results) ∈ ["started"; "failed"]));
    unfold _StatusOfTest; store_tac.
  all: by rewrite lookup_app_r, Nat.sub_diag by done.
Qed.

Lemma timeout_line_is_recorded_witness :
  ∃ self',
    _ProcessLine maxint64 (run_log maxint64 ["[ RUN      ] Foo.Bar"; "working"])
      "Test timeout (45000 ms) exceeded for Foo.Bar" = Some self' ∧
    _StatusOfTest self' "Foo.Bar" = "timeout" ∧
    FailureDescription self' "Foo.Bar" = ["Foo.Bar: "; "working"; "Killed (timed out)."] ∧
    ParsingErrors self' = [].
Proof.
  destruct (timeout_line_is_recorded maxint64
              (run_log maxint64 ["[ RUN      ] Foo.Bar"; "working"])
              "Test timeout (45000 ms) exceeded for Foo.Bar"
              {| m_start := 0; m_group1 := "Foo.Bar" |})
    as (self' & Hrun & _ & Hs & Hd & He); [vm_compute; reflexivity|].
  cbn [m_group1] in *. exists self'. split; [exact Hrun|]. split; [exact Hs|].
  split; [rewrite Hd; vm_compute; reflexivity|].
  rewrite He. vm_compute. reflexivity.
Defined.

End GTestLines.

Module GTestCounts.
Import Re ReFacts ReCaptureFacts GTest GTestFacts GTestReportFacts GTestCountFacts.

(** X12: the count of a disabled-tests or flaky-tests banner always
    parses: it is a run of digits, [int()] returns its value n (a long
    beyond [sys.maxint]) and the handler of ValueError is never entered.
    The count kept is that value when n is positive and the count held so
    far is an [int], and the string 'some' otherwise. *)
Theorem banner_count_always_parses (maxint : Z) (self : GTestLogParser)
    (line : string) (results : match_obj) :
  (rmatch _disabled line = Some results →
   ∃ n self', (0 ≤ n)%Z ∧ digits_val 0 (m_group1 results) = Some n ∧
     py_int maxint (m_group1 results)
       = Some (if bool_decide (- maxint - 1 ≤ n ≤ maxint)%Z then PyInt n else PyLong n) ∧
     _ProcessLine maxint self line = Some self' ∧
     DisabledTests self'
       = if bool_decide (0 < n)%Z && is_int (DisabledTests self)
         then (if bool_decide (- maxint - 1 ≤ n ≤ maxint)%Z then PyInt n else PyLong n)
         else PyStr "some") ∧
  (rmatch _flaky line = Some results →
   ∃ n self', (0 ≤ n)%Z ∧ digits_val 0 (m_group1 results) = Some n ∧
     py_int maxint (m_group1 results)
       = Some (if bool_decide (- maxint - 1 ≤ n ≤ maxint)%Z then PyInt n else PyLong n) ∧
     _ProcessLine maxint self line = Some self' ∧
     FlakyTests self'
       = if bool_decide (0 < n)%Z && is_int (FlakyTests self)
         then (if bool_decide (- maxint - 1 ≤ n ≤ maxint)%Z then PyInt n else PyLong n)
         else PyStr "some").
Proof.
  split; intros Hm.
  - destruct (banner_count _ _ _ Hm) as [Hne Hdigits].
    destruct (py_int_digits maxint _ Hne Hdigits) as (n & Hn & Hval & Hint).
    exists n. eexists. split_and!; [done..|by apply process_disabled|].
    destruct (read_master_name_shape line self) as [v ->].
    unfold DisabledTests, on_disabled. rewrite Hint. simpl.
    assert (positive (if bool_decide (- maxint - 1 ≤ n ≤ maxint)%Z
                      then PyInt n else PyLong n) = bool_decide (0 < n)%Z) as ->
      by by case_bool_decide.
    by destruct (bool_decide (0 < n)%Z), (is_int (_disabled_tests self)).
  - destruct (banner_count _ _ _ Hm) as [Hne Hdigits].
    destruct (py_int_digits maxint _ Hne Hdigits) as (n & Hn & Hval & Hint).
    exists n. eexists. split_and!; [done..|by apply process_flaky|].
    destruct (read_master_name_shape line self) as [v ->].
    unfold FlakyTests, on_flaky. rewrite Hint. simpl.
    assert (positive (if bool_decide (- maxint - 1 ≤ n ≤ maxint)%Z
                      then PyInt n else PyLong n) = bool_decide (0 < n)%Z) as ->
      by by case_bool_decide.
    by destruct (bool_decide (0 < n)%Z), (is_int (_flaky_tests self)).
Qed.

Lemma banner_count_always_parses_witness :
  (∃ self', _ProcessLine maxint64 init "  YOU HAVE 12 DISABLED TESTS" = Some self' ∧
            DisabledTests self' = PyInt 12) ∧
  (∃ self', _ProcessLine maxint64 init "YOU HAVE 9223372036854775808 FLAKY TESTS"
              = Some self' ∧
            FlakyTests self' = PyLong 9223372036854775808).
Proof.
  split.
  - destruct (banner_count_always_parses maxint64 init "  YOU HAVE 12 DISABLED TESTS"
                {| m_start := 0; m_group1 := "12" |}) as [Hd _].
    destruct Hd as (n & self' & _ & Hval & _ & Hrun & Hcount); [vm_compute; reflexivity|].
    exists self'. split; [exact Hrun|].
    vm_compute in Hval. injection Hval as <-. rewrite Hcount. vm_compute. reflexivity.
  - destruct (banner_count_always_parses maxint64 init
                "YOU HAVE 9223372036854775808 FLAKY TESTS"
                {| m_start := 0; m_group1 := "9223372036854775808" |}) as [_ Hf].
    destruct Hf as (n & self' & _ & Hval & _ & Hrun & Hcount); [vm_compute; reflexivity|].
    exists self'. split; [exact Hrun|].
    vm_compute in Hval. injection Hval as <-. rewrite Hcount. vm_compute. reflexivity.
Defined.

End GTestCounts.

Module GTestFailingList.
Import Re ReFacts GTest GTestFacts GTestReportFacts.

(** X14: the list that follows the line "Failing tests:".  Among the lines
    that no test of [_ProcessLine] recognises, outside of a suppression: a
    line that starts with "Failing tests:" opens the list, a line that
    starts with a test name keeps it open, and any other line closes it.
    While the list is open, a test it names that was unknown or had passed
    becomes 'failed' with the description "Unknown error, see stdio log.";
    a test in any other status keeps its status. *)
Theorem failing_tests_list_marks_failures (maxint : Z) (self : GTestLogParser)
    (line : string) :
  kind_of line = IsOther → _current_suppression_hash self = "" →
  ∃ self', _ProcessLine maxint self line = Some self' ∧
    _parsing_failures self'
      = (if _parsing_failures self
         then bool_decide (is_Some (rmatch _test_name line))
         else String.prefix "Failing tests:" line) ∧
    ∀ results,
      _parsing_failures self = true → rmatch _test_name line = Some results →
      _StatusOfTest self' (m_group1 results)
        = (if bool_decide (_StatusOfTest self (m_group1 results) ∈ ["not known"; "OK"])
           then "failed" else _StatusOfTest self (m_group1 results)) ∧
      (_StatusOfTest self (m_group1 results) ∈ ["not known"; "OK"] →
       FailureDescription self' (m_group1 results)
         = [m_group1 results +:+ ": "; "Unknown error, see stdio log."]).
Proof.
  intros Hk Hh. rewrite _ProcessLine_by_kind, Hk. cbv zeta.
  destruct (read_master_name_shape line self) as [v ->].
  eexists. split; [done|].
  unfold on_other_line. simpl. rewrite Hh. simpl.
  set (noted := if bool_decide (_current_test self ≠ "") then _ else _).
  assert (_parsing_failures noted = _parsing_failures self ∧
          _test_status noted = _test_status self ∧
          length (heap noted) = length (heap self)) as (N1 & N2 & N3).
  { unfold noted. case_bool_decide; [|done]. unfold extend. simpl.
    by rewrite length_alter. }
  unfold on_failing_tests_list. rewrite N1.
  assert (∀ t, _StatusOfTest noted t = _StatusOfTest self t) as N4
    by (intros t; unfold _StatusOfTest; by rewrite N2).
  clearbody noted.
  destruct (_parsing_failures self).
  - destruct (rmatch _test_name line) as [results|] eqn:Hm.
    + rewrite N4. split.
      * rewrite (bool_decide_eq_true_2 (is_Some (Some results))) by (by exists results).
        by case_bool_decide.
      * intros ? _ [= <-]. case_bool_decide as Hs; [|done].
        split; [|intros _].
        -- unfold _StatusOfTest, store_new, alloc. simpl.
           by rewrite lookup_insert_eq.
        -- unfold FailureDescription, store_new, alloc, deref. simpl.
           rewrite lookup_insert_eq. simpl.
           by rewrite lookup_app_r, Nat.sub_diag by done.
    + split; [reflexivity|done].
  - split; [|done]. by destruct (String.prefix "Failing tests:" line).
Qed.

Lemma failing_tests_list_marks_failures_witness :
  ∃ self',
    _ProcessLine maxint64
      (run_log maxint64 ["[ RUN      ] Foo.Bar"; "[       OK ] Foo.Bar (1 ms)";
                         "Failing tests:"])
      "Foo.Bar" = Some self' ∧
    _parsing_failures self' = true ∧
    _StatusOfTest self' "Foo.Bar" = "failed" ∧
    FailureDescription self' "Foo.Bar" = ["Foo.Bar: "; "Unknown error, see stdio log."].
Proof.
  destruct (failing_tests_list_marks_failures maxint64
              (run_log maxint64 ["[ RUN      ] Foo.Bar"; "[       OK ] Foo.Bar (1 ms)";
                                 "Failing tests:"])
              "Foo.Bar")
    as (self' & Hrun & Hflag & Hnamed); [vm_compute; reflexivity..|].
  destruct (Hnamed {| m_start := 0; m_group1 := "Foo.Bar" |}) as [Hs Hd];
    [vm_compute; reflexivity..|].
  cbn [m_group1] in *.
  exists self'. split; [exact Hrun|].
  split; [rewrite Hflag; vm_compute; reflexivity|].
  split; [rewrite Hs; vm_compute; reflexivity|].
  apply Hd. apply (bool_decide_unpack _). vm_compute. exact I.
Defined.

End GTestFailingList.

Module GTestStart.
Import Re ReFacts GTest GTestFacts GTestReportFacts.

Lemma deref_old (h ext : list (list string)) (l : nat) :
  l < length h → default [] ((h ++ ext) !! l) = default [] (h !! l).
Proof. intros Hl. by rewrite lookup_app_l. Qed.

(** X24: a start line [[ RUN      ] T] makes T the current test, in status
    'started' with the description "Did not complete." (followed by the
    retry separator when failed tests are being retried).  A test that was
    still running, the current one in status 'started', is left as a
    'timeout' with the lines gathered for it; no other test changes. *)
Theorem start_line_times_out_the_running_test (maxint : Z) (self : GTestLogParser)
    (line : string) (results : match_obj) :
  rmatch _test_start line = Some results → well_formed self →
  ∃ self', _ProcessLine maxint self line = Some self' ∧
    GetCurrentTest self' = m_group1 results ∧
    _StatusOfTest self' (m_group1 results) = "started" ∧
    FailureDescription self' (m_group1 results)
      = [m_group1 results +:+ ": "; "Did not complete."] ++
        (if retrying_failed self then [""; "RETRY OUTPUT:"; ""] else []) ∧
    ∀ t, t ≠ m_group1 results →
      let left_running :=
        bool_decide (GetCurrentTest self ≠ "" ∧ t = GetCurrentTest self ∧
                     _StatusOfTest self t = "started") in
      _StatusOfTest self' t
        = (if left_running then "timeout" else _StatusOfTest self t) ∧
      FailureDescription self' t
        = (if left_running
           then [t +:+ ": "] ++ deref self (_failure_description self)
           else FailureDescription self t).
Proof.
  intros Hm Hwf. rewrite (process_test_start maxint self line results Hm).
  destruct (read_master_name_shape line self) as [v ->].
  assert (well_formed (set_master_name v self)) as Hwf' by exact Hwf.
  destruct Hwf as (Hfd & Hk & He).
  unfold on_test_start.
  destruct (timeout_current_test_well_formed _ Hwf') as (mid & Hmid & Hwfmid).
  rewrite Hmid. simpl.
  assert (heap mid = heap self ∧ _failure_description mid = _failure_description self ∧
          retrying_failed mid = retrying_failed self ∧
          ∀ t, _test_status mid !! t
               = if bool_decide (GetCurrentTest self ≠ "" ∧ t = GetCurrentTest self ∧
                                 _StatusOfTest self t = "started")
                 then Some ("timeout", _failure_description self)
                 else _test_status self !! t) as (M1 & M2 & M3 & M4).
  { clear Hwfmid. unfold timeout_current_test, GetCurrentTest in *. simpl in Hmid.
    case_bool_decide as Hc.
    - simplify_eq. split_and!; [done..|]. intros t.
      rewrite bool_decide_eq_false_2; [done|]. by intros [? _].
    - destruct (_test_status self !! _current_test self) as [[st l]|] eqn:Hcur;
        [|done]. simpl in Hmid.
      case_bool_decide as Hst; simplify_eq; simpl.
      + split_and!; [done..|]. intros t. case_bool_decide as Ht.
        * destruct Ht as (_ & -> & _). by rewrite lookup_insert_eq.
        * rewrite lookup_insert_ne; [done|]. intros <-. apply Ht.
          split_and!; [done..|]. unfold _StatusOfTest. by rewrite Hcur.
      + split_and!; [done..|]. intros t.
        rewrite bool_decide_eq_false_2; [done|]. intros (_ & -> & Hs).
        unfold _StatusOfTest in Hs. rewrite Hcur in Hs. done. }
  destruct (start_test_well_formed results mid Hwfmid) as (self' & Hstart & _).
  exists self'. split; [done|].
  unfold start_test, store_new, alloc in Hstart. simpl in Hstart.
  rewrite lookup_insert_eq, M3 in Hstart. simpl in Hstart.
  assert (∀ t st l, t ≠ m_group1 results →
            _test_status mid !! t = Some (st, l) → l < length (heap self)) as Hold.
  { intros t st l _ Ht. rewrite M4 in Ht. case_bool_decide; simplify_eq; [done|].
    by destruct (He t st l Ht). }
  unfold GetCurrentTest, _StatusOfTest, FailureDescription, deref in *.
  destruct (retrying_failed self); simplify_eq; simpl; rewrite lookup_insert_eq; simpl.
  - rewrite M1, list_lookup_alter_eq, lookup_app_r, Nat.sub_diag by done. simpl.
    split_and!; [done..|]. intros t Ht.
    rewrite lookup_insert_ne by done. rewrite M4.
    case_bool_decide; simpl.
    + split; [done|]. f_equal.
      rewrite list_lookup_alter_ne by lia. by apply deref_old.
    + destruct (_test_status self !! t) as [[st l]|] eqn:Hl; [|done].
      split; [done|]. f_equal. destruct (He t st l Hl) as [? _].
      rewrite list_lookup_alter_ne by lia. by apply deref_old.
  - rewrite M1, lookup_app_l, lookup_app_r, Nat.sub_diag
      by (rewrite ?length_app; simpl; lia). simpl.
    split_and!; [done..|]. intros t Ht.
    rewrite lookup_insert_ne by done. rewrite M4.
    case_bool_decide; simpl.
    + split; [done|]. f_equal. rewrite <-app_assoc. by apply deref_old.
    + destruct (_test_status self !! t) as [[st l]|] eqn:Hl; [|done].
      split; [done|]. f_equal. destruct (He t st l Hl) as [? _].
      rewrite <-app_assoc. by apply deref_old.
Qed.

Lemma start_line_times_out_the_running_test_witness :
  let self := run_log maxint64 ["[ RUN      ] Foo.Bar"; "output"] in
  ∃ self', _ProcessLine maxint64 self "[ RUN      ] Foo.Baz" = Some self' ∧
    GetCurrentTest self' = "Foo.Baz" ∧
    FailureDescription self' "Foo.Baz" = ["Foo.Baz: "; "Did not complete."] ∧
    _StatusOfTest self' "Foo.Bar" = "timeout" ∧
    FailureDescription self' "Foo.Bar" = ["Foo.Bar: "; "output"].
Proof.
  intros self.
  destruct (start_line_times_out_the_running_test maxint64 self
              "[ RUN      ] Foo.Baz" {| m_start := 0; m_group1 := "Foo.Baz" |})
    as (self' & Hrun & Hc & _ & Hd & Hother); [vm_compute; reflexivity|..].
  { apply (run_log_spec maxint64). }
  cbn [m_group1] in *. destruct (Hother "Foo.Bar") as [Hs Hf]; [done|].
  exists self'. split; [exact Hrun|]. split; [exact Hc|].
  split; [rewrite Hd; vm_compute; reflexivity|].
  split; [rewrite Hs; vm_compute; reflexivity|].
  rewrite Hf. vm_compute. reflexivity.
Defined.

End GTestStart.

Module GTestSplit.
Import Re ReFacts ReCaptureFacts ReShiftFacts GTest GTestFacts GTestReportFacts.

(** X25: a line in which a gtest directive starts in the middle is read as
    two lines: the text before the directive, and the rest.  The two parts
    make up the line, the second part is recognised as the directive that
    was found, with the same test name, and both are processed under one
    line number; from the states a parser reaches, neither part raises. *)
Theorem line_is_split_at_a_directive (maxint : Z) (self : GTestLogParser)
    (line : string) (m : match_obj) :
  first_search gtest_regexps line = Some m → m_start m ≠ 0 → well_formed self →
  let before := take_str (m_start m) line in
  let directive := drop_str (m_start m) line in
  let found := {| m_start := 0; m_group1 := m_group1 m |} in
  before +:+ directive = line ∧
  kind_of directive ∈ [IsStart found; IsOk found; IsFail found; IsPassed] ∧
  ∃ mid self',
    _ProcessLine maxint (set_line_number (S (_line_number self)) self) before
      = Some mid ∧
    _ProcessLine maxint mid directive = Some self' ∧
    ProcessLine maxint self line = Some self' ∧
    _line_number self' = S (_line_number self).
Proof.
  intros Hfound Hstart Hwf before directive found.
  split; [apply take_drop_str|]. split.
  - apply first_search_elem in Hfound as (r & Hin & Hr).
    unfold gtest_regexps in Hin. rewrite !elem_of_cons, elem_of_nil in Hin.
    destruct Hin as [->|[->|[->|[->|[]]]]];
      apply search_suffix in Hr; try reflexivity; fold directive found in Hr.
    + rewrite (kind_of_start _ _ Hr). left.
    + rewrite (kind_of_ok _ _ Hr). right. left.
    + rewrite (kind_of_fail _ _ Hr). do 2 right. left.
    + rewrite (kind_of_passed _ _ Hr). do 3 right. left.
  - assert (well_formed (set_line_number (S (_line_number self)) self)) as Hwf'
      by exact Hwf.
    destruct (_ProcessLine_well_formed maxint _ before Hwf') as (mid & Hmid & Hwfmid).
    destruct (_ProcessLine_well_formed maxint mid directive Hwfmid) as (self' & Hself' & _).
    exists mid, self'. split_and!; [done..| |].
    + unfold ProcessLine. rewrite Hfound.
      apply Nat.eqb_neq in Hstart. rewrite Hstart.
      fold before directive. by rewrite Hmid.
    + apply _ProcessLine_extends in Hmid as (_ & Hn1 & _).
      apply _ProcessLine_extends in Hself' as (_ & Hn2 & _).
      rewrite Hn2, Hn1. simpl. lia.
Qed.

Lemma line_is_split_at_a_directive_witness :
  let line := "garbage[ RUN      ] Foo.Bar" in
  ∃ mid self',
    _ProcessLine maxint64 (set_line_number 1 init) "garbage" = Some mid ∧
    _ProcessLine maxint64 mid "[ RUN      ] Foo.Bar" = Some self' ∧
    ProcessLine maxint64 init line = Some self' ∧
    _line_number self' = 1.
Proof.
  intros line.
  destruct (line_is_split_at_a_directive maxint64 init line
              {| m_start := 7; m_group1 := "Foo.Bar" |})
    as (_ & _ & mid & self' & H1 & H2 & H3 & H4);
    [vm_compute; reflexivity|simpl; lia|apply init_well_formed|].
  exists mid, self'. split; [exact H1|]. split; [exact H2|]. split; [exact H3|exact H4].
Defined.

End GTestSplit.

(** * Properties of the step engine *)
Module EngineProperties.
Import Py Properties AnnotatedRun AnnotatedRunFacts PropertiesFacts EngineFacts.

(** X16: a generator is handled item by item: the steps are those of each
    yielded item in turn, every yielded sequence being given its own
    'seed_steps'; at the first item that is neither a step, a sequence nor
    a generator the AssertionError ends the iteration, after the steps of
    the items before it, and nothing that the generator would yield later
    is reached. *)
Theorem generator_is_handled_item_by_item (good : list source) (bad : source)
    (rest : list source) :
  Forall (λ i, well_shaped i = true) good →
  ensure_sequence_of_steps (Generator good)
  = (flat_map (λ i, (ensure_sequence_of_steps i).1) good, None) ∧
  (well_shaped bad = false →
   ∃ e, (ensure_sequence_of_steps bad).2 = Some e ∧
        ensure_sequence_of_steps (Generator (good ++ bad :: rest))
        = (flat_map (λ i, (ensure_sequence_of_steps i).1) good
             ++ (ensure_sequence_of_steps bad).1, Some e)).
Proof.
  intros Hgood.
  assert (Forall (λ i, (ensure_sequence_of_steps i).2 = None) good) as Hstop.
  { eapply Forall_impl; [exact Hgood|]. intros i. apply well_shaped_ensure. }
  split.
  - rewrite <-(app_nil_r good) at 1. rewrite (ensure_generator_app good [] Hstop).
    simpl. by rewrite app_nil_r.
  - intros Hbad. destruct (ill_shaped_ensure bad Hbad) as [e He]. exists e.
    split; [done|]. rewrite (ensure_generator_app good (bad :: rest) Hstop).
    change (ensure_sequence_of_steps (Generator (bad :: rest)))
      with (match ensure_sequence_of_steps bad with
            | (steps, Some e) => (steps, Some e)
            | (steps, None) =>
                let '(steps', e) := ensure_sequence_of_steps (Generator rest) in
                (steps ++ steps', e)
            end).
    destruct (ensure_sequence_of_steps bad) as [steps stop]. simpl in He. by subst.
Qed.

Lemma generator_is_handled_item_by_item_witness :
  ensure_sequence_of_steps
    (Generator ([OneStep (command_step "a" "x");
                 Sequence [Leaf (command_step "b" "x"); Leaf (command_step "c" "x")]] ++
                Other :: [OneStep (command_step "d" "x")]))
  = ([command_step "a" "x";
      step_with_seed_steps ["b"; "c"] (command_step "b" "x");
      command_step "c" "x"],
     Some (AssertionError "Item is not a sequence or a step")).
Proof.
  destruct (generator_is_handled_item_by_item
              [OneStep (command_step "a" "x");
               Sequence [Leaf (command_step "b" "x"); Leaf (command_step "c" "x")]]
              Other [OneStep (command_step "d" "x")]) as [_ Hbad].
  - repeat constructor.
  - destruct (Hbad eq_refl) as (e & He & ->). simpl in He. by injection He as <-.
Defined.

(** X17: [render_step] replaces every placeholder of the command, in place,
    by the tokens it renders to, and keeps the other arguments and their
    order; every other key of the step is left as it is.  The placeholders
    it returns are those of the command, grouped by recipe module and,
    within a module, in the order of the command. *)
Theorem render_step_renders_in_place (s : step_dict) (test_data : option test_item) :
  cmd (render_step s test_data).1
  = Arg <$> flat_map (rendered_item test_data) (cmd s) ∧
  name (render_step s test_data).1 = name s ∧
  seed_steps (render_step s test_data).1 = seed_steps s ∧
  followup_annotations (render_step s test_data).1 = followup_annotations s ∧
  extra (render_step s test_data).1 = extra s ∧
  NoDup (render_step s test_data).2.*1 ∧
  ∀ api, default [] (dict_get api (render_step s test_data).2)
         = filter (λ p, api_name p = api) (holes (cmd s)).
Proof.
  unfold render_step.
  destruct (render_cmd_spec test_data (cmd s) []) as (H1 & H2 & H3); [constructor|].
  destruct (render_cmd (cmd s) test_data []) as [new_cmd phs]. simpl in *.
  by rewrite H1.
Qed.

Lemma render_step_renders_in_place_witness :
  let out := {| api_name := "json"; render := λ _, ["/tmp/out.json"];
                step_finished := λ _, ([], []) |} in
  let dir := {| api_name := "path"; render := λ _, ["--dir"; "/b/build"];
                step_finished := λ _, ([], []) |} in
  let log := {| api_name := "json"; render := λ _, ["/tmp/log.json"];
                step_finished := λ _, ([], []) |} in
  let s := {| name := "compile";
              cmd := [Arg "make"; Hole out; Arg "-k"; Hole dir; Hole log];
              seed_steps := Some ["compile"]; followup_annotations := None;
              extra := [("cwd", "/b")] |} in
  cmd (render_step s None).1
  = [Arg "make"; Arg "/tmp/out.json"; Arg "-k"; Arg "--dir"; Arg "/b/build";
     Arg "/tmp/log.json"] ∧
  name (render_step s None).1 = "compile" ∧
  seed_steps (render_step s None).1 = Some ["compile"] ∧
  dict_get "json" (render_step s None).2 = Some [out; log] ∧
  dict_get "path" (render_step s None).2 = Some [dir].
Proof.
  intros out dir log s.
  destruct (render_step_renders_in_place s None) as (Hcmd & Hname & Hseed & _).
  split; [rewrite Hcmd; reflexivity|]. split; [exact Hname|].
  split; [exact Hseed|]. split; reflexivity.
Defined.

(** X18: [finalize] tells the annotator what the presentation holds: the
    step text and the summary text when they are not empty, every log with
    its lines in the order in which the logs were added, then the perf logs,
    and last the verdict of a WARNING, FAILURE or EXCEPTION status; for the
    status SUCCESS or None it tells no verdict. *)
Theorem finalize_reports_the_presentation (p : StepPresentation) (σ : list obj) :
  valid_presentation σ p →
  (finalize p σ).2 =
    (if truthy (_step_text p) then [ann_step_text (default "" (_step_text p))] else []) ++
    (if truthy (_step_summary_text p)
     then [ann_step_summary_text (default "" (_step_summary_text p))] else []) ++
    ((λ kv, write_log_lines kv.1 kv.2 false) <$> snapshot σ (_logs p)) ++
    ((λ kv, write_log_lines kv.1 kv.2 true) <$> snapshot σ (_perf_logs p)) ++
    match _status p with
    | Some "WARNING" => [step_warnings]
    | Some "FAILURE" => [step_failure]
    | Some "EXCEPTION" => [step_exception]
    | _ => []
    end.
Proof. apply finalize_told. Qed.

Lemma finalize_reports_the_presentation_witness :
  (finalize {| _finalized := false; _logs := 0; _perf_logs := 1;
               _status := Some "WARNING"; _step_summary_text := Some "";
               _step_text := Some "flaky" |}
            [ODict [("stdout", 2); ("stderr", 3)]; ODict [("graph", 3)];
             OList ["line 1"; "line 2"]; OList []]).2
  = [ann_step_text "flaky";
     write_log_lines "stdout" ["line 1"; "line 2"] false;
     write_log_lines "stderr" [] false;
     write_log_lines "graph" [] true;
     step_warnings].
Proof.
  rewrite finalize_reports_the_presentation; [reflexivity|].
  split; (split; [by eexists|]); intros k l Hin; simpl in Hin;
    repeat (apply elem_of_cons in Hin as [Hin|Hin]; [simplify_eq; by eexists|]);
    by apply elem_of_nil in Hin.
Defined.

(** X19: what [step_callback] tells the annotator: the cursor is moved to
    the step; outside of test mode the line "step returned non-zero exit
    code: N" is emitted for every return code N, zero included; and
    [finalize] then tells the verdict of the step's last status, a failure
    exactly when that status is FAILURE. *)
Theorem step_callback_tells_the_annotator (s : step_dict)
    (followup : option (StepData → list action))
    (placeholders : list (string * list Placeholder))
    (test_data_item : option test_item) (code : Z) (w : world)
    (r : StepData) (w' : world) :
  step_callback s followup placeholders test_data_item code w = Ok (r, w') →
  ∃ told,
    trace w' =
      trace w ++ [step_cursor (name s)] ++
      (if test_data_item is None
       then [emit ("step returned non-zero exit code: " +:+ str_of_Z code)]
       else []) ++ told ∧
    (step_failure ∈ told ↔ status (presentation r) = Some "FAILURE") ∧
    (step_warnings ∈ told ↔ status (presentation r) = Some "WARNING") ∧
    (step_exception ∈ told ↔ status (presentation r) = Some "EXCEPTION").
Proof.
  intros (p & σ & Hv & Hst & Hr & Htrace)%step_callback_trace.
  exists (finalize p σ).2. split; [done|].
  unfold status, presentation. rewrite Hr, (finalize_told p σ Hv).
  rewrite !finalize_no_verdict; try done.
  - by apply verdict_of_status.
  - intros x Hx. destruct (truthy (_step_text p)); [|by apply elem_of_nil in Hx].
    apply list_elem_of_singleton in Hx. by eexists.
  - intros x Hx. destruct (truthy (_step_summary_text p)); [|by apply elem_of_nil in Hx].
    apply list_elem_of_singleton in Hx. by eexists.
  - intros x Hx. destruct (truthy (_step_text p)); [|by apply elem_of_nil in Hx].
    apply list_elem_of_singleton in Hx. by eexists.
  - intros x Hx. destruct (truthy (_step_summary_text p)); [|by apply elem_of_nil in Hx].
    apply list_elem_of_singleton in Hx. by eexists.
  - intros x Hx. destruct (truthy (_step_text p)); [|by apply elem_of_nil in Hx].
    apply list_elem_of_singleton in Hx. by eexists.
  - intros x Hx. destruct (truthy (_step_summary_text p)); [|by apply elem_of_nil in Hx].
    apply list_elem_of_singleton in Hx. by eexists.
Qed.

Lemma step_callback_tells_the_annotator_witness :
  ∃ r w' told,
    step_callback (fields (command_step "compile" "make")) None [] None 1 new_world
      = Ok (r, w') ∧
    trace w' = [step_cursor "compile"; emit "step returned non-zero exit code: 1"] ++ told ∧
    step_failure ∈ told.
Proof.
  destruct (step_callback (fields (command_step "compile" "make")) None [] None 1 new_world)
    as [[r w']|e] eqn:Hrun; [|by vm_compute in Hrun].
  destruct (step_callback_tells_the_annotator _ _ _ _ _ _ _ _ Hrun)
    as (told & Htrace & Hfailure & _).
  exists r, w', told. split; [done|]. split; [exact Htrace|].
  apply Hfailure. vm_compute in Hrun. by injection Hrun as <- _.
Defined.

(** X20: what [run_steps] returns.  The status code is 2, with no steps,
    exactly when the recipe is not found.  Otherwise the steps that ran are
    the steps the sequencer yields for the recipe's generator, each once and
    in that order (the names in the history are distinct), the status code
    is 0 or 1, and in test mode every entry of the test data names a step
    that ran: test data left over makes [run_steps] raise. *)
Theorem run_steps_runs_each_step_once
    (run_command : step_dict → Z)
    (update_build_failure : bool → Z → step_dict → bool)
    (stream_lines : list annotation → list string)
    (iteritems : list (string * list Placeholder) → list (string * list Placeholder))
    (find_recipe : string → option (PropertiesApi → source))
    (build_properties factory_properties : list (string * pyobj))
    (test_data : option (list (string * test_item)))
    (status_code : Z) (steps_ran : option (list (string * StepData))) :
  run_steps run_command update_build_failure stream_lines iteritems find_recipe
    build_properties factory_properties test_data = Ok (status_code, steps_ran) →
  ∃ recipe, dict_get "recipe" factory_properties = Some (PStr recipe) ∧
    match find_recipe recipe with
    | None => status_code = 2%Z ∧ steps_ran = None
    | Some GenSteps =>
        ∃ api history,
          PropertiesApi_init (merged_properties build_properties factory_properties)
            = Ok api ∧
          steps_ran = Some history ∧ (status_code = 0 ∨ status_code = 1)%Z ∧
          (ensure_sequence_of_steps (GenSteps api)).2 = None ∧
          history.*1 = step_name <$> (ensure_sequence_of_steps (GenSteps api)).1 ∧
          NoDup history.*1 ∧
          ∀ td k, test_data = Some td → k ∈ td.*1 → k ∈ history.*1
    end.
Proof.
  unfold run_steps. intros H.
  destruct (assert (dict_has "recipe" factory_properties) _); [|done]. simpl in H.
  destruct (dict_get "recipe" factory_properties) as [[| | |recipe| | | | |]|]; try done.
  exists recipe. split; [done|].
  destruct (find_recipe recipe) as [GenSteps|]; [|by simplify_eq].
  destruct (PropertiesApi_init _) as [api|e]; [|done]. simpl in H.
  destruct (assert (is_generator (GenSteps api)) _); [|done]. simpl in H.
  destruct (ensure_sequence_of_steps (GenSteps api)) as [sequence stop] eqn:Hens.
  destruct (run_loop _ _ _ _ sequence _) as [st|e] eqn:Hloop; [|done]. simpl in H.
  destruct stop as [e|]; [done|].
  destruct (default [] (pending_test_data st)) as [|item left] eqn:Hleft; [|done].
  simpl in H. simplify_eq.
  pose proof (run_loop_test_data _ _ _ _ _ _ _ Hloop) as Htd.
  pose proof (run_loop_NoDup _ _ _ _ _ _ _ Hloop) as Hnd.
  apply run_loop_history in Hloop as (rs & Hlen & Hh & _). simpl in *.
  assert ((step_history (shared st)).*1 = step_name <$> sequence) as Hnames.
  { rewrite Hh. apply fst_zip. rewrite length_fmap. lia. }
  exists api, (step_history (shared st)). rewrite Hens.
  split_and!; [done|done|by destruct (failed st); auto|done|done|apply Hnd; constructor|].
  intros td k -> Hk. rewrite Hnames.
  destruct (decide (k ∈ step_name <$> sequence)) as [|Hout]; [done|exfalso].
  rewrite Htd in Hleft. simpl in Hleft.
  pose proof (left_over_test_data sequence td k Hk Hout) as Hin.
  rewrite Hleft in Hin. by apply elem_of_nil in Hin.
Qed.

Lemma run_steps_runs_each_step_once_witness :
  ∃ history,
    run_steps (λ _, 0%Z) (λ failed code _, failed || negb (code =? 0)%Z) (λ _, []) id
      (λ recipe, if String.eqb recipe "build"
                 then Some (λ _, Generator [OneStep (command_step "sync" "gclient");
                                            OneStep (command_step "compile" "make")])
                 else None)
      [("revision", PInt 42)] [("recipe", PStr "build")]
      (Some [("compile", {| R := Some 1%Z; api_data := [] |})])
    = Ok (1%Z, Some history) ∧
    history.*1 = ["sync"; "compile"].
Proof.
  destruct (run_steps (λ _, 0%Z) (λ failed code _, failed || negb (code =? 0)%Z) (λ _, []) id
      (λ recipe, if String.eqb recipe "build"
                 then Some (λ _, Generator [OneStep (command_step "sync" "gclient");
                                            OneStep (command_step "compile" "make")])
                 else None)
      [("revision", PInt 42)] [("recipe", PStr "build")]
      (Some [("compile", {| R := Some 1%Z; api_data := [] |})]))
    as [[code [history|]]|e] eqn:Hrun; try (by vm_compute in Hrun).
  destruct (run_steps_runs_each_step_once _ _ _ _ _ _ _ _ _ _ Hrun)
    as (recipe & Hrecipe & Hfound).
  injection Hrecipe as <-. simpl in Hfound.
  destruct Hfound as (api & history' & _ & [= <-] & _ & _ & Hnames & _).
  exists history. split; [|exact Hnames].
  vm_compute in Hrun. by injection Hrun as <- _.
Defined.

End EngineProperties.

Module ShellProperties.
Import Py AnnotatedRun.



End ShellProperties.
